(** * BlendLoader: loading entities of a .blend archive into the scene data

    A shallow embedding of [src/utility/loader/BlendLoader.py].  The loader is
    a call sequence over Blender's data API ([bpy]); the part of that API the
    loader touches is modelled below as a store of datablocks with explicit
    state passing, and Python exceptions as an error monad. *)

From stdpp Require Import gmap strings list fin_maps.
From Stdlib Require Import ZArith Ascii.

(** ** Exceptions and the error monad *)

Inductive exn :=
  | Exception (msg : string)   (* [raise Exception(msg)] of the loader itself *)
  | IndexError                 (* string index out of range *)
  | AttributeError             (* attribute read on [None] or on a type lacking it *)
  | ReferenceError             (* access to a datablock that has been removed *)
  | RuntimeError               (* [link] of an object already in the collection *)
  | KeyError                   (* [bpy.data.objects[name]] with no such name *)
  | HostError (msg : string).  (* raised inside the host: file, pattern, import *)

(** The outcome of a call: a value, a Python exception, or [OutOfFuel] when
    the bound that the model puts on a [while] loop is used up. *)
Inductive result (A : Type) :=
  | Ok (a : A)
  | Raise (e : exn)
  | OutOfFuel.
Arguments Ok {A} a.
Arguments Raise {A} e.
Arguments OutOfFuel {A}.

#[export] Instance result_ret : MRet result := λ A a, Ok a.
#[export] Instance result_bind : MBind result := λ A B f m,
  match m with Ok a => f a | Raise e => Raise e | OutOfFuel => OutOfFuel end.

(** [for x in l: body] over a threaded state; the first exception ends the loop. *)
Fixpoint for_in {A S : Type} (l : list A) (body : A → S → result S) (s : S)
  : result S :=
  match l with
  | [] => Ok s
  | x :: l' => s' ← body x s; for_in l' body s'
  end.

(** ** Python string operations used by the loader (ASCII strings) *)

Module Py.

Definition lower_ascii (c : ascii) : ascii :=
  let n := nat_of_ascii c in
  if ((65 <=? n) && (n <=? 90))%nat then ascii_of_nat (n + 32) else c.

(** [s.lower()] *)
Fixpoint lower (s : string) : string :=
  match s with
  | EmptyString => EmptyString
  | String c s' => String (lower_ascii c) (lower s')
  end.

Definition is_digit (c : ascii) : bool :=
  let n := nat_of_ascii c in ((48 <=? n) && (n <=? 57))%nat.

Fixpoint all_digits (s : string) : bool :=
  match s with
  | EmptyString => true
  | String c s' => is_digit c && all_digits s'
  end.

(** [s.isdigit()]: non-empty and digits only *)
Definition isdigit (s : string) : bool :=
  match s with EmptyString => false | _ => all_digits s end.

(** [s[-k]] for [k >= 1]; raises [IndexError] when [s] is shorter than [k] *)
Definition index_from_end (s : string) (k : nat) : result ascii :=
  if (String.length s <? k)%nat then Raise IndexError
  else match String.get (String.length s - k) s with
       | Some c => Ok c
       | None => Raise IndexError
       end.

(** [s[:-k]] for [k >= 1] *)
Definition drop_last (k : nat) (s : string) : string :=
  String.substring 0 (String.length s - k) s.

(** [s[-k:]] for [k >= 1] *)
Definition take_last (k : nat) (s : string) : string :=
  String.substring (String.length s - k) k s.

(** [s.split(sep)], with the piece read so far in [cur] *)
Fixpoint split_aux (sep : ascii) (s : string) (cur : string) : list string :=
  match s with
  | EmptyString => [cur]
  | String c s' =>
      if Ascii.eqb c sep then cur :: split_aux sep s' EmptyString
      else split_aux sep s' (cur +:+ String c EmptyString)
  end.

Definition split (sep : ascii) (s : string) : list string :=
  split_aux sep s EmptyString.

(** [l[-1]] of a list that [split] returned (never empty) *)
Definition last_piece (l : list string) : string := List.last l EmptyString.

End Py.

(** ** Class attributes of [BlendLoader] *)

(** The [type] enumeration of a Blender object; line 22 lists the lowercased
    identifiers. *)
Inductive object_type :=
  | MESH | CURVE | SURFACE | META | FONT | HAIR | POINTCLOUD | VOLUME
  | GPENCIL | ARMATURE | LATTICE | EMPTY | LIGHT | LIGHT_PROBE | CAMERA
  | SPEAKER.

#[export] Instance object_type_eq_dec : EqDecision object_type.
Proof. solve_decision. Defined.

(** The identifier Python sees when it reads [obj.type] *)
Definition type_str (t : object_type) : string :=
  match t with
  | MESH => "MESH" | CURVE => "CURVE" | SURFACE => "SURFACE" | META => "META"
  | FONT => "FONT" | HAIR => "HAIR" | POINTCLOUD => "POINTCLOUD"
  | VOLUME => "VOLUME" | GPENCIL => "GPENCIL" | ARMATURE => "ARMATURE"
  | LATTICE => "LATTICE" | EMPTY => "EMPTY" | LIGHT => "LIGHT"
  | LIGHT_PROBE => "LIGHT_PROBE" | CAMERA => "CAMERA" | SPEAKER => "SPEAKER"
  end.

Definition valid_object_types : list string :=
  ["mesh"; "curve"; "surface"; "meta"; "font"; "hair"; "pointcloud";
   "volume"; "gpencil"; "armature"; "lattice"; "empty"; "light";
   "light_probe"; "camera"; "speaker"].

(** ** Validation of the configured lists (lines 24-43) *)

(** A configured value is a string or a list of strings
    ([Union[list, str]]). *)
Inductive config :=
  | Str (s : string)
  | Lst (l : list string).

Definition no_such (element_name element : string) : exn :=
  Exception ("No such " +:+ element_name +:+ ": " +:+ element).

Definition _validate_and_standardizes_configured_list
    (config_value : config) (allowed_elements : list string)
    (element_name : string) : result (list string) :=
  (* Make sure we have a list *)
  let config_value :=
    match config_value with Lst l => l | Str s => [s] end in
  let config_value := Py.lower <$> config_value in
  (* Check that the given elements are valid *)
  _ ← for_in config_value
        (λ element (_ : unit),
           if decide (element ∉ allowed_elements)
           then Raise (no_such element_name element)
           else Ok ())
        ();
  Ok config_value.

(** ** The scene data of the host ([bpy.data] and [bpy.context])

    Only what the loader reads or writes is kept.  A datablock is referred to
    by the collection of [bpy.data] that holds it (["objects"], ["meshes"],
    ...) and by its identity in that collection; Python holds such references
    in [data_to], [loaded_objects] and the orphan sets. *)

Abbreviation ref := (string * positive)%type.

(** Key frames sit on whole frames: [co] is (frame, value). *)
Record Keyframe := { co : Z * Z }.
Record FCurve := { keyframe_points : list Keyframe }.
Record Action := { fcurves : list FCurve }.
Record AnimData := { action : option Action }.

Record ID := {
  name : string;
  type : object_type;                  (* objects: [obj.type] *)
  parent : option positive;            (* objects: [obj.parent] *)
  animation_data : option AnimData;    (* objects: [obj.animation_data] *)
  uses : list ref;      (* datablocks this one is a counted user of *)
  other_users : nat;    (* users outside [bpy.data]: fake user, other scenes *)
}.

Record state := {
  data : gmap ref ID;                  (* [bpy.data.<collection>] *)
  collection_objects : gset positive;  (* [bpy.context.collection.objects] *)
  scene_camera : option positive;      (* [bpy.context.scene.camera] *)
  scene_frame_end : Z;                 (* [bpy.context.scene.frame_end] *)
  dead : gset ref;    (* removed datablocks: their identity is never reused *)
}.

(** [datablock.users]: the fixed outside users, the link to the scene
    collection, and the datablocks of [bpy.data] that use it. *)
Definition users (s : state) (k : ref) (d : ID) : nat :=
  other_users d
  + (if decide (k.1 = "objects" ∧ k.2 ∈ collection_objects s) then 1 else 0)
  + size (filter (λ kd : ref * ID, k ∈ uses kd.2) (data s)).

(** Modelled from the spec: [collect_all_orphan_datablocks] lives in
    [src/utility/BlenderUtility.py], which is not among the sources.  The spec
    calls an orphan an unreferenced datablock, and the docstring of
    [_purge_added_orphans] describes the result as a dict of sets holding the
    orphans of every kind of datablock.  The dict of sets is kept as one set
    of pairs (collection name, datablock): [orphans[c]] is the set of the
    datablocks paired with [c]. *)
Definition collect_all_orphan_datablocks (s : state) : gset ref :=
  dom (filter (λ kd : ref * ID, users s kd.1 kd.2 = 0) (data s)).

(** What removing datablock [k] does to another datablock: every pointer to
    [k] is cleared ([do_unlink]). *)
Definition unlink_from (k : ref) (d : ID) : ID :=
  {| name := name d;
     type := type d;
     parent := match parent d with
               | Some p => if decide (k = ("objects", p)) then None else Some p
               | None => None
               end;
     animation_data := animation_data d;
     uses := filter (λ r, r ≠ k) (uses d);
     other_users := other_users d |}.

(** [bpy.data.<collection>.remove(datablock)], [do_unlink] being true (both
    call sites: explicitly on line 128, by default on line 187). *)
Definition remove (k : ref) (s : state) : result state :=
  match data s !! k with
  | None => Raise ReferenceError
  | Some _ =>
      Ok {| data := unlink_from k <$> delete k (data s);
            collection_objects :=
              if decide (k.1 = "objects")
              then collection_objects s ∖ {[k.2]}
              else collection_objects s;
            scene_camera :=
              match scene_camera s with
              | Some c => if decide (k = ("objects", c)) then None else Some c
              | None => None
              end;
            scene_frame_end := scene_frame_end s;
            dead := {[k]} ∪ dead s |}
  end.

(** Attribute reads on an object reference *)
Definition get_object (obj : positive) (s : state) : result ID :=
  match data s !! ("objects", obj) with
  | Some d => Ok d
  | None => Raise ReferenceError
  end.

(** [entity.parent] on any loaded entity: only objects have the attribute. *)
Definition get_parent (entity : ref) (s : state) : result (option positive) :=
  if decide (entity.1 = "objects")
  then d ← get_object entity.2 s; Ok (parent d)
  else Raise AttributeError.

Definition with_parent (parent_obj : positive) (d : ID) : ID :=
  {| name := name d; type := type d; parent := Some parent_obj;
     animation_data := animation_data d; uses := uses d;
     other_users := other_users d |}.

(** [obj.parent = parent_obj] *)
Definition set_parent (obj parent_obj : positive) (s : state) : result state :=
  d ← get_object obj s;
  Ok {| data := <[("objects", obj) := with_parent parent_obj d]> (data s);
        collection_objects := collection_objects s;
        scene_camera := scene_camera s;
        scene_frame_end := scene_frame_end s;
        dead := dead s |}.

(** [bpy.context.collection.objects.link(obj)] *)
Definition link (obj : positive) (s : state) : result state :=
  _ ← get_object obj s;
  if decide (obj ∈ collection_objects s) then Raise RuntimeError
  else Ok {| data := data s;
             collection_objects := {[obj]} ∪ collection_objects s;
             scene_camera := scene_camera s;
             scene_frame_end := scene_frame_end s;
             dead := dead s |}.

(** [bpy.context.scene.camera = obj] *)
Definition set_scene_camera (obj : positive) (s : state) : state :=
  {| data := data s; collection_objects := collection_objects s;
     scene_camera := Some obj; scene_frame_end := scene_frame_end s;
     dead := dead s |}.

(** [bpy.context.scene.frame_end = n] *)
Definition set_scene_frame_end (n : Z) (s : state) : state :=
  {| data := data s; collection_objects := collection_objects s;
     scene_camera := scene_camera s; scene_frame_end := n;
     dead := dead s |}.

(** The first object of [bpy.data.objects] that carries the name *)
Definition objects_find (n : string) (s : state) : option positive :=
  match list_find (λ kd : ref * ID, kd.1.1 = "objects" ∧ name kd.2 = n)
                  (map_to_list (data s)) with
  | Some (_, kd) => Some kd.1.2
  | None => None
  end.

(** [bpy.data.objects[n]] *)
Definition objects_getitem (n : string) (s : state) : result ref :=
  match objects_find n s with
  | Some obj => Ok ("objects", obj)
  | None => Raise KeyError
  end.

(** ** What the host provides

    The listing of an archive, the import itself, regular expressions, path
    resolution and the renaming of a datablock whose name is taken are the
    host's (or a library's) business; the loader is verified for every
    behaviour of them. *)
Class Host := {
  (* line 21: the lowercased names of the collections of [bpy.data] *)
  valid_datablocks : list string;
  (* [Utility.resolve_path] *)
  resolve_path : string → string;
  (* [re.fullmatch(pattern, s) is not None]; a malformed pattern raises *)
  re_fullmatch : string → string → result bool;
  (* entering [bpy.data.libraries.load(path)]: [data_from], the names the
     archive lists under each of its data blocks *)
  libraries_open : string → result (gmap string (list string));
  (* leaving the [with] block: the named entities (and whatever they depend
     on) are imported, [data_to] then holds the imported datablocks *)
  libraries_load : string → gmap string (list string) → state →
                   result (state * gmap string (list positive));
  (* the name the host gives a new object when the requested one is taken *)
  unique_name : state → string → string;
}.

(** [bpy.data.objects.new(name, None)]: a new empty object, not linked
    anywhere, whose identity is that of no datablock present or removed; it
    gets the requested name unless an object carries it. *)
Definition objects_new `{Host} (n : string) (s : state) : positive * state :=
  let obj := fresh (set_map (D:=gset positive) snd (dom (data s) ∪ dead s)) in
  let n' := match objects_find n s with
            | Some _ => unique_name s n
            | None => n
            end in
  (obj,
   {| data := <[("objects", obj) :=
                 {| name := n'; type := EMPTY; parent := None;
                    animation_data := None; uses := []; other_users := 0 |}]>
              (data s);
      collection_objects := collection_objects s;
      scene_camera := scene_camera s;
      scene_frame_end := scene_frame_end s;
      dead := dead s |}).

(** ** [BlendLoader._purge_added_orphans] (lines 169-189) *)

(** Lines 184-189, for one orphan of one collection; the loop state is the
    scene data and the flag [purge_orphans]. *)
Definition purge_orphan (data_to : gmap string (list positive))
    (k : ref) (st : state * bool) : result (state * bool) :=
  let '(collection_name, orphan) := k in
  let '(s, purge_orphans) := st in
  (* Check whether this orphan was loaded on purpose *)
  if decide (orphan ∉ data_to !!! collection_name)
  then (* Remove the orphan *)
       s ← remove (collection_name, orphan) s;
       (* Make sure to run the loop again *)
       Ok (s, true)
  else Ok (s, purge_orphans).

(** One turn of the [while] loop: the orphans are collected once, then the
    two [for] loops visit every pair (collection name, orphan) that was not
    an orphan beforehand.  The result carries the flag [purge_orphans]. *)
Definition purge_pass (orphans_before : gset ref)
    (data_to : gmap string (list positive)) (s : state)
  : result (state * bool) :=
  let orphans_after := collect_all_orphan_datablocks s in
  for_in (elements (orphans_after ∖ orphans_before))
         (purge_orphan data_to) (s, false).

Fixpoint purge_loop (fuel : nat) (orphans_before : gset ref)
    (data_to : gmap string (list positive)) (s : state) : result state :=
  match fuel with
  | 0 => OutOfFuel
  | S fuel' =>
      '(s, purge_orphans) ← purge_pass orphans_before data_to s;
      if (purge_orphans : bool)
      then purge_loop fuel' orphans_before data_to s
      else Ok s
  end.

(** The loop is given one turn more than there are datablocks. *)
Definition _purge_added_orphans (orphans_before : gset ref)
    (data_to : gmap string (list positive)) (s : state) : result state :=
  purge_loop (S (size (data s))) orphans_before data_to s.

(** ** [BlendLoader.load] (lines 45-167) *)

Section load.
Context `{Host}.

(** Lines 75-85, for one requested data block: the names that match the
    pattern are set on [data_to] (here: [selection]). *)
Definition select_entities (name_regrex : option string)
    (data_from : gmap string (list string)) (data_block : string)
    (selection : gmap string (list string))
  : result (gmap string (list string)) :=
  (* Verify that the given data block is valid *)
  match data_from !! data_block with
  | Some names =>
      (* Find all entities of this data block that match the pattern *)
      data_to_entities ←
        for_in names
          (λ entity_name data_to_entities,
             matches ←
               match name_regrex with
               | None => Ok true
               | Some pattern =>
                   if decide (pattern = "") then Ok true
                   else re_fullmatch pattern entity_name
               end;
             Ok (if (matches : bool)
                 then data_to_entities ++ [entity_name]
                 else data_to_entities))
          [];
      (* Import them *)
      Ok (<[data_block := data_to_entities]> selection)
  | None => Raise (no_such "data block" data_block)
  end.

(** Lines 72-85: the [with] block. *)
Definition import_entities (path : string) (name_regrex : option string)
    (data_blocks : list string) (s : state)
  : result (state * gmap string (list positive)) :=
  data_from ← libraries_open path;
  selection ← for_in data_blocks (select_entities name_regrex data_from) ∅;
  libraries_load path selection s.

(** Lines 107-114: the greatest key frame of a camera, [-1] to start with. *)
Definition max_keyframe_of (obj : ID) : result Z :=
  match animation_data obj with
  | None => Ok (-1)%Z
  | Some anim =>
      match action anim with
      | None => Raise AttributeError
      | Some act =>
          Ok (foldl (λ max_keyframe curve,
                foldl (λ max_keyframe keyframe,
                         Z.max max_keyframe (co keyframe).1)
                      max_keyframe (keyframe_points curve))
              (-1)%Z (fcurves act))
      end
  end.

(** The state of the loop of lines 92-131: the scene data, [loaded_objects]
    and [potential_parent_names]. *)
Definition loop_state : Type := state * list ref * list string.

(** Lines 96-128, for one imported object. *)
Definition load_object (obj_types : list string) (merge_objects : bool)
    (merged_object_name : string) (obj : positive) (st : loop_state)
  : result loop_state :=
  let '(s, loaded_objects, potential_parent_names) := st in
  o ← get_object obj s;
  (* Check that the object type is desired *)
  if decide (Py.lower (type_str (type o)) ∈ obj_types) then
    (* Link objects to the scene *)
    s ← link obj s;
    let loaded_objects := loaded_objects ++ [("objects", obj)] in
    (* If a camera was imported *)
    s ← (if decide (type_str (type o) = "CAMERA") then
           (* Make it the active camera in the scene *)
           let s := set_scene_camera obj s in
           (* Find the maximum frame number of its key frames *)
           max_keyframe ← max_keyframe_of o;
           (* Set frame_end to the next free keyframe *)
           Ok (set_scene_frame_end (max_keyframe + 1) s)
         else Ok s);
    (* in case of merging: append parent object names *)
    Ok (s, loaded_objects,
        if merge_objects && bool_decide (parent o = None)
           && bool_decide (merged_object_name = "parent_name")
        then potential_parent_names ++ [name o]
        else potential_parent_names)
  else
    (* Before removing check if its name is relevant in case of merging *)
    let potential_parent_names :=
      if merge_objects && bool_decide (parent o = None)
         && bool_decide (merged_object_name = "parent_name")
      then name o :: potential_parent_names
      else potential_parent_names in
    (* Remove object again if its type is not desired *)
    s ← remove ("objects", obj) s;
    Ok (s, loaded_objects, potential_parent_names).

(** Lines 93-131, for one requested data block. *)
Definition load_block (obj_types : list string) (merge_objects : bool)
    (merged_object_name : string) (data_to : gmap string (list positive))
    (data_block : string) (st : loop_state) : result loop_state :=
  (* Some adjustments that only affect objects *)
  if decide (data_block = "objects") then
    for_in (data_to !!! data_block)
           (load_object obj_types merge_objects merged_object_name) st
  else
    let '(s, loaded_objects, potential_parent_names) := st in
    Ok (s, loaded_objects ++ (pair data_block <$> data_to !!! data_block),
        potential_parent_names).

(** [path.split('/')[-1][:-6]] *)
Definition file_stem (path : string) : string :=
  Py.drop_last 6 (Py.last_piece (Py.split "/" path)).

(** Lines 136-147: the name of the new parent. *)
Definition merged_parent_name (path merged_object_name : string)
    (potential_parent_names : list string) : result string :=
  if decide (merged_object_name = "filename") then Ok (file_stem path)
  else if decide (merged_object_name = "parent_name") then
    let parent_name :=
      match potential_parent_names with
      | n :: _ => n
      | [] => file_stem path
      end in
    (* sometimes the parent name contains a .001 at the end *)
    c ← Py.index_from_end parent_name 4;
    if Ascii.eqb c "." && Py.isdigit (Py.take_last 3 parent_name)
    then Ok (Py.drop_last 4 parent_name)
    else Ok parent_name
  else Ok merged_object_name.

(** Lines 153-159, for one loaded entity. *)
Definition reparent (parent_obj : positive) (loaded_object : ref) (s : state)
  : result state :=
  p ← get_parent loaded_object s;
  match p with
  | Some _ => Ok s   (* objects with a parent will be skipped *)
  | None => set_parent loaded_object.2 parent_obj s
  end.

(** Lines 135-159: the body of [if merge_objects and len(loaded_objects) > 1]. *)
Definition merge_loaded (path merged_object_name : string)
    (loaded_objects : list ref) (potential_parent_names : list string)
    (s : state) : result (string * positive * state) :=
  (* retrieve the name of the new object *)
  parent_name ←
    merged_parent_name path merged_object_name potential_parent_names;
  (* create new empty object which acts as parent, and link it *)
  let '(parent_obj, s) := objects_new parent_name s in
  s ← link parent_obj s;
  s ← for_in loaded_objects (reparent parent_obj) s;
  Ok (parent_name, parent_obj, s).

Definition load (path : string) (obj_types : config)
    (name_regrex : option string) (data_blocks : config)
    (merge_objects : bool) (merged_object_name : string) (s : state)
  : result (list ref * state) :=
  (* get a path to a .blend file *)
  let path := resolve_path path in
  data_blocks ← _validate_and_standardizes_configured_list
                  data_blocks valid_datablocks "data block";
  obj_types ← _validate_and_standardizes_configured_list
                obj_types valid_object_types "object type";
  (* Remember which orphans existed beforehand *)
  let orphans_before := collect_all_orphan_datablocks s in
  (* Start importing blend file *)
  '(s, data_to) ← import_entities path name_regrex data_blocks s;
  (* Go over all imported objects again *)
  '(s, loaded_objects, potential_parent_names) ←
    for_in data_blocks
      (load_block obj_types merge_objects merged_object_name data_to)
      (s, [], []);
  (* merge objects into one, if desired *)
  let merging := merge_objects && (1 <? length loaded_objects)%nat in
  '(parent_name, s) ←
    (if merging
     then '(parent_name, _, s) ←
            merge_loaded path merged_object_name loaded_objects
                         potential_parent_names s;
          Ok (parent_name, s)
     else Ok ("", s));
  (* remove the dependent datablocks that are now orphans *)
  s ← _purge_added_orphans orphans_before data_to s;
  if merging
  then r ← objects_getitem parent_name s; Ok ([r], s)
  else Ok (loaded_objects, s).

End load.

(** ** Vocabulary of the specification *)

(** What a datablock looks like once the datablocks of [R] have been removed
    one after the other. *)
Definition unlink_all (R : list ref) (d : ID) : ID :=
  foldl (λ d r, unlink_from r d) d R.

(** A datablock is exempt from the cleanup when it was loaded on purpose:
    it is listed in [data_to] under its collection. *)
Definition exempt (data_to : gmap string (list positive)) (k : ref) : Prop :=
  k.2 ∈ data_to !!! k.1.

#[export] Instance exempt_dec data_to k : Decision (exempt data_to k).
Proof. unfold exempt. apply _. Defined.

(** What a whole run of the cleanup does: [R] lists the datablocks it
    removed, in the order of their removal. *)
Definition purge_result (before : gset ref)
    (data_to : gmap string (list positive)) (s s' : state) (R : list ref)
  : Prop :=
  NoDup R ∧
  (∀ r, r ∈ R → is_Some (data s !! r) ∧ (r ∉ before) ∧ ¬ exempt data_to r) ∧
  (∀ k d r, data s !! k = Some d → k ∉ R → r ∈ R → r ∉ uses d) ∧
  (∀ k, data s' !! k =
        if decide (k ∈ R) then None else unlink_all R <$> data s !! k) ∧
  (∀ i, i ∈ collection_objects s' ↔
        i ∈ collection_objects s ∧ ("objects", i) ∉ R) ∧
  scene_frame_end s' = scene_frame_end s ∧
  dead s' = list_to_set R ∪ dead s ∧
  (∀ k, k ∈ collect_all_orphan_datablocks s → k ∉ before →
        ¬ exempt data_to k → k ∈ R) ∧
  (∀ k, k ∈ collect_all_orphan_datablocks s' →
        k ∈ before ∨ exempt data_to k) ∧
  (∀ i, ("objects", i) ∈ R → i ∉ collection_objects s) ∧
  for_in R remove s = Ok s'.


(** The elements of a configured value *)
Definition config_list (c : config) : list string :=
  match c with Lst l => l | Str s => [s] end.

#[export] Instance exn_eq_dec : EqDecision exn.
Proof. solve_decision. Defined.

#[export] Instance result_eq_dec {A : Type} `{EqDecision A} :
  EqDecision (result A).
Proof. solve_decision. Defined.

(** The name pattern lets an entity name through: there is no pattern (or
    an empty one), or [re.fullmatch] finds a match. *)
Definition name_selected `{Host} (name_regrex : option string)
    (entity_name : string) : Prop :=
  match name_regrex with
  | None => True
  | Some pattern =>
      pattern = "" ∨ re_fullmatch pattern entity_name = Ok true
  end.

#[export] Instance name_selected_dec `{Host} name_regrex entity_name :
  Decision (name_selected name_regrex entity_name).
Proof. unfold name_selected. destruct name_regrex; apply _. Defined.

(** The frame numbers of all key frames of all f-curves of an object *)
Definition keyframe_numbers (obj : ID) : list Z :=
  match animation_data obj with
  | Some {| action := Some act |} =>
      (λ keyframe, (co keyframe).1) <$> concat (keyframe_points <$> fcurves act)
  | _ => []
  end.

(** The type of an object is one of the configured [obj_types]. *)
Definition wanted (obj_types : list string) (o : ID) : Prop :=
  Py.lower (type_str (type o)) ∈ obj_types.

#[export] Instance wanted_dec ots o : Decision (wanted ots o).
Proof. unfold wanted. apply _. Defined.


(** What holds of the scene data, [loaded_objects] and
    [potential_parent_names] all along the loop of lines 92-131, [s1] being
    the scene data right after the import: datablocks keep their type and
    name, what is loaded was imported on purpose, and a loaded object is
    linked and of a configured type. *)
Definition loop_inv (ots : list string) (data_to : gmap string (list positive))
    (s1 : state) (st : loop_state) : Prop :=
  (∀ k d, data st.1.1 !! k = Some d →
          ∃ d1, data s1 !! k = Some d1 ∧ type d = type d1
                ∧ name d = name d1) ∧
  (∀ r, r ∈ st.1.2 → r.2 ∈ (data_to !!! r.1)) ∧
  (∀ obj, ("objects", obj) ∈ st.1.2 →
          obj ∈ collection_objects st.1.1 ∧
          ∃ d, data st.1.1 !! ("objects", obj) = Some d ∧ wanted ots d).

(** An imported object has been dealt with: linked and loaded if its type is
    configured, removed for good otherwise. *)
Definition object_settled (ots : list string) (s1 : state) (obj : positive)
    (st : loop_state) : Prop :=
  ∃ o, data s1 !! ("objects", obj) = Some o ∧
    (wanted ots o →
     obj ∈ collection_objects st.1.1 ∧ ("objects", obj) ∈ st.1.2) ∧
    (¬ wanted ots o →
     ("objects", obj) ∈ dead st.1.1 ∧
     data st.1.1 !! ("objects", obj) = None ∧
     ("objects", obj) ∉ st.1.2).


(** A requested data block has been dealt with. *)
Definition block_settled (ots : list string)
    (data_to : gmap string (list positive)) (s1 : state) (b : string)
    (st : loop_state) : Prop :=
  if decide (b = "objects")
  then ∀ obj, obj ∈ data_to !!! "objects" → object_settled ots s1 obj st
  else ∀ e, e ∈ data_to !!! b → (b, e) ∈ st.1.2.


(** What the loop of lines 153-159 does to a datablock with key [k] *)
Definition reparented (parent_obj : positive) (loaded : list ref)
    (k : ref) (d : ID) : ID :=
  if decide (k ∈ loaded ∧ parent d = None) then with_parent parent_obj d
  else d.


(** An imported object passes the type filter of line 97: its type, as the
    import left it in the scene data [s1], is one of the configured types. *)
Definition passes_type_filter (obj_types : list string) (s1 : state)
    (obj : positive) : Prop :=
  match data s1 !! ("objects", obj) with
  | Some o => wanted obj_types o
  | None => False
  end.

#[export] Instance passes_type_filter_dec ots s1 obj :
  Decision (passes_type_filter ots s1 obj).
Proof. unfold passes_type_filter. destruct (data s1 !! _); apply _. Defined.

(** What the loop of lines 92-131 appends to [loaded_objects] for one
    requested data block: the imported objects that pass the type filter,
    or all the imported entities of another data block, in the order of
    [data_to]. *)
Definition block_entities (obj_types : list string)
    (data_to : gmap string (list positive)) (s1 : state) (data_block : string)
  : list ref :=
  if decide (data_block = "objects")
  then pair data_block <$>
         filter (passes_type_filter obj_types s1) (data_to !!! data_block)
  else pair data_block <$> data_to !!! data_block.

(** An imported object is a camera that passes the type filter of line 97
    (lines 103-117 are for these). *)
Definition kept_camera (obj_types : list string) (s1 : state)
    (obj : positive) : Prop :=
  match data s1 !! ("objects", obj) with
  | Some o => wanted obj_types o ∧ type o = CAMERA
  | None => False
  end.

#[export] Instance kept_camera_dec ots s1 obj :
  Decision (kept_camera ots s1 obj).
Proof. unfold kept_camera. destruct (data s1 !! _); apply _. Defined.

(** [loop_inv], and the animation data of a datablock stay what the import
    made them. *)
Definition loop_inv_anim (ots : list string)
    (data_to : gmap string (list positive)) (s1 : state) (st : loop_state)
  : Prop :=
  loop_inv ots data_to s1 st ∧
  ∀ k d, data st.1.1 !! k = Some d →
         ∃ d1, data s1 !! k = Some d1 ∧ animation_data d = animation_data d1.


(** ** A small host, to run the loader on concrete scenes

    The archive [scene.blend] holds six objects and the data they use; the
    import brings in the selected entities and, indirectly, everything they
    depend on.  Patterns without metacharacters match by equality. *)

Module Demo.

Definition datablock (n : string) (t : object_type) (p : option positive)
    (a : option AnimData) (u : list ref) : ID :=
  {| name := n; type := t; parent := p; animation_data := a; uses := u;
     other_users := 0 |}.

Definition key (frame : Z) : Keyframe := {| co := (frame, 0%Z) |}.

Definition animation (curves : list (list Z)) : option AnimData :=
  Some {| action := Some {| fcurves :=
            (λ frames, {| keyframe_points := key <$> frames |}) <$> curves |} |}.

Definition archive : list (ref * ID) :=
  [ (("objects", 10%positive),
     datablock "Cube" MESH None None [("meshes", 20%positive)]);
    (("objects", 11%positive),
     datablock "Lamp" LIGHT None None [("lights", 30%positive)]);
    (("objects", 12%positive),
     datablock "Shot" CAMERA None (animation [[1; 250]; [100]]%Z) []);
    (("objects", 13%positive),
     datablock "Path" CURVE None None []);
    (("objects", 14%positive),
     datablock "Cube.001" MESH (Some 13%positive) None
               [("meshes", 20%positive)]);
    (("objects", 15%positive),
     datablock "Early" CAMERA None (animation [[-5]]%Z) []);
    (("meshes", 20%positive),
     datablock "CubeMesh" EMPTY None None [("materials", 40%positive)]);
    (("lights", 30%positive),
     datablock "LampData" EMPTY None None [("images", 50%positive)]);
    (("materials", 40%positive), datablock "Mat" EMPTY None None []);
    (("images", 50%positive), datablock "Cookie" EMPTY None None []) ].

(** [data_from]: the names under each data block of the archive *)
Definition listing (a : list (ref * ID)) : gmap string (list string) :=
  foldr (λ kd m, <[kd.1.1 := name kd.2 :: m !!! kd.1.1]> m) ∅ a.

Definition selected (selection : gmap string (list string))
    (kd : ref * ID) : bool :=
  bool_decide (name kd.2 ∈ selection !!! kd.1.1).

Definition used_by (l : list (ref * ID)) (kd : ref * ID) : bool :=
  bool_decide (Exists (λ kd' : ref * ID, kd.1 ∈ uses kd'.2) l).

(** one more level of dependencies *)
Definition grow (a l : list (ref * ID)) : list (ref * ID) :=
  List.filter (λ kd, bool_decide (kd.1 ∈ l.*1) || used_by l kd) a.

Definition import (a : list (ref * ID)) (path : string)
    (selection : gmap string (list string)) (s : state)
  : result (state * gmap string (list positive)) :=
  let direct := List.filter (selected selection) a in
  let all := grow a (grow a (grow a direct)) in
  Ok ({| data := list_to_map all ∪ data s;
         collection_objects := collection_objects s;
         scene_camera := scene_camera s;
         scene_frame_end := scene_frame_end s;
         dead := dead s |},
      foldr (λ kd m, <[kd.1.1 := kd.1.2 :: m !!! kd.1.1]> m) ∅ direct).

Definition host : Host :=
  {| valid_datablocks :=
       ["objects"; "meshes"; "materials"; "lights"; "images"; "cameras";
        "libraries"];
     resolve_path := λ p, p;
     re_fullmatch := λ pattern s, Ok (String.eqb pattern s);
     libraries_open := λ p, Ok (listing archive);
     libraries_load := import archive;
     unique_name := λ s n, n +:+ ".001" |}.

(** The scene before loading: one mesh nobody uses. *)
Definition scene : state :=
  {| data := {[ ("meshes", 1%positive) :=
                  datablock "Old" EMPTY None None [] ]};
     collection_objects := ∅;
     scene_camera := None;
     scene_frame_end := 250;
     dead := ∅ |}.

(** The scene once the whole archive has been imported *)
Definition imported : state :=
  {| data := list_to_map archive ∪ data scene;
     collection_objects := ∅;
     scene_camera := None;
     scene_frame_end := 250;
     dead := ∅ |}.

(** The value of an outcome, [dflt] for an exception *)
Definition value {A : Type} (dflt : A) (r : result A) : A :=
  match r with Ok a => a | _ => dflt end.

(** The list and the scene data that a call of [load] returned *)
Definition returned (r : result (list ref * state)) : list ref :=
  (value ([], scene) r).1.

Definition final (r : result (list ref * state)) : state :=
  (value ([], scene) r).2.

(** The import of every object of the archive, and the loop of lines
    92-131 over what it imported when only meshes are wanted and merged *)
Definition import_objects : state * gmap string (list positive) :=
  value (scene, ∅)
        (@import_entities host "scene.blend" None ["objects"] scene).

Definition meshes_loaded : loop_state :=
  value (scene, [], [])
        (for_in ["objects"]
                (load_block ["mesh"] true "merged" import_objects.2)
                (import_objects.1, [], [])).

End Demo.

(** * Proofs *)

#[local] Set Warnings "-clear-no-such-hyp".

(** ** The Python string operations on examples *)

Example lower_mixed : Py.lower "Light_Probe" = "light_probe".
Proof. reflexivity. Qed.

Example split_path : Py.split "/" "/data/scenes/room.blend"
                     = [""; "data"; "scenes"; "room.blend"].
Proof. reflexivity. Qed.

Example split_no_separator : Py.split "/" "room.blend" = ["room.blend"].
Proof. reflexivity. Qed.

Example drop_last_short : Py.drop_last 6 "ab" = "".
Proof. reflexivity. Qed.

Example take_last_suffix : Py.take_last 3 "Cube.001" = "001".
Proof. reflexivity. Qed.

Example index_from_end_dot : Py.index_from_end "Cube.001" 4 = Ok "."%char.
Proof. reflexivity. Qed.

Example index_from_end_short : Py.index_from_end "Cup" 4 = Raise IndexError.
Proof. reflexivity. Qed.

Example isdigit_empty : Py.isdigit "" = false.
Proof. reflexivity. Qed.

(** ** The error monad and the loops *)

Lemma bind_Ok {A B} (m : result A) (f : A → result B) (b : B) :
  m ≫= f = Ok b → ∃ a, m = Ok a ∧ f a = Ok b.
Proof. destruct m as [a| |]; simpl; [eauto | done | done]. Qed.

Lemma bind_Raise {A B} (m : result A) (f : A → result B) (e : exn) :
  m = Raise e → m ≫= f = Raise e.
Proof. by intros ->. Qed.

Tactic Notation "inv_bind" hyp(H) "as" simple_intropattern(pat) :=
  apply bind_Ok in H as pat.

Lemma for_in_inv {A S : Type} (I : S → Prop) (body : A → S → result S)
    (l : list A) (s s' : S) :
  (∀ x s s', x ∈ l → I s → body x s = Ok s' → I s') →
  I s → for_in l body s = Ok s' → I s'.
Proof.
  revert s. induction l as [|x l IH]; intros s Hstep HI; cbn [for_in].
  - by intros [= <-].
  - intros Hfor. inv_bind Hfor as (s1 & Hx & Hfor).
    eapply IH; [|eapply Hstep; [left|done..]|done].
    intros y t t' Hy. apply Hstep. by right.
Qed.

Lemma for_in_each {A S : Type} (I : S → Prop) (E : A → S → Prop)
    (body : A → S → result S) (l : list A) (s s' : S) :
  (∀ x s s', x ∈ l → I s → body x s = Ok s' →
             I s' ∧ E x s' ∧ ∀ y, E y s → E y s') →
  I s → for_in l body s = Ok s' →
  I s' ∧ (∀ x, x ∈ l → E x s') ∧ (∀ y, E y s → E y s').
Proof.
  revert s. induction l as [|x l IH]; intros s Hstep HI; cbn [for_in].
  - intros [= <-]. split; [done|]. split; [|done].
    intros x Hx. by apply not_elem_of_nil in Hx.
  - intros Hfor. inv_bind Hfor as (s1 & Hx & Hfor).
    destruct (Hstep x s s1) as (HI1 & HE1 & Hst1); [left|done..|].
    destruct (IH s1) as (HI' & HE' & Hst'); [|done..|].
    { intros y t t' Hy. apply Hstep. by right. }
    split; [done|]. split.
    + intros y [->|Hy]%elem_of_cons; [by apply Hst'|by apply HE'].
    + intros y Hy. by apply Hst', Hst1.
Qed.

Lemma for_in_app {A S : Type} (body : A → S → result S) (l1 l2 : list A)
    (s s1 s2 : S) :
  for_in l1 body s = Ok s1 → for_in l2 body s1 = Ok s2 →
  for_in (l1 ++ l2) body s = Ok s2.
Proof.
  revert s. induction l1 as [|x l1 IH]; intros s; cbn [for_in app].
  - by intros [= ->].
  - intros H1 H2. inv_bind H1 as (s' & Hx & H1). rewrite Hx.
    cbn [mbind result_bind]. by apply IH.
Qed.

(** ** The orphan cleanup *)

Lemma remove_Ok k s d :
  data s !! k = Some d →
  ∃ s', remove k s = Ok s' ∧
    data s' = unlink_from k <$> delete k (data s) ∧
    collection_objects s' =
      (if decide (k.1 = "objects") then collection_objects s ∖ {[k.2]}
       else collection_objects s) ∧
    scene_frame_end s' = scene_frame_end s ∧
    dead s' = {[k]} ∪ dead s.
Proof. intros Hk. unfold remove. rewrite Hk. eauto 10. Qed.

Lemma remove_inv k s s' :
  remove k s = Ok s' →
  is_Some (data s !! k) ∧
  data s' = unlink_from k <$> delete k (data s) ∧
  collection_objects s' =
    (if decide (k.1 = "objects") then collection_objects s ∖ {[k.2]}
     else collection_objects s) ∧
  scene_frame_end s' = scene_frame_end s ∧
  dead s' = {[k]} ∪ dead s.
Proof.
  unfold remove. destruct (data s !! k) eqn:Hk; [|done].
  intros [= <-]. simpl. eauto 10.
Qed.

Lemma remove_all_spec (R : list ref) (s : state) :
  NoDup R → (∀ k, k ∈ R → is_Some (data s !! k)) →
  ∃ s', for_in R remove s = Ok s' ∧
    (∀ k, data s' !! k =
          if decide (k ∈ R) then None else unlink_all R <$> data s !! k) ∧
    (∀ i, i ∈ collection_objects s' ↔
          i ∈ collection_objects s ∧ ("objects", i) ∉ R) ∧
    scene_frame_end s' = scene_frame_end s ∧
    dead s' = list_to_set R ∪ dead s.
Proof.
  revert s. induction R as [|r R IH]; intros s Hnd Hin.
  - exists s. split; [done|]. split.
    { intros k. case_decide; [set_solver|]. by destruct (data s !! k). }
    split; [set_solver|]. split; [done|set_solver].
  - apply NoDup_cons in Hnd as [Hr Hnd].
    destruct (Hin r) as [d Hd]; [set_solver|].
    destruct (remove_Ok r s d Hd) as (s1 & Hrem & Hdata & Hcoll & Hfe & Hdead).
    destruct (IH s1 Hnd) as (s' & Hfor & Hdata' & Hcoll' & Hfe' & Hdead').
    { intros k Hk. rewrite Hdata, lookup_fmap, lookup_delete_ne by set_solver.
      destruct (Hin k) as [dk ->]; [set_solver|]. by eexists. }
    exists s'. split; [simpl; by rewrite Hrem|].
    split; [|split; [|split]].
    + intros k. rewrite Hdata'. destruct (decide (k ∈ R)) as [HkR|HkR].
      { rewrite decide_True by set_solver. done. }
      rewrite Hdata, lookup_fmap. destruct (decide (k = r)) as [->|Hne].
      { rewrite decide_True by set_solver. by rewrite lookup_delete_eq. }
      rewrite decide_False by set_solver. rewrite lookup_delete_ne by done.
      by destruct (data s !! k).
    + intros i. rewrite Hcoll', Hcoll, not_elem_of_cons.
      clear Hcoll. destruct r as [c o]; simpl.
      destruct (decide (c = "objects")) as [->|Hc].
      * rewrite elem_of_difference, elem_of_singleton.
        split; [intros ((? & ?) & ?)|intros (? & ? & ?)];
          repeat split; try done; congruence.
      * split; [intros (? & ?)|intros (? & ? & ?)];
          repeat split; try done; congruence.
    + congruence.
    + rewrite Hdead', Hdead. set_solver.
Qed.

Lemma orphan_unused s k :
  k ∈ collect_all_orphan_datablocks s →
  is_Some (data s !! k) ∧
  (∀ k' d', data s !! k' = Some d' → k ∉ uses d') ∧
  (k.1 = "objects" → k.2 ∉ collection_objects s).
Proof.
  unfold collect_all_orphan_datablocks.
  intros [d [Hd Hu]%map_lookup_filter_Some]%elem_of_dom. simpl in Hu.
  unfold users in Hu. split; [by eexists|]. split.
  2:{ intros Hc Hl. rewrite decide_True in Hu by done. lia. }
  intros k' d' Hk' Hin.
  assert (size (filter (λ kd : ref * ID, k ∈ uses kd.2) (data s)) = 0) as Hz by lia.
  apply map_size_empty_iff in Hz.
  assert (filter (λ kd : ref * ID, k ∈ uses kd.2) (data s) !! k' = Some d') as Hf.
  { apply map_lookup_filter_Some. done. }
  rewrite Hz in Hf. by rewrite lookup_empty in Hf.
Qed.

Lemma filter_all_id {A} (P : A → Prop) `{∀ x, Decision (P x)} (l : list A) :
  (∀ x, x ∈ l → P x) → filter P l = l.
Proof.
  induction l as [|x l IH]; intros Hall; [done|].
  rewrite filter_cons_True by (apply Hall; left).
  f_equal. apply IH. intros y Hy. apply Hall. by right.
Qed.

Lemma unlink_all_cons r R d :
  unlink_all (r :: R) d = unlink_all R (unlink_from r d).
Proof. done. Qed.

Lemma unlink_all_fields R d :
  name (unlink_all R d) = name d ∧
  type (unlink_all R d) = type d ∧
  animation_data (unlink_all R d) = animation_data d ∧
  other_users (unlink_all R d) = other_users d ∧
  uses (unlink_all R d) = filter (λ r, r ∉ R) (uses d) ∧
  parent (unlink_all R d) =
    match parent d with
    | Some p => if decide (("objects", p) ∈ R) then None else Some p
    | None => None
    end.
Proof.
  revert d. induction R as [|r R IH]; intros d.
  - unfold unlink_all. cbn [foldl]. repeat split.
    + symmetry. apply filter_all_id. intros x _. apply not_elem_of_nil.
    + destruct (parent d) as [p|]; [|done].
      rewrite decide_False by apply not_elem_of_nil. done.
  - rewrite unlink_all_cons.
    destruct (IH (unlink_from r d)) as (-> & -> & -> & -> & -> & ->).
    cbn [unlink_from name type animation_data other_users uses parent].
    repeat split.
    + rewrite list_filter_filter. apply list_filter_iff. intros x.
      rewrite not_elem_of_cons. tauto.
    + destruct (parent d) as [p|]; [|done].
      destruct (decide (r = ("objects", p))) as [->|Hne].
      * rewrite decide_True by left. done.
      * destruct (decide (("objects", p) ∈ R)) as [Hp|Hp].
        -- rewrite decide_True by (by right). done.
        -- rewrite decide_False; [done|].
           rewrite not_elem_of_cons. split; [by intros E; apply Hne|done].
Qed.

Lemma purge_for_in data_to l s flag :
  for_in l (purge_orphan data_to) (s, flag) =
  s' ← for_in (filter (λ k, ¬ exempt data_to k) l) remove s;
  Ok (s', flag || bool_decide (filter (λ k, ¬ exempt data_to k) l ≠ [])).
Proof.
  revert s flag. induction l as [|[c o] l IH]; intros s flag.
  - simpl. by rewrite orb_false_r.
  - simpl. unfold purge_orphan at 1.
    destruct (decide (o ∉ data_to !!! c)) as [Hne|He].
    + rewrite filter_cons_True by done. simpl.
      destruct (remove (c, o) s) as [s1| |]; simpl; [|done|done].
      rewrite IH. destruct (for_in _ remove s1); simpl; [|done|done].
      by rewrite orb_true_r.
    + rewrite filter_cons_False by (unfold exempt; simpl; tauto).
      simpl. apply IH.
Qed.

Lemma purge_pass_spec before data_to s :
  ∃ s' R,
    purge_pass before data_to s = Ok (s', bool_decide (R ≠ [])) ∧
    NoDup R ∧
    (∀ k, k ∈ R ↔ k ∈ collect_all_orphan_datablocks s ∧ (k ∉ before)
                   ∧ ¬ exempt data_to k) ∧
    (∀ k, data s' !! k =
          if decide (k ∈ R) then None else unlink_all R <$> data s !! k) ∧
    (∀ i, i ∈ collection_objects s' ↔
          i ∈ collection_objects s ∧ ("objects", i) ∉ R) ∧
    scene_frame_end s' = scene_frame_end s ∧
    dead s' = list_to_set R ∪ dead s ∧
    for_in R remove s = Ok s'.
Proof.
  unfold purge_pass.
  set (l := elements (collect_all_orphan_datablocks s ∖ before)).
  set (R := filter (λ k, ¬ exempt data_to k) l).
  assert (NoDup R) as Hnd by (apply NoDup_filter, NoDup_elements).
  assert (∀ k, k ∈ R ↔ k ∈ collect_all_orphan_datablocks s ∧ (k ∉ before)
                        ∧ ¬ exempt data_to k) as HR.
  { intros k. unfold R, l. rewrite list_elem_of_filter, elem_of_elements.
    set_solver. }
  destruct (remove_all_spec R s Hnd) as (s' & Hfor & Hrest).
  { intros k [Hk _]%HR. by apply orphan_unused in Hk as [? _]. }
  exists s', R. rewrite purge_for_in. fold l. fold R. rewrite Hfor. simpl.
  split; [done|]. split; [done|]. split; [done|].
  destruct Hrest as (? & ? & ? & ?). repeat (split; [done|]). done.
Qed.

Lemma unlink_all_app R1 R2 d :
  unlink_all (R1 ++ R2) d = unlink_all R2 (unlink_all R1 d).
Proof. unfold unlink_all. by rewrite foldl_app. Qed.

Lemma removed_size (s s1 : state) (R : list ref) :
  R ≠ [] →
  (∀ r, r ∈ R → is_Some (data s !! r)) →
  (∀ k, data s1 !! k =
        if decide (k ∈ R) then None else unlink_all R <$> data s !! k) →
  size (data s1) < size (data s).
Proof.
  intros HR Hin Hdata. rewrite <-!size_dom. apply subset_size.
  destruct R as [|r R]; [done|]. split.
  - intros k [d Hk]%elem_of_dom. rewrite Hdata in Hk.
    case_decide; [done|]. apply elem_of_dom.
    destruct (data s !! k); [by eexists|done].
  - intros Hsub. assert (r ∈ dom (data s1)) as [d Hk]%elem_of_dom.
    { apply Hsub, elem_of_dom, Hin. set_solver. }
    rewrite Hdata, decide_True in Hk by set_solver. done.
Qed.

Lemma purge_loop_spec before data_to fuel s :
  size (data s) < fuel →
  ∃ s' R, purge_loop fuel before data_to s = Ok s' ∧
          purge_result before data_to s s' R.
Proof.
  revert s. induction fuel as [|fuel IH]; intros s Hfuel; [lia|].
  destruct (purge_pass_spec before data_to s)
    as (s1 & R1 & Hpass & Hnd1 & HR1 & Hdata1 & Hcoll1 & Hfe1 & Hdead1 & Hfor1).
  simpl. rewrite Hpass. simpl. destruct R1 as [|r1 R1'].
  - rewrite bool_decide_eq_false_2 by naive_solver.
    injection Hfor1 as <-. exists s, []. split; [done|].
    split; [constructor|]. split; [set_solver|]. split; [set_solver|].
    split. { intros k. case_decide; [set_solver|]. by destruct (data s !! k). }
    split; [set_solver|]. split; [done|]. split; [set_solver|].
    split. { intros k ? ? ?. apply HR1. done. }
    split. 2:{ split; [|done]. intros i Hi. by apply not_elem_of_nil in Hi. }
    intros k Hk. destruct (decide (k ∈ before)); [by left|].
    destruct (decide (exempt data_to k)); [by right|].
    exfalso. eapply not_elem_of_nil, HR1. eauto.
  - set (R1 := r1 :: R1') in *.
    rewrite bool_decide_eq_true_2 by done.
    assert (∀ r, r ∈ R1 → is_Some (data s !! r)) as Hin1.
    { intros r [Hr _]%HR1. by apply orphan_unused in Hr as [? _]. }
    destruct (IH s1) as (s' & R2 & Hloop & Hnd2 & HR2 & Hun2 & Hdata2
                         & Hcoll2 & Hfe2 & Hdead2 & Hall2 & Hfin2 & Hul2
                         & Hfor2).
    { pose proof (removed_size s s1 R1 ltac:(done) Hin1 Hdata1). lia. }
    assert (∀ r, r ∈ R2 → r ∉ R1) as Hdisj.
    { intros r [[d Hd] _]%HR2 Hr1. rewrite Hdata1, decide_True in Hd by done.
      done. }
    exists s', (R1 ++ R2). split; [done|].
    split. { apply NoDup_app. split; [done|]. split; [|done].
             intros x Hx1 Hx2. by apply (Hdisj x). }
    split. { intros r [Hr|Hr]%elem_of_app.
             - split; [by apply Hin1|]. apply HR1 in Hr. tauto.
             - destruct (HR2 r Hr) as ([d Hd] & ? & ?). split; [|done].
               rewrite Hdata1 in Hd. case_decide; [done|].
               destruct (data s !! r); [by eexists|done]. }
    split. { intros k d r Hk HkR [Hr|Hr]%elem_of_app.
             - apply HR1 in Hr as [Hr _].
               apply orphan_unused in Hr as (_ & Hr & _). by eapply Hr.
             - intros Huse. eapply (Hun2 k (unlink_all R1 d) r); [| |done|].
               + rewrite Hdata1, decide_False by set_solver. by rewrite Hk.
               + set_solver.
               + destruct (unlink_all_fields R1 d) as (_ & _ & _ & _ & -> & _).
                 apply list_elem_of_filter. split; [|done]. by apply Hdisj. }
    split. { intros k. rewrite Hdata2, Hdata1.
             destruct (decide (k ∈ R2)) as [Hk2|Hk2].
             { rewrite decide_True by set_solver. done. }
             destruct (decide (k ∈ R1)) as [Hk1|Hk1].
             { rewrite decide_True by set_solver. done. }
             rewrite decide_False by set_solver.
             destruct (data s !! k); [|done]. simpl.
             by rewrite unlink_all_app. }
    split. { intros i. rewrite Hcoll2, Hcoll1. set_solver. }
    split; [congruence|].
    split. { rewrite Hdead2, Hdead1, list_to_set_app_L. set_solver. }
    split. { intros k Hk Hb He. apply elem_of_app. left. by apply HR1. }
    split; [done|].
    split; [|by eapply for_in_app].
    intros i [Hi|Hi]%elem_of_app.
    + apply HR1 in Hi as [Hi _]. apply orphan_unused in Hi as (_ & _ & Hi).
      by apply Hi.
    + intros Hl. apply (Hul2 i Hi). apply Hcoll1. split; [done|].
      by apply Hdisj.
Qed.

Lemma purge_result_collection before data_to s s' R :
  purge_result before data_to s s' R →
  collection_objects s' = collection_objects s.
Proof.
  intros (_ & _ & _ & _ & Hcoll & _ & _ & _ & _ & Hul & _).
  apply set_eq. intros i. rewrite Hcoll. split; [by intros [? _]|].
  intros Hi. split; [done|]. intros HR. by apply (Hul i HR).
Qed.

Lemma purge_loop_more_fuel before data_to fuel s s' :
  purge_loop fuel before data_to s = Ok s' →
  purge_loop (S fuel) before data_to s = Ok s'.
Proof.
  revert s. induction fuel as [|fuel IH]; intros s; [done|].
  intros Hl. cbn [purge_loop] in Hl.
  inv_bind Hl as ([s1 flag] & Hpass & Hl).
  change (purge_loop (S (S fuel)) before data_to s)
    with ('(s, purge_orphans) ← purge_pass before data_to s;
          if (purge_orphans : bool)
          then purge_loop (S fuel) before data_to s else Ok s).
  rewrite Hpass. cbn [mbind result_bind]. destruct flag; [by apply IH|done].
Qed.

Lemma purge_loop_enough_fuel before data_to fuel s s' :
  _purge_added_orphans before data_to s = Ok s' →
  size (data s) < fuel →
  purge_loop fuel before data_to s = Ok s'.
Proof.
  unfold _purge_added_orphans. intros Hp Hlt.
  assert (∃ n, fuel = n + S (size (data s))) as [n ->]
    by (exists (fuel - S (size (data s))); lia).
  clear Hlt. induction n as [|n IH]; [done|].
  by apply purge_loop_more_fuel.
Qed.

(** C6.  The orphan cleanup terminates for every input.  Every turn of the
    [while] loop returns without an exception, and a turn that asks for
    another one ([purge_orphans] is true) has removed at least one datablock:
    the scene data holds fewer datablocks than before.  Hence
    [_purge_added_orphans] returns a scene, and it is the scene that the loop
    returns under any bound greater than the number of datablocks. *)
Theorem purge_added_orphans_terminates
    (orphans_before : gset ref) (data_to : gmap string (list positive))
    (s : state) :
  (∃ s1 purge_orphans,
      purge_pass orphans_before data_to s = Ok (s1, purge_orphans) ∧
      (purge_orphans = true → size (data s1) < size (data s))) ∧
  (∃ s', _purge_added_orphans orphans_before data_to s = Ok s' ∧
         ∀ fuel, size (data s) < fuel →
                 purge_loop fuel orphans_before data_to s = Ok s').
Proof.
  split.
  - destruct (purge_pass_spec orphans_before data_to s)
      as (s1 & R & Hpass & _ & HR & Hdata & _).
    exists s1, (bool_decide (R ≠ [])). split; [done|].
    intros HR0%bool_decide_eq_true. apply (removed_size s s1 R); [done| |done].
    intros r [Hr _]%HR. by apply orphan_unused in Hr as [? _].
  - destruct (purge_loop_spec orphans_before data_to (S (size (data s))) s)
      as (s' & R & Hloop & _); [lia|].
    exists s'. split; [done|]. intros fuel Hfuel.
    by apply purge_loop_enough_fuel.
Qed.

(** C4 (amended).  The orphan cleanup only removes side effects of the
    import.  What [_purge_added_orphans] does to the scene data amounts to
    removing the datablocks of a list [R] one after the other, and no
    datablock of [R] was an orphan beforehand or is listed in [data_to].
    Accordingly, a datablock that was an orphan beforehand, or that is
    listed in [data_to], is still in the scene data afterwards, with its
    name, type, animation data, the datablocks it uses and its outside users
    as they were; and it is left unchanged altogether unless the cleanup
    removed its parent. *)
Theorem purge_added_orphans_frame
    (orphans_before : gset ref) (data_to : gmap string (list positive))
    (s : state) :
  ∃ s' R,
    _purge_added_orphans orphans_before data_to s = Ok s' ∧
    for_in R remove s = Ok s' ∧
    (∀ k, k ∈ R → (k ∉ orphans_before) ∧ k.2 ∉ (data_to !!! k.1)) ∧
    (∀ k, is_Some (data s !! k) → data s' !! k = None → k ∈ R) ∧
    (∀ k d, data s !! k = Some d →
            k ∈ orphans_before ∨ k.2 ∈ (data_to !!! k.1) →
            ∃ d', data s' !! k = Some d' ∧
                  name d' = name d ∧ type d' = type d ∧
                  animation_data d' = animation_data d ∧
                  uses d' = uses d ∧ other_users d' = other_users d ∧
                  ((∀ p, parent d = Some p → ("objects", p) ∉ R) →
                   d' = d)).
Proof.
  destruct (purge_loop_spec orphans_before data_to (S (size (data s))) s)
    as (s' & R & Hloop & Hnd & HR & Hun & Hdata & _ & _ & _ & _ & _ & _
        & Hfor); [lia|].
  exists s', R. split; [done|]. split; [done|]. split; [|split].
  - intros k HkR. apply HR in HkR as (_ & ? & ?). done.
  - intros k [d Hd] Hnone. rewrite Hdata, Hd in Hnone.
    by case_decide.
  - intros k d Hd Hk. assert (k ∉ R) as HkR.
    { intros HkR. apply HR in HkR as (_ & Hb & He). unfold exempt in He. tauto. }
    exists (unlink_all R d). rewrite Hdata, decide_False, Hd by done.
    split; [done|].
    destruct (unlink_all_fields R d) as (Hn & Ht & Ha & Ho & Hu & Hp).
    assert (uses (unlink_all R d) = uses d) as Huses.
    { rewrite Hu. apply filter_all_id. intros r Hr HrR. by eapply Hun. }
    repeat (split; [done|]).
    intros Hparent.
    assert (parent (unlink_all R d) = parent d) as Hpar.
    { rewrite Hp. destruct (parent d) as [p|]; [|done].
      rewrite decide_False; [done|]. by apply Hparent. }
    revert Hn Ht Ha Ho Huses Hpar. generalize (unlink_all R d).
    intros d'. destruct d', d. cbn. by intros -> -> -> -> -> ->.
Qed.

(** C4 as stated fails for an object whose parent came along as a
    dependency of the import: the object ["Child"] is listed in [data_to],
    its parent is not and nothing else uses it, so the cleanup removes the
    parent, and the object is left without one. *)
Lemma imported_object_loses_its_parent :
  let s := {| data := {[ ("objects", 1%positive) :=
                           Demo.datablock "Child" MESH (Some 2%positive)
                                          None [];
                         ("objects", 2%positive) :=
                           Demo.datablock "Parent" EMPTY None None [] ]};
              collection_objects := {[ 1%positive ]};
              scene_camera := None; scene_frame_end := 250; dead := ∅ |} in
  let data_to : gmap string (list positive) :=
    {[ "objects" := [1%positive] ]} in
  let r := _purge_added_orphans ∅ data_to s in
  1%positive ∈ data_to !!! "objects" ∧
  r = Ok (Demo.value s r) ∧
  (parent <$> data s !! ("objects", 1%positive)) = Some (Some 2%positive) ∧
  (parent <$> data (Demo.value s r) !! ("objects", 1%positive)) = Some None ∧
  data (Demo.value s r) !! ("objects", 1%positive)
  ≠ data s !! ("objects", 1%positive).
Proof.
  intros s data_to r.
  split; [apply (bool_decide_unpack _); vm_compute; reflexivity|].
  split; [vm_compute; reflexivity|].
  split; [vm_compute; reflexivity|].
  split; [vm_compute; reflexivity|].
  intros Heq. apply (f_equal (fmap parent)) in Heq.
  vm_compute in Heq. discriminate Heq.
Qed.

(** ** Validation of the configuration *)

Lemma validate_check (allowed : list string) (element_name : string)
    (l : list string) :
  match for_in l (λ element (_ : unit),
                    if decide (element ∉ allowed)
                    then Raise (no_such element_name element)
                    else Ok ()) () with
  | Ok _ => ∀ element, element ∈ l → element ∈ allowed
  | Raise e => ∃ element, element ∈ l ∧ (element ∉ allowed)
                          ∧ e = no_such element_name element
  | OutOfFuel => False
  end.
Proof.
  induction l as [|x l IH]; cbn [for_in].
  - intros element Hin. by apply not_elem_of_nil in Hin.
  - destruct (decide (x ∉ allowed)) as [Hx|Hx]; cbn [mbind result_bind].
    + exists x. split; [left|done].
    + destruct (for_in l _ ()) as [[]|e|].
      * intros element [Heq|Hin]%elem_of_cons; [subst element|by apply IH].
        by destruct (decide (x ∈ allowed)).
      * destruct IH as (element & ? & ? & ?). exists element.
        split; [by right|done].
      * done.
Qed.

Lemma validate_spec (config_value : config) (allowed : list string)
    (element_name : string) :
  match _validate_and_standardizes_configured_list
          config_value allowed element_name with
  | Ok l => l = Py.lower <$> config_list config_value
            ∧ ∀ element, element ∈ l → element ∈ allowed
  | Raise e => ∃ element, element ∈ Py.lower <$> config_list config_value
                          ∧ (element ∉ allowed)
                          ∧ e = no_such element_name element
  | OutOfFuel => False
  end.
Proof.
  unfold _validate_and_standardizes_configured_list.
  fold (config_list config_value).
  pose proof (validate_check allowed element_name
                (Py.lower <$> config_list config_value)) as Hc.
  destruct (for_in _ _ ()) as [[]|e|]; cbn [mbind result_bind]; done.
Qed.

(** C8 (amended).  [_validate_and_standardizes_configured_list] lowercases
    every element, and raises exactly when some lowercased element is not in
    the allowed list; the exception is then ["No such <element name>:
    <element>"] for such an element; otherwise the lowercased list is
    returned.  [load] raises that exception, whatever the archive holds and
    before anything is imported, if some element of [data_blocks] or of
    [obj_types] is invalid. *)
Theorem validation_raises_on_invalid_elements `{Host} :
  (∀ (config_value : config) (allowed : list string) (element_name : string),
     let elements := Py.lower <$> config_list config_value in
     let outcome := _validate_and_standardizes_configured_list
                      config_value allowed element_name in
     ((∃ e, outcome = Raise e) ↔
      (∃ element, element ∈ elements ∧ (element ∉ allowed))) ∧
     (∀ e, outcome = Raise e →
           ∃ element, element ∈ elements ∧ (element ∉ allowed) ∧
                      e = Exception ("No such " +:+ element_name +:+ ": "
                                     +:+ element)) ∧
     (outcome = Ok elements ↔
      (∀ element, element ∈ elements → element ∈ allowed))) ∧
  (∀ (path : string) (obj_types : config) (name_regrex : option string)
     (data_blocks : config) (merge_objects : bool)
     (merged_object_name : string) (s : state),
     (∃ element, element ∈ Py.lower <$> config_list data_blocks
                 ∧ (element ∉ valid_datablocks)) ∨
     (∃ element, element ∈ Py.lower <$> config_list obj_types
                 ∧ (element ∉ valid_object_types)) →
     ∃ element_name element,
       load path obj_types name_regrex data_blocks merge_objects
            merged_object_name s
       = Raise (Exception ("No such " +:+ element_name +:+ ": " +:+ element))).
Proof.
  split.
  - intros config_value allowed element_name elements outcome.
    pose proof (validate_spec config_value allowed element_name) as Hv.
    fold outcome in Hv. fold elements in Hv.
    destruct outcome as [l|e|].
    + destruct Hv as [-> Hall]. split; [|split].
      * split; [intros [e ?]; done|].
        intros (element & Hin & Hnot). exfalso. by apply Hnot, Hall.
      * done.
      * done.
    + destruct Hv as (element & Hin & Hnot & ->). split; [|split].
      * split; [eauto|]. eauto.
      * intros e' [= <-]. eauto.
      * split; [done|]. intros Hall. exfalso. by apply Hnot, Hall.
    + done.
  - intros path obj_types name_regrex data_blocks merge_objects
           merged_object_name s Hinvalid.
    unfold load.
    pose proof (validate_spec data_blocks valid_datablocks "data block") as Hd.
    destruct (_validate_and_standardizes_configured_list data_blocks _ _)
      as [dbs|e|]; cbn [mbind result_bind]; [| |done].
    2:{ destruct Hd as (element & _ & _ & ->). by eexists _, _. }
    pose proof (validate_spec obj_types valid_object_types "object type") as Ho.
    destruct (_validate_and_standardizes_configured_list obj_types _ _)
      as [ots|e|]; cbn [mbind result_bind]; [| |done].
    2:{ destruct Ho as (element & _ & _ & ->). by eexists _, _. }
    exfalso. destruct Hd as [-> Hd], Ho as [-> Ho].
    destruct Hinvalid as [(element & Hin & Hnot)|(element & Hin & Hnot)].
    + by apply Hnot, Hd.
    + by apply Hnot, Ho.
Qed.

(** On the demo host, the misspelt data block ["Objekts"] makes [load]
    raise. *)
Lemma validation_raises_on_invalid_elements_witness :
  ∃ element_name element,
    @load Demo.host "scene.blend" (Str "mesh") None (Str "Objekts") false
          "merged" Demo.scene
    = Raise (Exception ("No such " +:+ element_name +:+ ": " +:+ element)).
Proof.
  apply (proj2 (@validation_raises_on_invalid_elements Demo.host)).
  left. exists "objekts". split.
  - apply list_elem_of_In. vm_compute. tauto.
  - apply (bool_decide_unpack _). vm_compute. reflexivity.
Defined.

(** C8 as stated fails: [load] also raises, before it imports anything, when
    every configured element is valid.  On the demo host ["libraries"] is a
    valid data block that the archive does not list, and line 85 raises. *)
Lemma load_raises_with_valid_configuration :
  ¬ (∀ (H : Host) (path : string) (obj_types : config)
       (name_regrex : option string) (data_blocks : config)
       (merge_objects : bool) (merged_object_name : string) (s : state)
       (e : exn),
       load path obj_types name_regrex data_blocks merge_objects
            merged_object_name s = Raise e →
       (∃ element, element ∈ Py.lower <$> config_list data_blocks
                   ∧ (element ∉ valid_datablocks)) ∨
       (∃ element, element ∈ Py.lower <$> config_list obj_types
                   ∧ (element ∉ valid_object_types))).
Proof.
  intros Hclaim.
  destruct (Hclaim Demo.host "scene.blend" (Str "mesh") None
                   (Str "libraries") false "merged" Demo.scene
                   (Exception "No such data block: libraries"))
    as [(element & Hin & Hnot)|(element & Hin & Hnot)].
  - vm_compute. reflexivity.
  - apply list_elem_of_In in Hin. cbn in Hin. destruct Hin as [<-|[]].
    apply Hnot. apply (bool_decide_unpack _). vm_compute. reflexivity.
  - apply list_elem_of_In in Hin. cbn in Hin. destruct Hin as [<-|[]].
    apply Hnot. apply (bool_decide_unpack _). vm_compute. reflexivity.
Qed.

(** ** Selection of the entities by name *)

Section selection.
Context `{Host}.

Lemma select_names (name_regrex : option string) (names acc r : list string) :
  for_in names
    (λ entity_name data_to_entities,
       matches ←
         match name_regrex with
         | None => Ok true
         | Some pattern =>
             if decide (pattern = "") then Ok true
             else re_fullmatch pattern entity_name
         end;
       Ok (if (matches : bool)
           then data_to_entities ++ [entity_name]
           else data_to_entities))
    acc = Ok r →
  r = acc ++ filter (name_selected name_regrex) names.
Proof.
  revert acc. induction names as [|n names IH]; intros acc; cbn [for_in].
  - intros [= <-]. by rewrite app_nil_r.
  - intros Hfor. inv_bind Hfor as (acc' & Hstep & Hfor).
    inv_bind Hstep as (matches & Hm & [= <-]).
    apply IH in Hfor as ->.
    assert (matches = true ↔ name_selected name_regrex n) as Hiff.
    { unfold name_selected. destruct name_regrex as [pattern|].
      - destruct (decide (pattern = "")) as [->|Hne].
        + injection Hm as <-. split; [by left|done].
        + rewrite Hm. split; [intros ->; by right|].
          intros [?|[= ->]]; done.
      - injection Hm as <-. done. }
    destruct matches.
    + rewrite filter_cons_True by (by apply Hiff).
      by rewrite <-app_assoc.
    + rewrite filter_cons_False; [done|]. intros Hs. by apply Hiff in Hs.
Qed.

Lemma select_entities_Ok name_regrex data_from data_block selection selection' :
  select_entities name_regrex data_from data_block selection = Ok selection' →
  ∃ names, data_from !! data_block = Some names ∧
    selection' = <[data_block := filter (name_selected name_regrex) names]>
                   selection.
Proof.
  unfold select_entities. destruct (data_from !! data_block) as [names|]; [|done].
  intros Hs. inv_bind Hs as (r & Hfor & [= <-]).
  apply select_names in Hfor as ->. eauto.
Qed.

Lemma select_all name_regrex data_from data_blocks selection selection' :
  for_in data_blocks (select_entities name_regrex data_from) selection
  = Ok selection' →
  ∀ data_block,
    (data_block ∈ data_blocks →
     ∃ names, data_from !! data_block = Some names ∧
              selection' !! data_block
              = Some (filter (name_selected name_regrex) names)) ∧
    (data_block ∉ data_blocks →
     selection' !! data_block = selection !! data_block).
Proof.
  revert selection. induction data_blocks as [|b bs IH]; intros selection.
  - intros [= <-] data_block. split; [|done].
    intros Hin. by apply not_elem_of_nil in Hin.
  - cbn [for_in]. intros Hfor.
    inv_bind Hfor as (sel1 & Hstep & Hfor).
    apply select_entities_Ok in Hstep as (names & Hnames & ->).
    intros data_block. destruct (IH _ Hfor data_block) as [Hin Hout].
    destruct (decide (data_block ∈ bs)) as [Hbs|Hbs].
    + split; [intros _; by apply Hin|].
      intros Hn. exfalso. apply Hn. by right.
    + split.
      * intros [->|?]%elem_of_cons; [|done].
        exists names. split; [done|]. rewrite Hout by done.
        by rewrite lookup_insert_eq.
      * intros [Hne _]%not_elem_of_cons. rewrite Hout by done.
        by rewrite lookup_insert_ne.
Qed.

(** C2.  When the [with] block of [load] completes, the names handed to
    the host for import are, for every requested data block, names that the
    archive lists under that data block, and a listed name is among them if
    and only if [name_regrex] is [None], or empty, or [re.fullmatch]
    succeeds on it; with [name_regrex = None] every listed name is imported.
    Nothing is selected for a data block that was not requested. *)
Theorem entities_selected_by_name_pattern
    (path : string) (name_regrex : option string) (data_blocks : list string)
    (s s1 : state) (data_to : gmap string (list positive)) :
  import_entities path name_regrex data_blocks s = Ok (s1, data_to) →
  ∃ data_from selection,
    libraries_open path = Ok data_from ∧
    libraries_load path selection s = Ok (s1, data_to) ∧
    (∀ data_block, data_block ∉ data_blocks →
                   selection !! data_block = None) ∧
    ∀ data_block, data_block ∈ data_blocks →
      ∃ names,
        data_from !! data_block = Some names ∧
        (∀ entity_name, entity_name ∈ names →
           (entity_name ∈ selection !!! data_block ↔
            name_regrex = None ∨ name_regrex = Some "" ∨
            ∃ pattern, name_regrex = Some pattern ∧
                       re_fullmatch pattern entity_name = Ok true)) ∧
        (∀ entity_name, entity_name ∈ selection !!! data_block →
                        entity_name ∈ names) ∧
        (name_regrex = None → selection !!! data_block = names).
Proof.
  unfold import_entities. intros Himp.
  inv_bind Himp as (data_from & Hopen & Himp).
  inv_bind Himp as (selection & Hsel & Hload).
  exists data_from, selection. split; [done|]. split; [done|].
  pose proof (select_all _ _ _ _ _ Hsel) as Hall. split.
  { intros data_block Hn. destruct (Hall data_block) as [_ ->]; done. }
  intros data_block Hin. destruct (Hall data_block) as [(names & Hn & Hs) _];
    [done|].
  exists names. split; [done|].
  assert (selection !!! data_block
          = filter (name_selected name_regrex) names) as ->
    by (by rewrite lookup_total_alt, Hs).
  split; [|split].
  - intros entity_name Hname. rewrite list_elem_of_filter.
    unfold name_selected. destruct name_regrex as [pattern|].
    + split.
      * intros [[->|Hm] _]; [right; by left|]. right. right. eauto.
      * intros [?|[[= <-]|(p & [= <-] & Hm)]]; [done| |]; split; auto.
    + split; [by left|done].
  - intros entity_name [_ ?]%list_elem_of_filter. done.
  - intros ->. apply filter_all_id. done.
Qed.

End selection.

(** On the demo host, with the pattern ["Cube"]. *)
Lemma entities_selected_by_name_pattern_witness :
  let r := @import_entities Demo.host "scene.blend" (Some "Cube")
                            ["objects"] Demo.scene in
  r = Ok (Demo.value (Demo.scene, ∅) r) ∧
  ∃ data_from selection names,
    @libraries_open Demo.host "scene.blend" = Ok data_from ∧
    @libraries_load Demo.host "scene.blend" selection Demo.scene = r ∧
    data_from !! "objects" = Some names ∧
    ∀ entity_name, entity_name ∈ names →
      (entity_name ∈ selection !!! "objects" ↔
       Some "Cube" = None ∨ Some "Cube" = Some "" ∨
       ∃ pattern, Some "Cube" = Some pattern ∧
                  @re_fullmatch Demo.host pattern entity_name = Ok true).
Proof.
  intros r.
  assert (r = Ok ((Demo.value (Demo.scene, ∅) r).1,
                  (Demo.value (Demo.scene, ∅) r).2)) as Hr
    by (vm_compute; reflexivity).
  split; [vm_compute; reflexivity|].
  destruct (@entities_selected_by_name_pattern Demo.host "scene.blend"
              (Some "Cube") ["objects"] Demo.scene _ _ Hr)
    as (data_from & selection & Hopen & Hload & _ & Hsel).
  destruct (Hsel "objects") as (names & Hnames & Hiff & _); [left|].
  exists data_from, selection, names.
  split; [exact Hopen|]. split; [by rewrite Hr|]. split; [exact Hnames|].
  exact Hiff.
Defined.

(** ** Cameras *)

Section keyframes.
Local Open Scope Z_scope.

Lemma foldr_max_le (a : Z) (l : list Z) : a ≤ foldr Z.max a l.
Proof. induction l as [|x l IH]; cbn [foldr]; lia. Qed.

Lemma foldr_max_init (a b : Z) (l : list Z) :
  a ≤ b → foldr Z.max b l = Z.max b (foldr Z.max a l).
Proof. intros Hab. induction l as [|x l IH]; cbn [foldr]; lia. Qed.

Lemma foldl_max_keyframes (m0 : Z) (points : list Keyframe) :
  foldl (λ max_keyframe keyframe, Z.max max_keyframe (co keyframe).1)
        m0 points
  = foldr Z.max m0 ((λ keyframe, (co keyframe).1) <$> points).
Proof.
  revert m0. induction points as [|k points IH]; intros m0; [done|].
  cbn [foldl fmap list_fmap foldr]. rewrite IH.
  rewrite (foldr_max_init m0 (Z.max m0 (co k).1)) by lia.
  pose proof (foldr_max_le m0 ((λ keyframe, (co keyframe).1) <$> points)).
  lia.
Qed.

Lemma foldl_max_curves (m0 : Z) (curves : list FCurve) :
  foldl (λ max_keyframe curve,
           foldl (λ max_keyframe keyframe, Z.max max_keyframe (co keyframe).1)
                 max_keyframe (keyframe_points curve))
        m0 curves
  = foldr Z.max m0
      ((λ keyframe, (co keyframe).1) <$> concat (keyframe_points <$> curves)).
Proof.
  revert m0. induction curves as [|c curves IH]; intros m0; [done|].
  cbn [foldl fmap list_fmap concat]. rewrite IH, foldl_max_keyframes.
  rewrite fmap_app, foldr_app.
  set (l1 := (λ keyframe, (co keyframe).1) <$> keyframe_points c).
  set (l2 := (λ keyframe, (co keyframe).1) <$> concat _).
  rewrite (foldr_max_init m0 (foldr Z.max m0 l1) l2) by apply foldr_max_le.
  rewrite (foldr_max_init m0 (foldr Z.max m0 l2) l1) by apply foldr_max_le.
  lia.
Qed.

Lemma max_keyframe_of_spec (o : ID) :
  animation_data o = None ∨
  (∃ act, animation_data o = Some {| action := Some act |}) →
  max_keyframe_of o = Ok (foldr Z.max (-1) (keyframe_numbers o)).
Proof.
  unfold max_keyframe_of, keyframe_numbers.
  intros [->|[act ->]]; [done|]. cbn [action]. by rewrite foldl_max_curves.
Qed.

Lemma foldr_max_greatest (a : Z) (l : list Z) (m : Z) :
  m ∈ l → (∀ f, f ∈ l → f ≤ m) → a ≤ m → foldr Z.max a l = m.
Proof.
  intros Hin Hle Ha. apply Z.le_antisymm.
  - clear Hin. induction l as [|x l IH]; cbn [foldr]; [done|].
    apply Z.max_lub; [apply Hle; left|]. apply IH. intros f Hf. apply Hle.
    by right.
  - clear Hle. induction l as [|x l IH]; [by apply not_elem_of_nil in Hin|].
    cbn [foldr]. apply elem_of_cons in Hin as [->|Hin]; [lia|].
    specialize (IH Hin). lia.
Qed.

Lemma foldr_max_floor (a : Z) (l : list Z) :
  (∀ f, f ∈ l → f ≤ a) → foldr Z.max a l = a.
Proof.
  induction l as [|x l IH]; intros Hle; cbn [foldr]; [done|].
  rewrite IH by (intros f Hf; apply Hle; by right).
  assert (x ≤ a) by (apply Hle; left). lia.
Qed.


(** C9 (amended).  When [load] comes to an imported object of type
    [CAMERA] that passes the type filter (and is not linked yet, and whose
    animation data, if any, has an action), it makes it the active camera of
    the scene and sets [frame_end] to one more than the greatest of -1 and
    all key frame numbers of all its f-curves: the greatest key frame number
    plus one when that is at least -1, and 0 when there is no animation
    data, no key frame, or no key frame after -1. *)
Theorem imported_camera_becomes_active
    (obj_types : list string) (merge_objects : bool)
    (merged_object_name : string) (obj : positive) (s : state)
    (loaded_objects : list ref) (potential_parent_names : list string)
    (o : ID) :
  data s !! ("objects", obj) = Some o →
  type o = CAMERA →
  "camera" ∈ obj_types →
  obj ∉ collection_objects s →
  animation_data o = None ∨
  (∃ act, animation_data o = Some {| action := Some act |}) →
  ∃ s' potential_parent_names',
    load_object obj_types merge_objects merged_object_name obj
                (s, loaded_objects, potential_parent_names)
    = Ok (s', loaded_objects ++ [("objects", obj)], potential_parent_names') ∧
    scene_camera s' = Some obj ∧
    scene_frame_end s' = foldr Z.max (-1) (keyframe_numbers o) + 1 ∧
    (animation_data o = None → scene_frame_end s' = 0) ∧
    (∀ m, m ∈ keyframe_numbers o →
          (∀ f, f ∈ keyframe_numbers o → f ≤ m) →
          -1 ≤ m → scene_frame_end s' = m + 1) ∧
    ((∀ f, f ∈ keyframe_numbers o → f ≤ -1) → scene_frame_end s' = 0).
Proof.
  intros Ho Htype Hcam Hlink Hanim.
  unfold load_object, get_object. rewrite Ho. cbn [mbind result_bind].
  rewrite Htype. cbn [type_str].
  rewrite decide_True by (vm_compute; exact Hcam).
  unfold link, get_object. rewrite Ho. cbn [mbind result_bind].
  rewrite decide_False by done. cbn [mbind result_bind].
  rewrite decide_True by done.
  rewrite (max_keyframe_of_spec o Hanim). cbn [mbind result_bind].
  eexists _, _. split; [reflexivity|].
  cbn [set_scene_frame_end set_scene_camera scene_camera scene_frame_end].
  split; [done|]. split; [done|]. split; [|split].
  - intros Hnone. unfold keyframe_numbers. by rewrite Hnone.
  - intros m Hin Hle Hm. by rewrite (foldr_max_greatest (-1) _ m).
  - intros Hle. by rewrite foldr_max_floor.
Qed.

End keyframes.

(** The camera ["Shot"] of the demo archive has key frames 1, 250 and 100:
    [frame_end] becomes 251. *)
Lemma imported_camera_becomes_active_witness :
  ∃ s' potential_parent_names',
    load_object ["camera"] false "merged" 12%positive
                 (Demo.imported, [], [])
    = Ok (s', [("objects", 12%positive)], potential_parent_names') ∧
    scene_camera s' = Some 12%positive ∧
    scene_frame_end s' = 251%Z.
Proof.
  destruct (imported_camera_becomes_active ["camera"] false
              "merged" 12%positive Demo.imported [] []
              (Demo.datablock "Shot" CAMERA None
                 (Demo.animation [[1; 250]; [100]]%Z) []))
    as (s' & ppn' & Hload & Hcam & Hend & _).
  - vm_compute. reflexivity.
  - reflexivity.
  - apply (bool_decide_unpack _). vm_compute. reflexivity.
  - apply (bool_decide_unpack _). vm_compute. reflexivity.
  - right. eexists. reflexivity.
  - exists s', ppn'. split; [exact Hload|]. split; [exact Hcam|].
    rewrite Hend. vm_compute. reflexivity.
Defined.

(** C9 as stated fails: the only key frame of the camera ["Early"] is at
    frame -5, and [load] sets [frame_end] to 0, not to -5 + 1. *)
Lemma camera_with_early_keyframes :
  let r := @load Demo.host "scene.blend" (Str "camera") (Some "Early")
                 (Str "objects") false "merged" Demo.scene in
  r = Ok (Demo.returned r, Demo.final r) ∧
  Demo.returned r = [("objects", 15%positive)] ∧
  scene_camera (Demo.final r) = Some 15%positive ∧
  (type <$> data (Demo.final r) !! ("objects", 15%positive)) = Some CAMERA ∧
  (keyframe_numbers <$> data (Demo.final r) !! ("objects", 15%positive))
  = Some [-5]%Z ∧
  scene_frame_end (Demo.final r) = 0%Z ∧
  scene_frame_end (Demo.final r) ≠ (-5 + 1)%Z.
Proof.
  intros r. repeat split; try (vm_compute; reflexivity).
  vm_compute. discriminate.
Qed.

(** ** The stages of [load] *)

Section load_stages.
Context `{Host}.

Lemma load_Ok path obj_types name_regrex data_blocks merge_objects
    merged_object_name s ret s' :
  load path obj_types name_regrex data_blocks merge_objects
       merged_object_name s = Ok (ret, s') →
  ∃ dbs ots s1 data_to s2 loaded ppn s3,
    _validate_and_standardizes_configured_list
      data_blocks valid_datablocks "data block" = Ok dbs ∧
    _validate_and_standardizes_configured_list
      obj_types valid_object_types "object type" = Ok ots ∧
    import_entities (resolve_path path) name_regrex dbs s = Ok (s1, data_to) ∧
    for_in dbs (load_block ots merge_objects merged_object_name data_to)
           (s1, [], []) = Ok (s2, loaded, ppn) ∧
    _purge_added_orphans (collect_all_orphan_datablocks s) data_to s3
    = Ok s' ∧
    ((merge_objects && (1 <? length loaded)%nat = false ∧
      s3 = s2 ∧ ret = loaded) ∨
     (merge_objects = true ∧ (1 < length loaded)%nat ∧
      ∃ parent_name parent_obj r,
        merge_loaded (resolve_path path) merged_object_name loaded ppn s2
        = Ok (parent_name, parent_obj, s3) ∧
        objects_getitem parent_name s' = Ok r ∧ ret = [r])).
Proof.
  unfold load. intros Hload.
  inv_bind Hload as (dbs & Hdbs & Hload).
  inv_bind Hload as (ots & Hots & Hload).
  inv_bind Hload as ([s1 data_to] & Himp & Hload).
  inv_bind Hload as ([[s2 loaded] ppn] & Hloop & Hload).
  inv_bind Hload as ([parent_name s3] & Hmerge & Hload).
  inv_bind Hload as (s4 & Hpurge & Hload).
  exists dbs, ots, s1, data_to, s2, loaded, ppn, s3.
  repeat (split; [done|]).
  destruct (merge_objects && (1 <? length loaded)%nat) eqn:Hm.
  - inv_bind Hmerge as ([[pn pobj] s3'] & Hml & [= <- <-]).
    inv_bind Hload as (r & Hget & [= <- <-]).
    split; [done|]. right.
    apply andb_true_iff in Hm as [-> Hlen%Nat.ltb_lt].
    split; [done|]. split; [done|]. eauto 10.
  - injection Hmerge as <- <-. injection Hload as <- <-.
    split; [done|]. left. done.
Qed.

End load_stages.

(** ** Orphans after loading *)

(** C3.  After [load] has returned, no orphan remains that the import
    created: every orphan of the final scene data was an orphan before the
    call or is one of the entities imported on purpose (listed in [data_to]);
    and every datablock that was an orphan when the cleanup started, was not
    an orphan before the call and is not listed in [data_to] has been
    removed.  The first part covers the orphans that only arise when another
    orphan is removed. *)
Theorem no_added_orphan_remains `{Host}
    (path : string) (obj_types : config) (name_regrex : option string)
    (data_blocks : config) (merge_objects : bool)
    (merged_object_name : string) (s : state)
    (ret : list ref) (s' : state) :
  load path obj_types name_regrex data_blocks merge_objects
       merged_object_name s = Ok (ret, s') →
  ∃ dbs s1 data_to s3,
    _validate_and_standardizes_configured_list
      data_blocks valid_datablocks "data block" = Ok dbs ∧
    import_entities (resolve_path path) name_regrex dbs s = Ok (s1, data_to) ∧
    _purge_added_orphans (collect_all_orphan_datablocks s) data_to s3
    = Ok s' ∧
    (∀ k, k ∈ collect_all_orphan_datablocks s' →
          k ∈ collect_all_orphan_datablocks s ∨ k.2 ∈ (data_to !!! k.1)) ∧
    (∀ k, k ∈ collect_all_orphan_datablocks s3 →
          k ∉ collect_all_orphan_datablocks s →
          k.2 ∉ (data_to !!! k.1) →
          data s' !! k = None).
Proof.
  intros Hload.
  apply load_Ok in Hload
    as (dbs & ots & s1 & data_to & s2 & loaded & ppn & s3
        & Hdbs & Hots & Himp & Hloop & Hpurge & _).
  exists dbs, s1, data_to, s3. repeat (split; [done|]).
  destruct (purge_loop_spec (collect_all_orphan_datablocks s) data_to
              (S (size (data s3))) s3)
    as (s'' & R & Hloop' & _ & _ & _ & Hdata & _ & _ & _ & Hall & Hfin & _);
    [lia|].
  unfold _purge_added_orphans in Hpurge. rewrite Hloop' in Hpurge.
  injection Hpurge as ->. split; [exact Hfin|].
  intros k Hk Hb He. rewrite Hdata, decide_True; [done|]. by apply Hall.
Qed.

Lemma load_object_Ok ots m mn obj s loaded ppn s' loaded' ppn' :
  load_object ots m mn obj (s, loaded, ppn) = Ok (s', loaded', ppn') →
  ∃ o, data s !! ("objects", obj) = Some o ∧
    ((wanted ots o ∧ (obj ∉ collection_objects s) ∧
      data s' = data s ∧
      collection_objects s' = {[obj]} ∪ collection_objects s ∧
      dead s' = dead s ∧
      loaded' = loaded ++ [("objects", obj)]) ∨
     (¬ wanted ots o ∧ remove ("objects", obj) s = Ok s' ∧ loaded' = loaded)).
Proof.
  unfold load_object, get_object.
  destruct (data s !! ("objects", obj)) as [o|] eqn:Ho; [|done].
  cbn [mbind result_bind]. intros Hl. exists o. split; [done|].
  fold (wanted ots o) in Hl.
  destruct (decide (wanted ots o)) as [Hw|Hw].
  - left. inv_bind Hl as (s1 & Hlink & Hl).
    inv_bind Hl as (s2 & Hcam & [= <- <- <-]).
    unfold link, get_object in Hlink. rewrite Ho in Hlink.
    cbn [mbind result_bind] in Hlink.
    destruct (decide (obj ∈ collection_objects s)) as [|Hnl]; [done|].
    injection Hlink as <-.
    assert (data s2 = data s ∧
            collection_objects s2 = {[obj]} ∪ collection_objects s ∧
            dead s2 = dead s) as (? & ? & ?).
    { destruct (decide (type_str (type o) = "CAMERA")).
      - inv_bind Hcam as (mk & _ & [= <-]). done.
      - by injection Hcam as <-. }
    done.
  - right. inv_bind Hl as (s1 & Hrem & [= <- <- <-]). done.
Qed.

Lemma remove_lookup k s s' k' :
  remove k s = Ok s' →
  data s' !! k' =
    if decide (k' = k) then None else unlink_from k <$> data s !! k'.
Proof.
  intros (_ & -> & _)%remove_inv. rewrite lookup_fmap.
  destruct (decide (k' = k)) as [->|Hne].
  - by rewrite lookup_delete_eq.
  - by rewrite lookup_delete_ne.
Qed.

Lemma wanted_type ots d d' : type d = type d' → wanted ots d ↔ wanted ots d'.
Proof. unfold wanted. by intros ->. Qed.

Lemma load_object_step ots m mn data_to s1 obj st st' :
  obj ∈ data_to !!! "objects" →
  loop_inv ots data_to s1 st →
  load_object ots m mn obj st = Ok st' →
  loop_inv ots data_to s1 st' ∧
  object_settled ots s1 obj st' ∧
  ∀ y, object_settled ots s1 y st → object_settled ots s1 y st'.
Proof.
  destruct st as [[s loaded] ppn], st' as [[s' loaded'] ppn'].
  intros Hobj (I1 & I2 & I3) Hstep. cbn [fst snd] in *.
  apply load_object_Ok in Hstep as (o & Ho & Hcase).
  destruct (I1 _ _ Ho) as (o1 & Ho1 & Hty & _).
  destruct Hcase as [(Hw & Hnl & Hdata & Hcoll & Hdead & ->)
                    |(Hw & Hrem & ->)].
  - (* the object is kept *)
    split; [|split].
    + unfold loop_inv. cbn [fst snd]. rewrite Hdata, Hcoll.
      split; [done|]. split.
      * intros r [Hr| ->%list_elem_of_singleton]%elem_of_app; [by apply I2|done].
      * intros y [Hy|Hy%list_elem_of_singleton]%elem_of_app.
        -- destruct (I3 y Hy) as [? ?]. split; [|done].
           apply elem_of_union. by right.
        -- injection Hy as ->. split; [|by eexists].
           apply elem_of_union. left. by apply elem_of_singleton.
    + exists o1. split; [done|]. cbn [fst snd]. split.
      * intros _. rewrite Hcoll. split.
        -- apply elem_of_union. left. by apply elem_of_singleton.
        -- apply elem_of_app. right. by apply list_elem_of_singleton.
      * intros Hn. exfalso. by apply Hn, (wanted_type ots o o1).
    + intros y (oy & Hoy & Hyes & Hno). exists oy. split; [done|].
      cbn [fst snd] in *. rewrite Hcoll, Hdata, Hdead. split.
      * intros Hwy. destruct (Hyes Hwy). split.
        -- apply elem_of_union. by right.
        -- apply elem_of_app. by left.
      * intros Hwy. destruct (Hno Hwy) as (? & Hnone & ?).
        split; [done|]. split; [done|].
        intros [?| Hy%list_elem_of_singleton]%elem_of_app; [done|].
        injection Hy as ->. congruence.
  - (* the object is removed *)
    pose proof (remove_lookup _ _ _ ("objects", obj) Hrem) as Hgone.
    rewrite decide_True in Hgone by done.
    pose proof Hrem as (_ & _ & Hcoll & _ & Hdead)%remove_inv.
    cbn [fst snd] in Hcoll. rewrite decide_True in Hcoll by done.
    assert (∀ y, ("objects", y) ∈ loaded → y ≠ obj) as Hne.
    { intros y Hy ->. destruct (I3 obj Hy) as (_ & d & Hd & Hwd).
      apply Hw. congruence. }
    split; [|split].
    + unfold loop_inv. cbn [fst snd]. split; [|split].
      * intros k d. rewrite (remove_lookup _ _ _ k Hrem).
        case_decide; [done|].
        destruct (data s !! k) as [d0|] eqn:Hk; [|done].
        intros [= <-]. destruct (I1 _ _ Hk) as (d1 & ? & ? & ?).
        exists d1. done.
      * done.
      * intros y Hy. destruct (I3 y Hy) as (Hl & d & Hd & Hwd).
        rewrite Hcoll. split.
        -- apply elem_of_difference. split; [done|].
           rewrite elem_of_singleton. by apply Hne.
        -- exists (unlink_from ("objects", obj) d).
           rewrite (remove_lookup _ _ _ _ Hrem), Hd.
           rewrite decide_False; [done|].
           intros [= ?]. by eapply Hne.
    + exists o1. split; [done|]. cbn [fst snd]. split.
      * intros Hw1. exfalso. by apply Hw, (wanted_type ots o o1).
      * intros _. rewrite Hdead. split; [|split; [done|]].
        -- apply elem_of_union. left. by apply elem_of_singleton.
        -- intros Hin. by apply (Hne obj).
    + intros y (oy & Hoy & Hyes & Hno). exists oy. split; [done|].
      cbn [fst snd] in *. split.
      * intros Hwy. destruct (Hyes Hwy) as [Hl Hin]. split; [|done].
        rewrite Hcoll. apply elem_of_difference. split; [done|].
        rewrite elem_of_singleton. by apply Hne.
      * intros Hwy. destruct (Hno Hwy) as (Hd & Hnone & Hnl).
        rewrite Hdead. split; [apply elem_of_union; by right|].
        split; [|done]. rewrite (remove_lookup _ _ _ _ Hrem), Hnone.
        by case_decide.
Qed.

Lemma load_object_grows ots m mn obj st st' r :
  load_object ots m mn obj st = Ok st' → r ∈ st.1.2 → r ∈ st'.1.2.
Proof.
  destruct st as [[s loaded] ppn], st' as [[s' loaded'] ppn'].
  intros (o & _ & [(_ & _ & _ & _ & _ & ->)|(_ & _ & ->)])%load_object_Ok;
    cbn [fst snd]; [|done].
  intros Hr. apply elem_of_app. by left.
Qed.

Lemma load_block_step ots m mn data_to s1 b st st' :
  loop_inv ots data_to s1 st →
  load_block ots m mn data_to b st = Ok st' →
  loop_inv ots data_to s1 st' ∧
  block_settled ots data_to s1 b st' ∧
  ∀ y, block_settled ots data_to s1 y st → block_settled ots data_to s1 y st'.
Proof.
  intros HI. unfold load_block. destruct (decide (b = "objects")) as [->|Hb].
  - intros Hfor.
    destruct (for_in_each (loop_inv ots data_to s1) (object_settled ots s1)
                _ _ _ _ (λ x s s' Hx, load_object_step ots m mn data_to s1
                                        x s s' Hx) HI Hfor)
      as (HI' & HE & Hst).
    split; [done|]. split.
    + unfold block_settled. rewrite decide_True by done. exact HE.
    + intros y. unfold block_settled. destruct (decide (y = "objects")).
      * intros Hy obj Hobj. by apply Hst, Hy.
      * intros Hy e He.
        apply (for_in_inv (λ st, (y, e) ∈ st.1.2) _ _ _ _
                 (λ x s s' _ Hs Hx, load_object_grows _ _ _ _ _ _ _ Hx Hs)
                 (Hy e He) Hfor).
  - destruct st as [[s loaded] ppn]. intros [= <-].
    destruct HI as (I1 & I2 & I3). cbn [fst snd] in *.
    split; [|split].
    + split; [done|]. cbn [fst snd]. split.
      * intros r [Hr|Hr]%elem_of_app; [by apply I2|].
        apply list_elem_of_fmap in Hr as (e & -> & He). done.
      * intros obj [Hr|Hr]%elem_of_app; [by apply I3|].
        apply list_elem_of_fmap in Hr as (e & [= <- _] & He). done.
    + unfold block_settled. rewrite decide_False by done. cbn [fst snd].
      intros e He. apply elem_of_app. right.
      apply list_elem_of_fmap. eauto.
    + intros y. unfold block_settled. destruct (decide (y = "objects")).
      * intros Hy obj Hobj. destruct (Hy obj Hobj) as (o & Ho & Hyes & Hno).
        exists o. split; [done|]. cbn [fst snd] in *. split.
        -- intros Hw. destruct (Hyes Hw). split; [done|].
           apply elem_of_app. by left.
        -- intros Hw. destruct (Hno Hw) as (? & ? & Hnl).
           split; [done|]. split; [done|].
           intros [Hr|Hr]%elem_of_app; [done|].
           apply list_elem_of_fmap in Hr as (e' & [= <- _] & He'). done.
      * cbn [fst snd]. intros Hy e He. apply elem_of_app. left. by apply Hy.
Qed.

Lemma load_blocks_spec ots m mn data_to dbs s1 s2 loaded ppn :
  for_in dbs (load_block ots m mn data_to) (s1, [], []) = Ok (s2, loaded, ppn) →
  loop_inv ots data_to s1 (s2, loaded, ppn) ∧
  ∀ b, b ∈ dbs → block_settled ots data_to s1 b (s2, loaded, ppn).
Proof.
  intros Hfor.
  assert (loop_inv ots data_to s1 (s1, [], [])) as HI0.
  { split; [|split]; cbn [fst snd].
    - intros k d Hk. exists d. done.
    - intros r Hr. by apply not_elem_of_nil in Hr.
    - intros obj Hr. by apply not_elem_of_nil in Hr. }
  destruct (for_in_each (loop_inv ots data_to s1)
              (block_settled ots data_to s1) _ _ _ _
              (λ x s s' _, load_block_step ots m mn data_to s1 x s s')
              HI0 Hfor) as (HI & HE & _).
  done.
Qed.

(** ** Merging *)

Lemma objects_find_Some n s i :
  objects_find n s = Some i →
  ∃ d, data s !! ("objects", i) = Some d ∧ name d = n.
Proof.
  unfold objects_find.
  destruct (list_find _ _) as [[j [[c i'] d]]|] eqn:Hf; [|done].
  intros [= <-]. apply list_find_Some in Hf as (Hl & [Hc Hn] & _).
  cbn [fst snd] in *. subst c. exists d. split; [|done].
  apply elem_of_map_to_list. eapply list_elem_of_lookup_2. exact Hl.
Qed.

Lemma objects_find_None n s i d :
  objects_find n s = None →
  data s !! ("objects", i) = Some d → name d ≠ n.
Proof.
  unfold objects_find.
  destruct (list_find _ _) as [[j [[c i'] d']]|] eqn:Hf; [done|].
  intros _ Hd Hn. apply list_find_None in Hf.
  apply elem_of_map_to_list in Hd.
  rewrite Forall_forall in Hf. apply (Hf _ Hd). done.
Qed.

Section merge.
Context `{Host}.

Lemma objects_new_spec n s obj s3 :
  objects_new n s = (obj, s3) →
  data s !! ("objects", obj) = None ∧
  (("objects", obj) ∉ dead s) ∧
  (∃ n', data s3 = <[("objects", obj) :=
                     {| name := n'; type := EMPTY; parent := None;
                        animation_data := None; uses := [];
                        other_users := 0 |}]> (data s) ∧
         (objects_find n s = None → n' = n)) ∧
  collection_objects s3 = collection_objects s ∧
  scene_camera s3 = scene_camera s ∧
  scene_frame_end s3 = scene_frame_end s ∧
  dead s3 = dead s.
Proof.
  unfold objects_new. intros [= <- <-]. cbn [data collection_objects
    scene_camera scene_frame_end dead].
  set (X := set_map (D:=gset positive) snd (dom (data s) ∪ dead s)).
  pose proof (is_fresh X) as Hfresh.
  assert (∀ k : ref, k ∈ dom (data s) ∪ dead s → k.2 ≠ fresh X) as Hk.
  { intros k Hin Heq. apply Hfresh. rewrite <-Heq.
    apply elem_of_map. by exists k. }
  split; [|split; [|split]].
  - apply not_elem_of_dom. intros Hin.
    apply (Hk ("objects", fresh X)); [|done]. apply elem_of_union. by left.
  - intros Hin. apply (Hk ("objects", fresh X)); [|done].
    apply elem_of_union. by right.
  - eexists. split; [reflexivity|]. by intros ->.
  - done.
Qed.

Lemma reparent_loop parent_obj loaded s s' :
  for_in loaded (reparent parent_obj) s = Ok s' →
  (∀ r, r ∈ loaded → r.1 = "objects" ∧ is_Some (data s !! r)) ∧
  (∀ k, data s' !! k = reparented parent_obj loaded k <$> data s !! k) ∧
  collection_objects s' = collection_objects s ∧
  scene_camera s' = scene_camera s ∧
  scene_frame_end s' = scene_frame_end s ∧
  dead s' = dead s.
Proof.
  revert s. induction loaded as [|r loaded IH]; intros s; cbn [for_in].
  - intros [= <-]. split; [intros r Hr; by apply not_elem_of_nil in Hr|].
    split; [|done]. intros k. unfold reparented.
    destruct (data s !! k) as [d|]; [|done]. cbn.
    rewrite decide_False; [done|]. intros [Hk _].
    by apply not_elem_of_nil in Hk.
  - intros Hfor. inv_bind Hfor as (s1 & Hstep & Hfor).
    apply IH in Hfor as (Hin & Hdata & Hcoll & Hcam & Hfe & Hdead).
    unfold reparent, get_parent in Hstep.
    destruct r as [c i]. cbn [fst snd] in Hstep.
    destruct (decide (c = "objects")) as [->|]; [|done].
    inv_bind Hstep as (p & Hp & Hstep).
    inv_bind Hp as (d & Hd & [= <-]).
    unfold get_object in Hd.
    destruct (data s !! ("objects", i)) as [d0|] eqn:Hd0; [|done].
    injection Hd as ->.
    assert (data s1 = (if decide (parent d = None)
                       then <[("objects", i) := with_parent parent_obj d]>
                              (data s)
                       else data s) ∧
            collection_objects s1 = collection_objects s ∧
            scene_camera s1 = scene_camera s ∧
            scene_frame_end s1 = scene_frame_end s ∧
            dead s1 = dead s) as (Hd1 & Hc1 & Hm1 & Hf1 & Hx1).
    { destruct (parent d) as [p|] eqn:Hpar.
      - injection Hstep as <-. by rewrite decide_False.
      - unfold set_parent, get_object in Hstep. rewrite Hd0 in Hstep.
        cbn [mbind result_bind] in Hstep. injection Hstep as <-.
        by rewrite decide_True. }
    split; [|split; [|repeat split; congruence]].
    + intros r [->|Hr]%elem_of_cons; [split; [done|by eexists]|].
      destruct (Hin r Hr) as [? Hs]. split; [done|].
      rewrite Hd1 in Hs. case_decide; [|done].
      destruct (decide (r = ("objects", i))) as [->|Hne]; [by eexists|].
      by rewrite lookup_insert_ne in Hs.
    + intros k. rewrite Hdata, Hd1. unfold reparented.
      destruct (decide (k = ("objects", i))) as [->|Hne].
      * destruct (decide (parent d = None)) as [Hpar|Hpar].
        -- rewrite lookup_insert_eq, Hd0. cbn.
           rewrite decide_False by (by intros [_ ?]).
           rewrite decide_True; [done|]. split; [left|done].
        -- rewrite Hd0. cbn. rewrite !decide_False; [done|..];
             by intros [_ ?].
      * assert ((if decide (parent d = None)
                 then <[("objects", i) := with_parent parent_obj d]> (data s)
                 else data s) !! k = data s !! k) as ->.
        { case_decide; [by rewrite lookup_insert_ne|done]. }
        destruct (data s !! k) as [dk|]; [|done]. cbn.
        destruct (decide (k ∈ loaded ∧ parent dk = None)) as [[? ?]|Hn].
        -- rewrite decide_True; [done|]. split; [by right|done].
        -- rewrite decide_False; [done|].
           intros [[?|?]%elem_of_cons ?]; [done|]. by apply Hn.
Qed.

Lemma merge_loaded_Ok path mn loaded ppn s2 pn pobj s3 :
  (∀ i, ("objects", i) ∈ loaded → is_Some (data s2 !! ("objects", i))) →
  merge_loaded path mn loaded ppn s2 = Ok (pn, pobj, s3) →
  merged_parent_name path mn ppn = Ok pn ∧
  data s2 !! ("objects", pobj) = None ∧
  (("objects", pobj) ∉ dead s2) ∧
  (∀ r, r ∈ loaded → r.1 = "objects") ∧
  (∃ n', (objects_find pn s2 = None → n' = pn) ∧
     ∀ k, data s3 !! k =
       if decide (k = ("objects", pobj))
       then Some {| name := n'; type := EMPTY; parent := None;
                    animation_data := None; uses := [];
                    other_users := 0 |}
       else reparented pobj loaded k <$> data s2 !! k) ∧
  collection_objects s3 = {[pobj]} ∪ collection_objects s2 ∧
  scene_frame_end s3 = scene_frame_end s2 ∧
  dead s3 = dead s2.
Proof.
  unfold merge_loaded. intros Hin2 Hm.
  inv_bind Hm as (pn' & Hpn & Hm).
  destruct (objects_new pn' s2) as [pobj' sa] eqn:Hnew.
  inv_bind Hm as (sb & Hlink & Hm).
  inv_bind Hm as (sc & Hloop & [= <- <- <-]).
  apply objects_new_spec in Hnew
    as (Hfresh & Hnd & (n' & Hda & Hn') & Hca & Hma & Hfa & Hxa).
  unfold link, get_object in Hlink. rewrite Hda, lookup_insert_eq in Hlink.
  cbn [mbind result_bind] in Hlink.
  destruct (decide (pobj' ∈ collection_objects sa)); [done|].
  injection Hlink as <-.
  apply reparent_loop in Hloop as (Hin & Hdc & Hcc & Hmc & Hfc & Hxc).
  cbn [data collection_objects scene_camera scene_frame_end dead] in *.
  assert (("objects", pobj') ∉ loaded) as Hnl.
  { intros Hr. destruct (Hin2 _ Hr) as [? ?]. congruence. }
  split; [done|]. split; [done|]. split; [done|].
  split; [intros r Hr; by apply Hin|].
  split; [|split; [|split]]; [|congruence..].
  exists n'. split; [done|]. intros k. rewrite Hdc.
  destruct (decide (k = ("objects", pobj'))) as [->|Hne].
  - rewrite lookup_insert_eq. cbn. unfold reparented.
    rewrite decide_False; [done|]. by intros [? _].
  - by rewrite lookup_insert_ne.
Qed.

End merge.

(** ** The objects and the other entities that [load] returns *)

Section load_theorems.
Context `{Host}.

Lemma loop_inv_loaded_present ots data_to s1 s2 loaded ppn :
  loop_inv ots data_to s1 (s2, loaded, ppn) →
  ∀ i, ("objects", i) ∈ loaded → is_Some (data s2 !! ("objects", i)).
Proof.
  intros (_ & _ & I3) i Hi. destruct (I3 i Hi) as (_ & d & Hd & _).
  by eexists.
Qed.

(** C7.  Type filtering applies only to ["objects"].  For any other data
    block the loop appends every entity imported for it to [loaded_objects],
    whatever [obj_types] is, and leaves the scene data as it is (nothing is
    linked); and whenever [load] returns, every entity imported for a
    requested data block other than ["objects"] is in the returned list. *)
Theorem other_data_blocks_loaded_unfiltered :
  (∀ (obj_types : list string) (merge_objects : bool)
     (merged_object_name : string) (data_to : gmap string (list positive))
     (data_block : string) (s : state) (loaded_objects : list ref)
     (potential_parent_names : list string),
     data_block ≠ "objects" →
     load_block obj_types merge_objects merged_object_name data_to data_block
                (s, loaded_objects, potential_parent_names)
     = Ok (s, loaded_objects ++ (pair data_block <$> data_to !!! data_block),
           potential_parent_names)) ∧
  (∀ (path : string) (obj_types : config) (name_regrex : option string)
     (data_blocks : config) (merge_objects : bool)
     (merged_object_name : string) (s : state) (ret : list ref) (s' : state),
     load path obj_types name_regrex data_blocks merge_objects
          merged_object_name s = Ok (ret, s') →
     ∃ dbs s1 data_to,
       _validate_and_standardizes_configured_list
         data_blocks valid_datablocks "data block" = Ok dbs ∧
       import_entities (resolve_path path) name_regrex dbs s
       = Ok (s1, data_to) ∧
       ∀ data_block, data_block ∈ dbs → data_block ≠ "objects" →
         ∀ entity, entity ∈ data_to !!! data_block →
                   (data_block, entity) ∈ ret).
Proof.
  split.
  - intros obj_types merge_objects merged_object_name data_to data_block s
           loaded_objects potential_parent_names Hb.
    unfold load_block. by rewrite decide_False.
  - intros path obj_types name_regrex data_blocks merge_objects
           merged_object_name s ret s' Hload.
    apply load_Ok in Hload
      as (dbs & ots & s1 & data_to & s2 & loaded & ppn & s3
          & Hdbs & Hots & Himp & Hloop & Hpurge & Hret).
    exists dbs, s1, data_to. split; [done|]. split; [done|].
    intros b Hb Hne e He.
    apply load_blocks_spec in Hloop as [HI Hset].
    specialize (Hset b Hb). unfold block_settled in Hset.
    rewrite decide_False in Hset by done. specialize (Hset e He).
    cbn [fst snd] in Hset.
    destruct Hret as [(_ & _ & ->)|(_ & _ & pn & pobj & r & Hm & _)]; [done|].
    apply merge_loaded_Ok in Hm as (_ & _ & _ & Hobj & _);
      [|by eapply loop_inv_loaded_present].
    by apply Hobj in Hset.
Qed.

(** C1 (amended).  Whenever [load] returns, and ["objects"] is among the
    requested data blocks, an imported object is kept (linked into the scene
    collection and appended to [loaded_objects]) if and only if its type,
    lowercased, is one of the configured [obj_types]; a kept object is still
    in the scene data, an object of another type has been removed from it.
    [loaded_objects] is the returned list when [merge_objects] is false or
    at most one entity was loaded. *)
Theorem imported_objects_kept_by_type
    (path : string) (obj_types : config) (name_regrex : option string)
    (data_blocks : config) (merge_objects : bool)
    (merged_object_name : string) (s : state)
    (ret : list ref) (s' : state) :
  load path obj_types name_regrex data_blocks merge_objects
       merged_object_name s = Ok (ret, s') →
  ∃ dbs ots s1 data_to s2 loaded_objects potential_parent_names,
    _validate_and_standardizes_configured_list
      data_blocks valid_datablocks "data block" = Ok dbs ∧
    _validate_and_standardizes_configured_list
      obj_types valid_object_types "object type" = Ok ots ∧
    import_entities (resolve_path path) name_regrex dbs s = Ok (s1, data_to) ∧
    for_in dbs (load_block ots merge_objects merged_object_name data_to)
           (s1, [], []) = Ok (s2, loaded_objects, potential_parent_names) ∧
    (merge_objects = false ∨ length loaded_objects ≤ 1 →
     ret = loaded_objects) ∧
    ("objects" ∈ dbs →
     ∀ obj, obj ∈ data_to !!! "objects" →
       ∃ o, data s1 !! ("objects", obj) = Some o ∧
         ((obj ∈ collection_objects s' ∧ ("objects", obj) ∈ loaded_objects)
          ↔ Py.lower (type_str (type o)) ∈ ots) ∧
         (Py.lower (type_str (type o)) ∈ ots →
          is_Some (data s' !! ("objects", obj))) ∧
         (Py.lower (type_str (type o)) ∉ ots →
          data s' !! ("objects", obj) = None)).
Proof.
  intros Hload.
  apply load_Ok in Hload
    as (dbs & ots & s1 & data_to & s2 & loaded & ppn & s3
        & Hdbs & Hots & Himp & Hloop & Hpurge & Hret).
  exists dbs, ots, s1, data_to, s2, loaded, ppn.
  repeat (split; [done|]).
  pose proof Hloop as [HI Hset]%load_blocks_spec.
  split.
  { destruct Hret as [(_ & _ & ->)|(-> & Hlen & _)]; [done|].
    intros [?|?]; [done|lia]. }
  intros Hobjects obj Hobj.
  specialize (Hset "objects" Hobjects). unfold block_settled in Hset.
  rewrite decide_True in Hset by done.
  destruct (Hset obj Hobj) as (o & Ho & Hyes & Hno). cbn [fst snd] in *.
  fold (wanted ots o).
  (* the merge stage *)
  assert (collection_objects s2 ⊆ collection_objects s3 ∧
          (∀ k, data s2 !! k = None → k ∈ dead s2 → data s3 !! k = None) ∧
          (∀ k, is_Some (data s2 !! k) → is_Some (data s3 !! k)))
    as (Hcoll3 & Hgone3 & Hkeep3).
  { destruct Hret as [(_ & -> & _)|(_ & _ & pn & pobj & r & Hm & _)]; [done|].
    apply merge_loaded_Ok in Hm
      as (_ & Hfresh & Hnd & _ & (n' & _ & Hd3) & Hc3 & _ & _);
      [|by eapply loop_inv_loaded_present].
    split; [|split].
    - rewrite Hc3. intros i Hi. apply elem_of_union. by right.
    - intros k Hk Hdead. rewrite Hd3, Hk. rewrite decide_False; [done|].
      by intros ->.
    - intros k [d Hk]. rewrite Hd3. case_decide; [by eexists|].
      rewrite Hk. by eexists. }
  (* the cleanup *)
  destruct (purge_loop_spec (collect_all_orphan_datablocks s) data_to
              (S (size (data s3))) s3)
    as (s'' & R & Hloop' & Hres); [lia|].
  unfold _purge_added_orphans in Hpurge. rewrite Hloop' in Hpurge.
  injection Hpurge as ->.
  pose proof (purge_result_collection _ _ _ _ _ Hres) as Hcoll'.
  destruct Hres as (_ & HR & _ & Hdata' & _).
  exists o. split; [done|]. split; [|split].
  - split.
    + intros [_ Hin]. destruct (decide (wanted ots o)) as [|Hn]; [done|].
      by destruct (Hno Hn) as (_ & _ & ?).
    + intros Hw. destruct (Hyes Hw) as [Hl Hin]. split; [|done].
      rewrite Hcoll'. by apply Hcoll3.
  - intros Hw. destruct (Hyes Hw) as [_ Hin].
    destruct (Hkeep3 ("objects", obj)) as [d3 Hd3];
      [by eapply loop_inv_loaded_present|].
    rewrite Hdata', Hd3. rewrite decide_False; [by eexists|].
    intros HinR. apply HR in HinR as (_ & _ & Hex). by apply Hex.
  - intros Hn. destruct (Hno Hn) as (Hdead & Hnone & _).
    rewrite Hdata', (Hgone3 _ Hnone Hdead). by case_decide.
Qed.

End load_theorems.

Lemma reparented_fields parent_obj loaded k d :
  name (reparented parent_obj loaded k d) = name d ∧
  type (reparented parent_obj loaded k d) = type d ∧
  parent (reparented parent_obj loaded k d) =
    (if decide (k ∈ loaded ∧ parent d = None) then Some parent_obj
     else parent d).
Proof. unfold reparented. by case_decide. Qed.

Section merge_theorem.
Context `{Host}.

(** C5 (amended).  Let [load] return with [merge_objects] set.  If at
    most one entity was loaded, nothing is merged: the scene data go from
    the loop to the cleanup as they are, and the loaded list is returned.
    If more than one was loaded, a new empty object (absent from the scene
    data before) has been created and linked into the scene collection;
    every loaded object that had no parent at that point has it as its
    parent; a loaded object that had a parent keeps it, as long as that
    parent is in the scene data; and, when no object carried the parent
    name at the time the parent was created, the new object has that name
    and the function returns the one-element list that holds it. *)
Theorem merged_objects_get_a_new_parent
    (path : string) (obj_types : config) (name_regrex : option string)
    (data_blocks : config) (merged_object_name : string) (s : state)
    (ret : list ref) (s' : state) :
  load path obj_types name_regrex data_blocks true merged_object_name s
  = Ok (ret, s') →
  ∃ dbs ots s1 data_to s2 loaded_objects potential_parent_names,
    _validate_and_standardizes_configured_list
      data_blocks valid_datablocks "data block" = Ok dbs ∧
    _validate_and_standardizes_configured_list
      obj_types valid_object_types "object type" = Ok ots ∧
    import_entities (resolve_path path) name_regrex dbs s = Ok (s1, data_to) ∧
    for_in dbs (load_block ots true merged_object_name data_to)
           (s1, [], []) = Ok (s2, loaded_objects, potential_parent_names) ∧
    (length loaded_objects ≤ 1 →
     ret = loaded_objects ∧
     _purge_added_orphans (collect_all_orphan_datablocks s) data_to s2
     = Ok s') ∧
    (1 < length loaded_objects →
     ∃ parent_name parent_obj d,
       merged_parent_name (resolve_path path) merged_object_name
                          potential_parent_names = Ok parent_name ∧
       data s2 !! ("objects", parent_obj) = None ∧
       data s' !! ("objects", parent_obj) = Some d ∧
       type d = EMPTY ∧ parent d = None ∧
       parent_obj ∈ collection_objects s' ∧
       (∀ loaded_object, loaded_object ∈ loaded_objects →
          ∃ d2 d', loaded_object.1 = "objects" ∧
            data s2 !! loaded_object = Some d2 ∧
            data s' !! loaded_object = Some d' ∧
            (parent d2 = None → parent d' = Some parent_obj) ∧
            (∀ p, parent d2 = Some p →
                  is_Some (data s' !! ("objects", p)) →
                  parent d' = Some p)) ∧
       (objects_find parent_name s2 = None →
        name d = parent_name ∧ ret = [("objects", parent_obj)])).
Proof.
  intros Hload.
  apply load_Ok in Hload
    as (dbs & ots & s1 & data_to & s2 & loaded & ppn & s3
        & Hdbs & Hots & Himp & Hloop & Hpurge & Hret).
  exists dbs, ots, s1, data_to, s2, loaded, ppn.
  repeat (split; [done|]).
  pose proof Hloop as [HI _]%load_blocks_spec.
  destruct Hret as [(Hm & -> & ->)|(_ & Hlen & pn & pobj & r & Hm & Hget & ->)].
  { cbn [andb] in Hm. apply Nat.ltb_ge in Hm. split; [done|lia]. }
  split; [lia|]. intros _.
  apply merge_loaded_Ok in Hm
    as (Hpn & Hfresh & Hnd & Hobj & (n' & Hn' & Hd3) & Hc3 & _ & _);
    [|by eapply loop_inv_loaded_present].
  destruct (purge_loop_spec (collect_all_orphan_datablocks s) data_to
              (S (size (data s3))) s3)
    as (s'' & R & Hloop' & Hres); [lia|].
  unfold _purge_added_orphans in Hpurge. rewrite Hloop' in Hpurge.
  injection Hpurge as ->.
  pose proof (purge_result_collection _ _ _ _ _ Hres) as Hcoll'.
  destruct Hres as (_ & HR & _ & Hdata' & _ & _ & _ & _ & _ & Hul & _).
  destruct HI as (_ & I2 & I3). cbn [fst snd] in *.
  assert (pobj ∈ collection_objects s3) as Hlinked.
  { rewrite Hc3. apply elem_of_union. left. by apply elem_of_singleton. }
  assert (("objects", pobj) ∉ R) as HpR.
  { intros Hin. by apply (Hul pobj Hin). }
  set (new := {| name := n'; type := EMPTY; parent := None;
                 animation_data := None; uses := []; other_users := 0 |}).
  assert (data s' !! ("objects", pobj) = Some (unlink_all R new)) as Hp'.
  { rewrite Hdata', decide_False by done. rewrite Hd3, decide_True by done.
    done. }
  destruct (unlink_all_fields R new) as (Hname & Htype & _ & _ & _ & Hpar).
  exists pn, pobj, (unlink_all R new).
  split; [done|]. split; [done|]. split; [done|]. split; [done|].
  split; [done|]. split; [by rewrite Hcoll'|]. split.
  - intros [c i] Hr. pose proof (Hobj _ Hr) as Hc. cbn [fst] in Hc. subst c.
    destruct (I3 i Hr) as (_ & d2 & Hd2 & _).
    assert (("objects", i) ∉ R) as HiR.
    { intros Hin. apply HR in Hin as (_ & _ & Hex). apply Hex.
      by apply I2. }
    assert (i ≠ pobj) as Hne by congruence.
    exists d2, (unlink_all R (reparented pobj loaded ("objects", i) d2)).
    split; [done|]. split; [done|]. split.
    { rewrite Hdata', decide_False by done.
      rewrite Hd3, decide_False by congruence. by rewrite Hd2. }
    destruct (unlink_all_fields R (reparented pobj loaded ("objects", i) d2))
      as (_ & _ & _ & _ & _ & ->).
    destruct (reparented_fields pobj loaded ("objects", i) d2)
      as (_ & _ & ->).
    split.
    + intros Hnone. rewrite decide_True by done. by rewrite decide_False.
    + intros p Hp [dp Hdp]. rewrite decide_False by (intros [_ ?]; congruence).
      rewrite Hp. rewrite decide_False; [done|].
      intros HpinR. by rewrite Hdata', decide_True in Hdp.
  - intros Hfree. split; [by rewrite Hname; apply Hn'|].
    unfold objects_getitem in Hget.
    destruct (objects_find pn s') as [i|] eqn:Hfind; [|done].
    injection Hget as <-. do 3 f_equal.
    apply objects_find_Some in Hfind as (d & Hd & Hdn).
    destruct (decide (i = pobj)) as [|Hne]; [done|]. exfalso.
    rewrite Hdata' in Hd. case_decide; [done|].
    rewrite Hd3, decide_False in Hd by congruence.
    destruct (data s2 !! ("objects", i)) as [d2|] eqn:Hd2; [|done].
    injection Hd as <-.
    destruct (unlink_all_fields R (reparented pobj loaded ("objects", i) d2))
      as (Hn1 & _).
    destruct (reparented_fields pobj loaded ("objects", i) d2) as (Hn2 & _).
    apply (objects_find_None pn s2 i d2 Hfree Hd2). congruence.
Qed.

End merge_theorem.

(** ** The loader run on the demo scene *)

(** Meshes and materials of the demo archive, not merged. *)
Lemma imported_objects_kept_by_type_witness :
  let r := @load Demo.host "scene.blend" (Str "mesh") None
                 (Lst ["objects"; "Materials"]) false "merged" Demo.scene in
  r = Ok (Demo.returned r, Demo.final r) ∧
  ∃ (ots : list string) s1 data_to,
    @import_entities Demo.host "scene.blend" None ["objects"; "materials"]
                     Demo.scene = Ok (s1, data_to) ∧
    ∀ obj, obj ∈ data_to !!! "objects" →
      ∃ o, data s1 !! ("objects", obj) = Some o ∧
        ((obj ∈ collection_objects (Demo.final r) ∧
          ("objects", obj) ∈ Demo.returned r)
         ↔ Py.lower (type_str (type o)) ∈ ots).
Proof.
  intros r.
  assert (r = Ok (Demo.returned r, Demo.final r)) as Hr
    by (vm_compute; reflexivity).
  split; [exact Hr|].
  destruct (@imported_objects_kept_by_type Demo.host _ _ _ _ _ _ _ _ _ Hr)
    as (dbs & ots & s1 & data_to & s2 & loaded & ppn
        & Hdbs & _ & Himp & _ & Hret & Hobj).
  vm_compute in Hdbs. injection Hdbs as <-.
  exists ots, s1, data_to. split; [exact Himp|].
  intros obj Hin.
  destruct (Hobj ltac:(left) obj Hin) as (o & Ho & Hiff & _).
  exists o. split; [exact Ho|].
  rewrite (Hret ltac:(left; reflexivity)). exact Hiff.
Defined.

(** C1 as stated fails when the loaded objects are merged: the imported mesh
    ["Cube"] is of a configured type, linked and still in the scene data,
    but the returned list holds the new parent only. *)
Lemma merged_objects_not_returned :
  let r := @load Demo.host "scene.blend" (Str "mesh") None (Str "objects")
                 true "merged" Demo.scene in
  let i := Demo.value (Demo.scene, ∅)
             (@import_entities Demo.host "scene.blend" None ["objects"]
                               Demo.scene) in
  r = Ok (Demo.returned r, Demo.final r) ∧
  10%positive ∈ i.2 !!! "objects" ∧
  (type <$> data i.1 !! ("objects", 10%positive)) = Some MESH ∧
  Py.lower (type_str MESH) ∈ ["mesh"] ∧
  10%positive ∈ collection_objects (Demo.final r) ∧
  is_Some (data (Demo.final r) !! ("objects", 10%positive)) ∧
  ("objects", 10%positive) ∉ Demo.returned r.
Proof.
  intros r i.
  split; [vm_compute; reflexivity|].
  split; [apply (bool_decide_unpack _); vm_compute; reflexivity|].
  split; [vm_compute; reflexivity|].
  split; [apply (bool_decide_unpack _); vm_compute; reflexivity|].
  split; [apply (bool_decide_unpack _); vm_compute; reflexivity|].
  split; [apply (bool_decide_unpack _); vm_compute; reflexivity|].
  apply (bool_decide_unpack _); vm_compute; reflexivity.
Qed.

(** After loading meshes and materials of the demo archive, the orphans are
    those from before and the entities loaded on purpose. *)
Lemma no_added_orphan_remains_witness :
  let r := @load Demo.host "scene.blend" (Str "mesh") None
                 (Lst ["objects"; "Materials"]) false "merged" Demo.scene in
  r = Ok (Demo.returned r, Demo.final r) ∧
  ∃ data_to : gmap string (list positive),
    ∀ k, k ∈ collect_all_orphan_datablocks (Demo.final r) →
         k ∈ collect_all_orphan_datablocks Demo.scene
         ∨ k.2 ∈ (data_to !!! k.1).
Proof.
  intros r.
  assert (r = Ok (Demo.returned r, Demo.final r)) as Hr
    by (vm_compute; reflexivity).
  split; [exact Hr|].
  destruct (@no_added_orphan_remains Demo.host _ _ _ _ _ _ _ _ _ Hr)
    as (dbs & s1 & data_to & s3 & _ & _ & _ & Hfin & _).
  exists data_to. exact Hfin.
Defined.

(** The materials of the demo archive are returned, whatever [obj_types]. *)
Lemma other_data_blocks_loaded_unfiltered_witness :
  let r := @load Demo.host "scene.blend" (Str "mesh") None
                 (Lst ["objects"; "Materials"]) false "merged" Demo.scene in
  r = Ok (Demo.returned r, Demo.final r) ∧
  ∃ s1 data_to,
    @import_entities Demo.host "scene.blend" None ["objects"; "materials"]
                     Demo.scene = Ok (s1, data_to) ∧
    ∀ entity, entity ∈ data_to !!! "materials" →
              ("materials", entity) ∈ Demo.returned r.
Proof.
  intros r.
  assert (r = Ok (Demo.returned r, Demo.final r)) as Hr
    by (vm_compute; reflexivity).
  split; [exact Hr|].
  destruct (proj2 (@other_data_blocks_loaded_unfiltered Demo.host)
              _ _ _ _ _ _ _ _ _ Hr)
    as (dbs & s1 & data_to & Hdbs & Himp & Hall).
  vm_compute in Hdbs. injection Hdbs as <-.
  exists s1, data_to. split; [exact Himp|].
  apply Hall; [right; left|discriminate].
Defined.

(** The two meshes of the demo archive merged under a parent named
    ["merged"]. *)
Lemma merged_objects_get_a_new_parent_witness :
  let r := @load Demo.host "scene.blend" (Str "mesh") None (Str "objects")
                 true "merged" Demo.scene in
  r = Ok (Demo.returned r, Demo.final r) ∧
  ∃ parent_obj d,
    Demo.returned r = [("objects", parent_obj)] ∧
    data (Demo.final r) !! ("objects", parent_obj) = Some d ∧
    type d = EMPTY ∧ name d = "merged" ∧
    parent_obj ∈ collection_objects (Demo.final r).
Proof.
  intros r.
  assert (r = Ok (Demo.returned r, Demo.final r)) as Hr
    by (vm_compute; reflexivity).
  split; [exact Hr|].
  destruct (@merged_objects_get_a_new_parent Demo.host _ _ _ _ _ _ _ _ Hr)
    as (dbs & ots & s1 & data_to & s2 & loaded & ppn
        & Hdbs & Hots & Himp & Hloop & _ & Hmerge).
  vm_compute in Hdbs. injection Hdbs as <-.
  vm_compute in Hots. injection Hots as <-.
  pose proof (f_equal (Demo.value (Demo.scene, ∅)) Himp) as Hi.
  change (Demo.import_objects = (s1, data_to)) in Hi.
  assert (s1 = Demo.import_objects.1) as -> by (by rewrite Hi).
  assert (data_to = Demo.import_objects.2) as -> by (by rewrite Hi).
  pose proof (f_equal (Demo.value (Demo.scene, [], [])) Hloop) as Hl.
  change (Demo.meshes_loaded = (s2, loaded, ppn)) in Hl.
  assert (s2 = Demo.meshes_loaded.1.1) as -> by (by rewrite Hl).
  assert (loaded = Demo.meshes_loaded.1.2) as -> by (by rewrite Hl).
  assert (ppn = Demo.meshes_loaded.2) as -> by (by rewrite Hl).
  clear Hi Hl.
  destruct Hmerge
    as (pn & pobj & d & Hpn & _ & Hd & Hty & _ & Hl & _ & Hfree).
  { apply Nat.ltb_lt. vm_compute. reflexivity. }
  assert (Ok pn = Ok "merged") as Hn
    by (rewrite <-Hpn; vm_compute; reflexivity).
  injection Hn as ->.
  destruct Hfree as [Hname Hret]; [vm_compute; reflexivity|].
  exists pobj, d. split; [exact Hret|]. split; [exact Hd|].
  split; [exact Hty|]. split; [exact Hname|]. exact Hl.
Defined.

(** C5 as stated fails when a single object is loaded: with [merge_objects]
    set, [load] returns the imported mesh itself, which is no new empty
    object and has no parent. *)
Lemma single_object_is_not_merged :
  let r := @load Demo.host "scene.blend" (Str "mesh") (Some "Cube")
                 (Str "objects") true "merged" Demo.scene in
  let i := Demo.value (Demo.scene, ∅)
             (@import_entities Demo.host "scene.blend" (Some "Cube")
                               ["objects"] Demo.scene) in
  r = Ok (Demo.returned r, Demo.final r) ∧
  Demo.returned r = [("objects", 10%positive)] ∧
  i.2 !!! "objects" = [10%positive] ∧
  (type <$> data (Demo.final r) !! ("objects", 10%positive)) = Some MESH ∧
  (parent <$> data (Demo.final r) !! ("objects", 10%positive)) = Some None ∧
  collection_objects (Demo.final r) = {[10%positive]}.
Proof.
  intros r i.
  split; [vm_compute; reflexivity|]. split; [vm_compute; reflexivity|].
  split; [vm_compute; reflexivity|]. split; [vm_compute; reflexivity|].
  split; [vm_compute; reflexivity|]. vm_compute; reflexivity.
Qed.

(** With the default [merged_object_name], the name of the new parent is
    that of a loaded object when every parentless object is kept; the host
    renames the new object, and the lookup by name on line 165 then returns
    the loaded object instead of the parent. *)
Example merged_parent_name_taken :
  let r := @load Demo.host "scene.blend"
                 (Lst ["mesh"; "light"; "camera"; "curve"]) None
                 (Str "objects") true "parent_name" Demo.scene in
  r = Ok (Demo.returned r, Demo.final r) ∧
  Demo.returned r = [("objects", 10%positive)] ∧
  (type <$> data (Demo.final r) !! ("objects", 10%positive)) = Some MESH ∧
  (parent <$> data (Demo.final r) !! ("objects", 10%positive))
  = Some (Some 51%positive) ∧
  (type <$> data (Demo.final r) !! ("objects", 51%positive)) = Some EMPTY.
Proof.
  intros r.
  split; [vm_compute; reflexivity|]. split; [vm_compute; reflexivity|].
  split; [vm_compute; reflexivity|]. split; [vm_compute; reflexivity|].
  vm_compute; reflexivity.
Qed.

(** A parent name shorter than four characters makes line 144 raise. *)
Example short_parent_name_raises :
  merged_parent_name "scene.blend" "parent_name" ["Cup"] = Raise IndexError.
Proof. reflexivity. Qed.

(** * Further properties of the loader *)

(** ** Validation, once more *)

Lemma lower_ascii_idemp (c : ascii) :
  Py.lower_ascii (Py.lower_ascii c) = Py.lower_ascii c.
Proof. destruct c as [[] [] [] [] [] [] [] []]; reflexivity. Qed.

Lemma lower_idemp (s : string) : Py.lower (Py.lower s) = Py.lower s.
Proof.
  induction s as [|c s IH]; [done|]. cbn [Py.lower].
  by rewrite lower_ascii_idemp, IH.
Qed.

Lemma lower_fmap_idemp (l : list string) :
  Py.lower <$> (Py.lower <$> l) = Py.lower <$> l.
Proof.
  induction l as [|x l IH]; [done|]. cbn [fmap list_fmap].
  rewrite lower_idemp. f_equal. exact IH.
Qed.

(** X1.  Validation is idempotent: a list that
    [_validate_and_standardizes_configured_list] returned passes the
    validation against the same allowed elements unchanged, so that a
    validated configuration can be handed to the loader again. *)
Theorem validation_idempotent (config_value : config)
    (allowed_elements : list string) (element_name element_name' : string)
    (l : list string) :
  _validate_and_standardizes_configured_list
    config_value allowed_elements element_name = Ok l →
  _validate_and_standardizes_configured_list
    (Lst l) allowed_elements element_name' = Ok l.
Proof.
  intros Hv.
  pose proof (validate_spec config_value allowed_elements element_name) as H1.
  rewrite Hv in H1. destruct H1 as [-> Hall].
  pose proof (validate_spec (Lst (Py.lower <$> config_list config_value))
                allowed_elements element_name') as H2.
  cbn [config_list] in H2. rewrite lower_fmap_idemp in H2.
  destruct (_validate_and_standardizes_configured_list _ _ element_name')
    as [l2|e|].
  - destruct H2 as [-> _]. done.
  - destruct H2 as (element & Hin & Hnot & _). exfalso. by apply Hnot, Hall.
  - done.
Qed.

(** The validated form of [["MESH"; "Empty"]] *)
Lemma validation_idempotent_witness :
  _validate_and_standardizes_configured_list
    (Lst ["mesh"; "empty"]) valid_object_types "object type"
  = Ok ["mesh"; "empty"].
Proof.
  apply (validation_idempotent (Lst ["MESH"; "Empty"]) valid_object_types
           "object type" "object type").
  vm_compute. reflexivity.
Defined.

(** ** The [with] block, once more *)

Section selection_edges.
Context `{Host}.

Lemma select_names_answered (name_regrex : option string)
    (names acc : list string) :
  (∀ entity_name pattern,
     entity_name ∈ names → name_regrex = Some pattern → pattern ≠ "" →
     ∃ matches, re_fullmatch pattern entity_name = Ok matches) →
  ∃ r, for_in names
    (λ entity_name data_to_entities,
       matches ←
         match name_regrex with
         | None => Ok true
         | Some pattern =>
             if decide (pattern = "") then Ok true
             else re_fullmatch pattern entity_name
         end;
       Ok (if (matches : bool)
           then data_to_entities ++ [entity_name]
           else data_to_entities))
    acc = Ok r.
Proof.
  revert acc. induction names as [|n names IH]; intros acc Hans;
    cbn [for_in]; [by eexists|].
  assert (∃ matches,
            match name_regrex with
            | None => Ok true
            | Some pattern =>
                if decide (pattern = "") then Ok true
                else re_fullmatch pattern n
            end = Ok matches) as [matches ->].
  { destruct name_regrex as [pattern|]; [|by eexists].
    destruct (decide (pattern = "")); [by eexists|].
    apply (Hans n pattern); [left|done..]. }
  cbn [mbind result_bind]. apply IH.
  intros entity_name pattern Hin. apply Hans. by right.
Qed.

Lemma select_entities_answered name_regrex data_from data_block selection
    names :
  data_from !! data_block = Some names →
  (∀ entity_name pattern,
     entity_name ∈ names → name_regrex = Some pattern → pattern ≠ "" →
     ∃ matches, re_fullmatch pattern entity_name = Ok matches) →
  select_entities name_regrex data_from data_block selection
  = Ok (<[data_block := filter (name_selected name_regrex) names]> selection).
Proof.
  intros Hnames Hans.
  destruct (select_names_answered name_regrex names [] Hans) as [r Hr].
  pose proof (select_names _ _ _ _ Hr) as Hval. cbn [app] in Hval.
  unfold select_entities. rewrite Hnames, Hr. by rewrite Hval.
Qed.

(** X2.  A requested data block that the archive does not list makes
    [load] raise ["No such data block: <data block>"], for the first such
    data block, provided the configuration is valid, the archive opens and
    the pattern tests on the names of the data blocks before it answer
    (a malformed pattern would raise first). *)
Theorem missing_data_block_raises
    (path : string) (obj_types : config) (name_regrex : option string)
    (data_blocks : config) (merge_objects : bool)
    (merged_object_name : string) (s : state) (ots : list string)
    (data_from : gmap string (list string))
    (found : list string) (data_block : string) (rest : list string) :
  _validate_and_standardizes_configured_list
    data_blocks valid_datablocks "data block"
  = Ok (found ++ data_block :: rest) →
  _validate_and_standardizes_configured_list
    obj_types valid_object_types "object type" = Ok ots →
  libraries_open (resolve_path path) = Ok data_from →
  (∀ b, b ∈ found →
     ∃ names, data_from !! b = Some names ∧
       ∀ entity_name pattern,
         entity_name ∈ names → name_regrex = Some pattern → pattern ≠ "" →
         ∃ matches, re_fullmatch pattern entity_name = Ok matches) →
  data_from !! data_block = None →
  load path obj_types name_regrex data_blocks merge_objects
       merged_object_name s
  = Raise (Exception ("No such data block: " +:+ data_block)).
Proof.
  intros Hdbs Hots Hopen Hfound Hmissing. unfold load.
  rewrite Hdbs, Hots. cbn [mbind result_bind]. unfold import_entities.
  rewrite Hopen. cbn [mbind result_bind].
  assert (∀ sel, for_in (found ++ data_block :: rest)
                   (select_entities name_regrex data_from) sel
                 = Raise (no_such "data block" data_block)) as Hfor.
  { clear Hdbs. induction found as [|b found IH]; intros sel;
      cbn [for_in app].
    - assert (select_entities name_regrex data_from data_block sel
              = Raise (no_such "data block" data_block)) as ->
        by (unfold select_entities; by rewrite Hmissing).
      done.
    - destruct (Hfound b) as (names & Hnames & Hans); [left|].
      rewrite (select_entities_answered _ _ _ _ names Hnames Hans).
      cbn [mbind result_bind]. apply IH. intros b' Hb'. apply Hfound.
      by right. }
  rewrite Hfor. done.
Qed.

(** X3.  The [with] block never fails on its own account: if the archive
    opens, lists every requested data block and every pattern test on the
    listed names answers, the outcome is that of the host's import (an
    exception of the host included), and what is handed to the host is, for
    each requested data block, the listed names that the pattern selects, in
    the order of the listing, and nothing for any other data block. *)
Theorem import_hands_the_matches_to_the_host
    (path : string) (name_regrex : option string) (data_blocks : list string)
    (s : state) (data_from : gmap string (list string)) :
  libraries_open path = Ok data_from →
  (∀ b, b ∈ data_blocks →
     ∃ names, data_from !! b = Some names ∧
       ∀ entity_name pattern,
         entity_name ∈ names → name_regrex = Some pattern → pattern ≠ "" →
         ∃ matches, re_fullmatch pattern entity_name = Ok matches) →
  ∃ selection,
    import_entities path name_regrex data_blocks s
    = libraries_load path selection s ∧
    ∀ b, selection !! b =
         if decide (b ∈ data_blocks)
         then filter (name_selected name_regrex) <$> data_from !! b
         else None.
Proof.
  intros Hopen Hall. unfold import_entities.
  rewrite Hopen. cbn [mbind result_bind].
  assert (∀ sel, ∃ sel',
            for_in data_blocks (select_entities name_regrex data_from) sel
            = Ok sel' ∧
            ∀ b, sel' !! b =
                 if decide (b ∈ data_blocks)
                 then filter (name_selected name_regrex) <$> data_from !! b
                 else sel !! b) as Hfor.
  { induction data_blocks as [|b0 bs IH]; intros sel; cbn [for_in].
    - exists sel. split; [done|]. intros b.
      rewrite decide_False; [done|]. apply not_elem_of_nil.
    - destruct (Hall b0) as (names & Hnames & Hans); [left|].
      rewrite (select_entities_answered _ _ _ _ names Hnames Hans).
      cbn [mbind result_bind].
      destruct (IH (λ b Hb, Hall b (list_elem_of_further _ _ _ Hb))
                   (<[b0:=filter (name_selected name_regrex) names]> sel))
        as (sel' & Hfor & Hsel').
      exists sel'. split; [done|]. intros b. rewrite Hsel'.
      destruct (decide (b ∈ bs)) as [Hb|Hb].
      + rewrite decide_True; [done|]. by right.
      + destruct (decide (b = b0)) as [->|Hne].
        * rewrite lookup_insert_eq, Hnames.
          rewrite decide_True; [done|]. left.
        * rewrite lookup_insert_ne by done.
          rewrite decide_False; [done|].
          rewrite not_elem_of_cons. done. }
  destruct (Hfor ∅) as (sel' & -> & Hsel'). cbn [mbind result_bind].
  exists sel'. split; [done|]. intros b. rewrite Hsel'.
  case_decide; [done|]. apply lookup_empty.
Qed.

End selection_edges.

(** The demo archive has no libraries. *)
Lemma missing_data_block_raises_witness :
  @load Demo.host "scene.blend" (Str "mesh") (Some "Cube")
        (Lst ["Objects"; "Libraries"; "meshes"]) false "merged" Demo.scene
  = Raise (Exception "No such data block: libraries").
Proof.
  eapply (@missing_data_block_raises Demo.host "scene.blend" (Str "mesh")
            (Some "Cube") _ false "merged" Demo.scene _ _
            ["objects"] "libraries" ["meshes"]).
  - vm_compute. reflexivity.
  - vm_compute. reflexivity.
  - reflexivity.
  - intros b Hb. apply list_elem_of_singleton in Hb. subst b.
    eexists. split; [vm_compute; reflexivity|].
    intros entity_name pattern _ [= <-] _. by eexists.
  - vm_compute. reflexivity.
Defined.

(** With the pattern ["Cube"], the demo host is asked for the object
    ["Cube"] and for no mesh. *)
Lemma import_hands_the_matches_to_the_host_witness :
  ∃ selection,
    @import_entities Demo.host "scene.blend" (Some "Cube")
                     ["objects"; "meshes"] Demo.scene
    = @libraries_load Demo.host "scene.blend" selection Demo.scene ∧
    selection !! "objects" = Some ["Cube"] ∧
    selection !! "meshes" = Some [] ∧
    selection !! "lights" = None.
Proof.
  destruct (@import_hands_the_matches_to_the_host Demo.host "scene.blend"
              (Some "Cube") ["objects"; "meshes"] Demo.scene
              (Demo.listing Demo.archive)) as (selection & Himp & Hsel).
  - reflexivity.
  - intros b Hb.
    assert (is_Some (Demo.listing Demo.archive !! b)) as [names Hnames].
    { apply (bool_decide_unpack _). revert b Hb.
      apply Forall_forall. repeat constructor. }
    exists names. split; [exact Hnames|].
    intros entity_name pattern _ [= <-] _. by eexists.
  - exists selection. split; [exact Himp|]. split; [|split].
    + rewrite Hsel. vm_compute. reflexivity.
    + rewrite Hsel. vm_compute. reflexivity.
    + rewrite Hsel. vm_compute. reflexivity.
Defined.

(** ** The orphan cleanup, once more *)

Lemma purge_pass_nothing before data_to s :
  (∀ k, k ∈ collect_all_orphan_datablocks s →
        k ∈ before ∨ k.2 ∈ (data_to !!! k.1)) →
  purge_pass before data_to s = Ok (s, false).
Proof.
  intros Hnone.
  destruct (purge_pass_spec before data_to s)
    as (s1 & R & Hpass & _ & HR & _ & _ & _ & _ & Hfor).
  assert (R = []) as ->.
  { destruct R as [|r R]; [done|]. exfalso.
    destruct (HR r) as [(Ho & Hb & He) _]; [left|].
    destruct (Hnone r Ho); [done|]. by apply He. }
  injection Hfor as <-. rewrite Hpass.
  by rewrite bool_decide_eq_false_2 by (by intros ?).
Qed.

(** X4.  When every orphan of the scene data was an orphan beforehand or
    was loaded on purpose, [_purge_added_orphans] removes nothing: it returns
    the scene data as they are, after a single turn of its loop. *)
Theorem purge_without_new_orphans
    (orphans_before : gset ref) (data_to : gmap string (list positive))
    (s : state) :
  (∀ k, k ∈ collect_all_orphan_datablocks s →
        k ∈ orphans_before ∨ k.2 ∈ (data_to !!! k.1)) →
  _purge_added_orphans orphans_before data_to s = Ok s.
Proof.
  intros Hnone. unfold _purge_added_orphans. cbn [purge_loop].
  by rewrite purge_pass_nothing.
Qed.

(** The demo scene, whose only orphan is old *)
Lemma purge_without_new_orphans_witness :
  _purge_added_orphans {[("meshes", 1%positive)]} ∅ Demo.scene
  = Ok Demo.scene.
Proof.
  apply purge_without_new_orphans. intros k Hk. left.
  apply (bool_decide_unpack _).
  revert k Hk. apply (set_Forall_elements _ _).
  vm_compute. repeat constructor.
Defined.

(** X5.  The cleanup is idempotent: run again on its own result, with the
    same [orphans_before] and [data_to], it removes nothing more. *)
Theorem purge_added_orphans_idempotent
    (orphans_before : gset ref) (data_to : gmap string (list positive))
    (s : state) :
  ∃ s', _purge_added_orphans orphans_before data_to s = Ok s' ∧
        _purge_added_orphans orphans_before data_to s' = Ok s'.
Proof.
  destruct (purge_loop_spec orphans_before data_to (S (size (data s))) s)
    as (s' & R & Hloop & Hres); [lia|].
  exists s'. split; [done|].
  destruct Hres as (_ & _ & _ & _ & _ & _ & _ & _ & Hfin & _).
  unfold _purge_added_orphans. cbn [purge_loop].
  by rewrite purge_pass_nothing.
Qed.

Lemma purge_loop_inv (P : state → Prop) before data_to fuel s s' :
  (∀ s s1 flag, P s → purge_pass before data_to s = Ok (s1, flag) → P s1) →
  P s → purge_loop fuel before data_to s = Ok s' → P s'.
Proof.
  intros Hpass. revert s. induction fuel as [|fuel IH]; intros s HP; [done|].
  cbn [purge_loop]. intros Hl. inv_bind Hl as ([s1 flag] & Hp & Hl).
  destruct flag.
  - eapply IH; [|done]. by eapply Hpass.
  - injection Hl as <-. by eapply Hpass.
Qed.

(** X6.  The cleanup never removes a datablock that is in use from outside
    [bpy.data] (a fake user, another scene) nor an object that is linked to
    the scene collection, whether or not it was loaded by this call; and it
    leaves the links of the scene collection and [frame_end] as they are. *)
Theorem purge_keeps_what_is_in_use
    (orphans_before : gset ref) (data_to : gmap string (list positive))
    (s : state) :
  ∃ s', _purge_added_orphans orphans_before data_to s = Ok s' ∧
    collection_objects s' = collection_objects s ∧
    scene_frame_end s' = scene_frame_end s ∧
    ∀ k d, data s !! k = Some d →
           0 < other_users d ∨
           (k.1 = "objects" ∧ k.2 ∈ collection_objects s) →
           is_Some (data s' !! k).
Proof.
  destruct (purge_loop_spec orphans_before data_to (S (size (data s))) s)
    as (s' & R & Hloop & Hres); [lia|].
  exists s'. split; [done|].
  split; [by eapply purge_result_collection|].
  split; [by destruct Hres as (_ & _ & _ & _ & _ & ? & _)|].
  intros k d Hd Huse.
  pose (P := λ t : state,
          collection_objects t = collection_objects s ∧
          ∃ d', data t !! k = Some d' ∧ other_users d' = other_users d).
  assert (P s') as (_ & d' & Hd' & _); [|by eexists].
  eapply (purge_loop_inv P); [| |exact Hloop].
  - intros t t1 flag (Hc & dt & Hdt & Hou) Hpass.
    destruct (purge_pass_spec orphans_before data_to t)
      as (t1' & R1 & Hpass' & _ & HR1 & Hdata1 & Hcoll1 & _ & _ & _).
    rewrite Hpass in Hpass'. injection Hpass' as <- _.
    assert (k ∉ R1) as HkR.
    { intros [Ho _]%HR1. unfold collect_all_orphan_datablocks in Ho.
      apply elem_of_dom in Ho as [dk [Hdk Hu]%map_lookup_filter_Some].
      cbn [fst snd] in Hu. unfold users in Hu.
      assert (dk = dt) as -> by congruence.
      destruct Huse as [?|[? ?]]; [lia|].
      rewrite decide_True in Hu by (by rewrite Hc). lia. }
    split.
    + rewrite <-Hc. apply set_eq. intros i. rewrite Hcoll1.
      split; [by intros [? _]|]. intros Hi. split; [done|].
      intros [Ho _]%HR1. apply orphan_unused in Ho as (_ & _ & Ho).
      by apply Ho.
    + exists (unlink_all R1 dt). rewrite Hdata1, decide_False, Hdt by done.
      split; [done|].
      destruct (unlink_all_fields R1 dt) as (_ & _ & _ & -> & _). done.
  - split; [done|]. by exists d.
Qed.

(** ** Loops that stop half-way, and what a cleanup that returned did *)

Lemma for_in_app_inv {A S : Type} (body : A → S → result S) (l1 l2 : list A)
    (s s2 : S) :
  for_in (l1 ++ l2) body s = Ok s2 →
  ∃ s1, for_in l1 body s = Ok s1 ∧ for_in l2 body s1 = Ok s2.
Proof.
  revert s. induction l1 as [|x l1 IH]; intros s; cbn [for_in app].
  - intros Hfor. by exists s.
  - intros Hfor. inv_bind Hfor as (s' & Hx & Hfor).
    apply IH in Hfor as (s1 & H1 & H2). exists s1. split; [|done].
    by rewrite Hx.
Qed.

Lemma for_in_raise_at {A S : Type} (body : A → S → result S)
    (l1 : list A) (x : A) (l2 : list A) (s s1 : S) (e : exn) :
  for_in l1 body s = Ok s1 → body x s1 = Raise e →
  for_in (l1 ++ x :: l2) body s = Raise e.
Proof.
  revert s. induction l1 as [|y l1 IH]; intros s; cbn [for_in app].
  - intros [= ->] ->. done.
  - intros H1 Hx. inv_bind H1 as (s' & Hy & H1). rewrite Hy.
    cbn [mbind result_bind]. by apply IH.
Qed.

Lemma purge_Ok_result before data_to s s' :
  _purge_added_orphans before data_to s = Ok s' →
  ∃ R, purge_result before data_to s s' R.
Proof.
  intros Hp.
  destruct (purge_loop_spec before data_to (S (size (data s))) s)
    as (s'' & R & Hloop & Hres); [lia|].
  unfold _purge_added_orphans in Hp. rewrite Hp in Hloop.
  injection Hloop as <-. by exists R.
Qed.

Lemma load_object_frame_end ots m mn obj s loaded ppn s' loaded' ppn' o :
  load_object ots m mn obj (s, loaded, ppn) = Ok (s', loaded', ppn') →
  data s !! ("objects", obj) = Some o →
  (wanted ots o → type o ≠ CAMERA) →
  scene_frame_end s' = scene_frame_end s.
Proof.
  unfold load_object, get_object. intros Hl Ho Hcam. rewrite Ho in Hl.
  cbn [mbind result_bind] in Hl. fold (wanted ots o) in Hl.
  destruct (decide (wanted ots o)) as [Hw|Hw].
  - inv_bind Hl as (sa & Hlink & Hl).
    inv_bind Hl as (sb & Hsb & [= <- <- <-]).
    unfold link, get_object in Hlink. rewrite Ho in Hlink.
    cbn [mbind result_bind] in Hlink.
    destruct (decide (obj ∈ collection_objects s)); [done|].
    injection Hlink as <-.
    rewrite decide_False in Hsb.
    + by injection Hsb as <-.
    + specialize (Hcam Hw). by destruct (type o).
  - inv_bind Hl as (sa & Hrem & [= <- <- <-]).
    by apply remove_inv in Hrem as (_ & _ & _ & ? & _).
Qed.

(** ** The list that [load] returns *)

Lemma load_objects_loaded ots m mn data_to s1 objs st st' :
  (∀ obj, obj ∈ objs → obj ∈ data_to !!! "objects") →
  loop_inv ots data_to s1 st →
  for_in objs (load_object ots m mn) st = Ok st' →
  loop_inv ots data_to s1 st' ∧
  st'.1.2 = st.1.2 ++
            (pair "objects" <$> filter (passes_type_filter ots s1) objs).
Proof.
  revert st. induction objs as [|obj objs IH]; intros st Hsub HI;
    cbn [for_in].
  - intros [= <-]. split; [done|]. by rewrite filter_nil, app_nil_r.
  - intros Hfor. inv_bind Hfor as (st1 & Hstep & Hfor).
    destruct (load_object_step ots m mn data_to s1 obj st st1)
      as (HI1 & _); [apply Hsub; left|done..|].
    destruct (IH st1) as (HI' & ->); [|done..|].
    { intros y Hy. apply Hsub. by right. }
    split; [done|].
    destruct st as [[s loaded] ppn], st1 as [[sa la] pa].
    apply load_object_Ok in Hstep as (o & Ho & Hcase). cbn [fst snd].
    destruct HI as (I1 & _). destruct (I1 _ _ Ho) as (o1 & Ho1 & Hty & _).
    cbn [fst snd] in Ho1.
    assert (passes_type_filter ots s1 obj ↔ wanted ots o) as Hiff.
    { unfold passes_type_filter. rewrite Ho1. symmetry.
      by apply wanted_type. }
    destruct Hcase as [(Hw & _ & _ & _ & _ & ->)|(Hw & _ & ->)].
    + rewrite filter_cons_True by (by apply Hiff).
      cbn [fmap list_fmap]. by rewrite <-app_assoc.
    + rewrite filter_cons_False; [done|]. intros Hp. by apply Hw, Hiff.
Qed.

Lemma load_blocks_loaded ots m mn data_to s1 dbs st st' :
  loop_inv ots data_to s1 st →
  for_in dbs (load_block ots m mn data_to) st = Ok st' →
  st'.1.2 = st.1.2 ++ concat (block_entities ots data_to s1 <$> dbs).
Proof.
  revert st. induction dbs as [|b dbs IH]; intros st HI; cbn [for_in].
  - intros [= <-]. by rewrite app_nil_r.
  - intros Hfor. inv_bind Hfor as (st1 & Hstep & Hfor).
    destruct (load_block_step ots m mn data_to s1 b st st1) as (HI1 & _);
      [done..|].
    rewrite (IH st1 HI1 Hfor). cbn [fmap list_fmap concat].
    rewrite app_assoc. f_equal.
    unfold load_block in Hstep. unfold block_entities.
    destruct (decide (b = "objects")) as [->|Hb].
    + by destruct (load_objects_loaded ots m mn data_to s1 _ st st1
                   (λ obj Hobj, Hobj) HI Hstep) as [_ ->].
    + destruct st as [[s loaded] ppn]. by injection Hstep as <-.
Qed.

Section load_order.
Context `{Host}.

(** X7.  When the loaded entities are not merged ([merge_objects] is
    false, or at most one entity is loaded), [load] returns exactly this
    list: for each requested data block in the order of [data_blocks], the
    imported objects whose type is configured, or all the imported entities
    of another data block, each in the order of [data_to], with nothing
    left out, added or repeated. *)
Theorem load_returns_the_entities_in_order
    (path : string) (obj_types : config) (name_regrex : option string)
    (data_blocks : config) (merge_objects : bool)
    (merged_object_name : string) (s : state) (ret : list ref) (s' : state)
    (dbs ots : list string) (s1 : state)
    (data_to : gmap string (list positive)) :
  load path obj_types name_regrex data_blocks merge_objects
       merged_object_name s = Ok (ret, s') →
  _validate_and_standardizes_configured_list
    data_blocks valid_datablocks "data block" = Ok dbs →
  _validate_and_standardizes_configured_list
    obj_types valid_object_types "object type" = Ok ots →
  import_entities (resolve_path path) name_regrex dbs s = Ok (s1, data_to) →
  merge_objects = false ∨
  length (concat (block_entities ots data_to s1 <$> dbs)) ≤ 1 →
  ret = concat (block_entities ots data_to s1 <$> dbs).
Proof.
  intros Hload Hdbs Hots Himp Hplain.
  apply load_Ok in Hload
    as (dbs' & ots' & s1' & data_to' & s2 & loaded & ppn & s3
        & Hdbs' & Hots' & Himp' & Hloop & Hpurge & Hret).
  rewrite Hdbs in Hdbs'. injection Hdbs' as <-.
  rewrite Hots in Hots'. injection Hots' as <-.
  rewrite Himp in Himp'. injection Himp' as <- <-.
  assert (loop_inv ots data_to s1 (s1, [], [])) as HI0.
  { split; [|split]; cbn [fst snd].
    - intros k d Hk. by exists d.
    - intros r Hr. by apply not_elem_of_nil in Hr.
    - intros obj Hr. by apply not_elem_of_nil in Hr. }
  pose proof (load_blocks_loaded _ _ _ _ _ _ _ _ HI0 Hloop) as Hloaded.
  cbn [fst snd app] in Hloaded. subst loaded.
  destruct Hret as [(_ & _ & ->)|(-> & Hlen & _)]; [done|].
  destruct Hplain; [done|lia].
Qed.

End load_order.

(** Meshes and materials of the demo archive: the two mesh objects, then
    the material. *)
Lemma load_returns_the_entities_in_order_witness :
  let r := @load Demo.host "scene.blend" (Str "mesh") None
                 (Lst ["objects"; "Materials"]) false "merged" Demo.scene in
  let i := Demo.value (Demo.scene, ∅)
             (@import_entities Demo.host "scene.blend" None
                               ["objects"; "materials"] Demo.scene) in
  Demo.returned r
  = concat (block_entities ["mesh"] i.2 i.1 <$> ["objects"; "materials"]) ∧
  Demo.returned r = [("objects", 10%positive); ("objects", 14%positive);
                     ("materials", 40%positive)].
Proof.
  intros r i. split; [|vm_compute; reflexivity].
  apply (@load_returns_the_entities_in_order Demo.host "scene.blend"
           (Str "mesh") None (Lst ["objects"; "Materials"]) false "merged"
           Demo.scene (Demo.returned r) (Demo.final r)
           ["objects"; "materials"] ["mesh"] i.1 i.2).
  - vm_compute. reflexivity.
  - vm_compute. reflexivity.
  - vm_compute. reflexivity.
  - vm_compute. reflexivity.
  - left. reflexivity.
Defined.

(** ** What [load] keeps, and a request it cannot serve *)

Section load_survivors.
Context `{Host}.

Lemma load_loop_keeps ots m mn data_to dbs s1 s2 loaded ppn k d1 :
  data s1 !! k = Some d1 →
  (k.1 = "objects" → k.2 ∈ data_to !!! "objects" → wanted ots d1) →
  for_in dbs (load_block ots m mn data_to) (s1, [], [])
  = Ok (s2, loaded, ppn) →
  is_Some (data s2 !! k).
Proof.
  intros Hk Hkeep Hfor.
  pose (I := λ st : loop_state,
          loop_inv ots data_to s1 st ∧ is_Some (data st.1.1 !! k)).
  assert (I (s2, loaded, ppn)) as [_ ?]; [|done].
  eapply (for_in_inv I); [| |exact Hfor].
  - intros b st st' _ [HI Hin] Hb.
    split; [by eapply load_block_step|].
    unfold load_block in Hb. destruct (decide (b = "objects")) as [->|].
    + assert (I st') as [_ ?]; [|done].
      eapply (for_in_inv I); [|by split|exact Hb].
      intros obj [[sa la] pa] [[sb lb] pb] Hobj [HIa Hka] Hstep.
      split; [by eapply load_object_step|]. cbn [fst snd] in *.
      apply load_object_Ok in Hstep
        as (o & Ho & [(_ & _ & -> & _)|(Hw & Hrem & _)]); [done|].
      rewrite (remove_lookup _ _ _ k Hrem).
      destruct (decide (k = ("objects", obj))) as [->|Hne].
      * exfalso. apply Hw.
        destruct HIa as (I1 & _). destruct (I1 _ _ Ho) as (o1 & Ho1 & Hty & _).
        cbn [fst snd] in *. assert (o1 = d1) as -> by congruence.
        apply (wanted_type ots o d1 Hty). by apply Hkeep.
      * destruct Hka as [dk ->]. by eexists.
    + destruct st as [[sa la] pa]. by injection Hb as <-.
  - split; [|by eexists]. split; [|split]; cbn [fst snd].
    + intros k' d Hk'. by exists d.
    + intros r Hr. by apply not_elem_of_nil in Hr.
    + intros obj Hr. by apply not_elem_of_nil in Hr.
Qed.

(** X8.  What [load] leaves in the scene data.  A datablock that the scene
    data hold right after the import is still there when [load] returns if
    it was an orphan before the call or is listed in [data_to] (imported on
    purpose), unless it is an imported object whose type is not configured.
    So orphans that the user had before loading are never cleaned up, and
    neither is any entity that was asked for. *)
Theorem load_keeps_earlier_orphans_and_imports
    (path : string) (obj_types : config) (name_regrex : option string)
    (data_blocks : config) (merge_objects : bool)
    (merged_object_name : string) (s : state) (ret : list ref) (s' : state)
    (dbs ots : list string) (s1 : state)
    (data_to : gmap string (list positive)) (k : ref) (d : ID) :
  load path obj_types name_regrex data_blocks merge_objects
       merged_object_name s = Ok (ret, s') →
  _validate_and_standardizes_configured_list
    data_blocks valid_datablocks "data block" = Ok dbs →
  _validate_and_standardizes_configured_list
    obj_types valid_object_types "object type" = Ok ots →
  import_entities (resolve_path path) name_regrex dbs s = Ok (s1, data_to) →
  data s1 !! k = Some d →
  k ∈ collect_all_orphan_datablocks s ∨ k.2 ∈ data_to !!! k.1 →
  (k.1 = "objects" → k.2 ∈ data_to !!! "objects" → wanted ots d) →
  is_Some (data s' !! k).
Proof.
  intros Hload Hdbs Hots Himp Hk Hsafe Hkeep.
  apply load_Ok in Hload
    as (dbs' & ots' & s1' & data_to' & s2 & loaded & ppn & s3
        & Hdbs' & Hots' & Himp' & Hloop & Hpurge & Hret).
  rewrite Hdbs in Hdbs'. injection Hdbs' as <-.
  rewrite Hots in Hots'. injection Hots' as <-.
  rewrite Himp in Himp'. injection Himp' as <- <-.
  pose proof (load_loop_keeps _ _ _ _ _ _ _ _ _ _ _ Hk Hkeep Hloop) as Hk2.
  assert (is_Some (data s3 !! k)) as [d3 Hk3].
  { destruct Hret as [(_ & -> & _)|(_ & _ & pn & pobj & r & Hm & _)]; [done|].
    apply load_blocks_spec in Hloop as [HI _].
    apply merge_loaded_Ok in Hm as (_ & _ & _ & _ & (n' & _ & Hd3) & _);
      [|by eapply loop_inv_loaded_present].
    rewrite Hd3. case_decide; [by eexists|].
    destruct Hk2 as [d2 ->]. by eexists. }
  apply purge_Ok_result in Hpurge as (R & _ & HR & _ & Hdata & _).
  rewrite Hdata, Hk3. rewrite decide_False; [by eexists|].
  intros (_ & Hnb & Hne)%HR. destruct Hsafe; [done|]. by apply Hne.
Qed.

(** X9.  ["objects"] must not be requested twice.  If the validated
    [data_blocks] name ["objects"] at two places and [load] returns, then
    nothing was imported for ["objects"]: with at least one imported object
    the second visit raises, since its first object is already linked or
    already removed. *)
Theorem objects_requested_twice
    (path : string) (obj_types : config) (name_regrex : option string)
    (data_blocks : config) (merge_objects : bool)
    (merged_object_name : string) (s : state) (ret : list ref) (s' : state)
    (dbs : list string) (s1 : state) (data_to : gmap string (list positive))
    (first between last : list string) :
  load path obj_types name_regrex data_blocks merge_objects
       merged_object_name s = Ok (ret, s') →
  _validate_and_standardizes_configured_list
    data_blocks valid_datablocks "data block" = Ok dbs →
  import_entities (resolve_path path) name_regrex dbs s = Ok (s1, data_to) →
  dbs = first ++ "objects" :: between ++ "objects" :: last →
  data_to !!! "objects" = [].
Proof.
  intros Hload Hdbs Himp Htwice.
  apply load_Ok in Hload
    as (dbs' & ots & s1' & data_to' & s2 & loaded & ppn & s3
        & Hdbs' & Hots & Himp' & Hloop & _).
  rewrite Hdbs in Hdbs'. injection Hdbs' as <-.
  rewrite Himp in Himp'. injection Himp' as <- <-.
  rewrite Htwice in Hloop.
  replace (first ++ "objects" :: between ++ "objects" :: last)
    with ((first ++ "objects" :: between) ++ "objects" :: last) in Hloop
    by (by rewrite <-app_assoc).
  apply for_in_app_inv in Hloop as ([[sa la] pa] & Hbefore & Hagain).
  apply load_blocks_spec in Hbefore as [(I1 & _ & I3) Hsettled].
  assert (block_settled ots data_to s1 "objects" (sa, la, pa)) as Hs.
  { apply Hsettled, elem_of_app. right. left. }
  clear Hsettled. unfold block_settled in Hs.
  rewrite decide_True in Hs by done.
  cbn [for_in] in Hagain. inv_bind Hagain as (st & Hblock & _).
  unfold load_block in Hblock. rewrite decide_True in Hblock by done.
  destruct (data_to !!! "objects") as [|obj objs] eqn:Hobjs; [done|].
  exfalso. cbn [for_in] in Hblock.
  inv_bind Hblock as ([[sb lb] pb] & Hobj & _).
  destruct (Hs obj) as (o1 & Ho1 & Hyes & Hno); [left|].
  cbn [fst snd] in *.
  apply load_object_Ok in Hobj as (o & Ho & Hcase).
  destruct (I1 _ _ Ho) as (o1' & Ho1' & Hty & _).
  assert (o1' = o1) as -> by congruence.
  destruct (decide (wanted ots o1)) as [Hw|Hw].
  - destruct (Hyes Hw) as [Hlinked _].
    destruct Hcase as [(_ & Hnl & _)|(Hnw & _)]; [done|].
    by apply Hnw, (wanted_type ots o o1).
  - destruct (Hno Hw) as (_ & Hnone & _). congruence.
Qed.

End load_survivors.

(** The mesh ["Old"], an orphan of the demo scene, is still there after
    loading. *)
Lemma load_keeps_earlier_orphans_and_imports_witness :
  let r := @load Demo.host "scene.blend" (Str "mesh") None (Str "objects")
                 false "merged" Demo.scene in
  is_Some (data (Demo.final r) !! ("meshes", 1%positive)).
Proof.
  intros r.
  apply (@load_keeps_earlier_orphans_and_imports Demo.host "scene.blend"
           (Str "mesh") None (Str "objects") false "merged" Demo.scene
           (Demo.returned r) (Demo.final r) ["objects"] ["mesh"]
           Demo.import_objects.1 Demo.import_objects.2
           ("meshes", 1%positive) (Demo.datablock "Old" EMPTY None None [])).
  - vm_compute. reflexivity.
  - vm_compute. reflexivity.
  - vm_compute. reflexivity.
  - vm_compute. reflexivity.
  - vm_compute. reflexivity.
  - left. apply (bool_decide_unpack _). vm_compute. reflexivity.
  - intros Hk. discriminate Hk.
Defined.

(** ["objects"] twice, with a pattern that matches nothing. *)
Lemma objects_requested_twice_witness :
  (Demo.value (Demo.scene, ∅)
     (@import_entities Demo.host "scene.blend" (Some "Nothing")
                       ["objects"; "objects"] Demo.scene)).2 !!! "objects"
  = [].
Proof.
  set (i := Demo.value (Demo.scene, ∅) _).
  set (r := @load Demo.host "scene.blend" (Str "mesh") (Some "Nothing")
                  (Lst ["objects"; "objects"]) false "merged" Demo.scene).
  apply (@objects_requested_twice Demo.host "scene.blend" (Str "mesh")
           (Some "Nothing") (Lst ["objects"; "objects"]) false "merged"
           Demo.scene (Demo.returned r) (Demo.final r) ["objects"; "objects"]
           i.1 i.2 [] [] []).
  - vm_compute. reflexivity.
  - vm_compute. reflexivity.
  - vm_compute. reflexivity.
  - reflexivity.
Defined.

(** ** The scene settings *)

Section load_frame.
Context `{Host}.

Lemma load_loop_frame_end ots m mn data_to dbs s1 s2 loaded ppn :
  (∀ obj o, obj ∈ data_to !!! "objects" →
            data s1 !! ("objects", obj) = Some o →
            wanted ots o → type o ≠ CAMERA) →
  for_in dbs (load_block ots m mn data_to) (s1, [], [])
  = Ok (s2, loaded, ppn) →
  scene_frame_end s2 = scene_frame_end s1.
Proof.
  intros Hcam Hfor.
  pose (I := λ st : loop_state,
          loop_inv ots data_to s1 st ∧
          scene_frame_end st.1.1 = scene_frame_end s1).
  assert (I (s2, loaded, ppn)) as [_ ?]; [|done].
  eapply (for_in_inv I); [| |exact Hfor].
  - intros b st st' _ [HI Hfe] Hb.
    split; [by eapply load_block_step|].
    unfold load_block in Hb. destruct (decide (b = "objects")) as [->|].
    + assert (I st') as [_ ?]; [|done].
      eapply (for_in_inv I); [|by split|exact Hb].
      intros obj [[sa la] pa] [[sb lb] pb] Hobj [HIa Hfa] Hstep.
      split; [by eapply load_object_step|]. cbn [fst snd] in *.
      rewrite <-Hfa.
      pose proof Hstep as (o & Ho & _)%load_object_Ok.
      eapply load_object_frame_end; [done..|].
      destruct HIa as (I1 & _). destruct (I1 _ _ Ho) as (o1 & Ho1 & Hty & _).
      cbn [fst snd] in *. rewrite Hty. intros Hw.
      apply (Hcam obj o1 Hobj Ho1). by apply (wanted_type ots o o1).
    + destruct st as [[sa la] pa]. by injection Hb as <-.
  - split; [|done]. split; [|split]; cbn [fst snd].
    + intros k d Hk. by exists d.
    + intros r Hr. by apply not_elem_of_nil in Hr.
    + intros obj Hr. by apply not_elem_of_nil in Hr.
Qed.

(** X10.  [load] changes [frame_end] only for a camera that it keeps: if
    no imported object that passes the type filter is a camera, [frame_end]
    is, when [load] returns, what it was right after the import; the
    removal of objects, the merge and the cleanup leave it alone. *)
Theorem load_without_camera_keeps_frame_end
    (path : string) (obj_types : config) (name_regrex : option string)
    (data_blocks : config) (merge_objects : bool)
    (merged_object_name : string) (s : state) (ret : list ref) (s' : state)
    (dbs ots : list string) (s1 : state)
    (data_to : gmap string (list positive)) :
  load path obj_types name_regrex data_blocks merge_objects
       merged_object_name s = Ok (ret, s') →
  _validate_and_standardizes_configured_list
    data_blocks valid_datablocks "data block" = Ok dbs →
  _validate_and_standardizes_configured_list
    obj_types valid_object_types "object type" = Ok ots →
  import_entities (resolve_path path) name_regrex dbs s = Ok (s1, data_to) →
  (∀ obj o, obj ∈ data_to !!! "objects" →
            data s1 !! ("objects", obj) = Some o →
            wanted ots o → type o ≠ CAMERA) →
  scene_frame_end s' = scene_frame_end s1.
Proof.
  intros Hload Hdbs Hots Himp Hcam.
  apply load_Ok in Hload
    as (dbs' & ots' & s1' & data_to' & s2 & loaded & ppn & s3
        & Hdbs' & Hots' & Himp' & Hloop & Hpurge & Hret).
  rewrite Hdbs in Hdbs'. injection Hdbs' as <-.
  rewrite Hots in Hots'. injection Hots' as <-.
  rewrite Himp in Himp'. injection Himp' as <- <-.
  apply purge_Ok_result in Hpurge as (R & _ & _ & _ & _ & _ & -> & _).
  pose proof (load_loop_frame_end _ _ _ _ _ _ _ _ _ Hcam Hloop) as <-.
  destruct Hret as [(_ & -> & _)|(_ & _ & pn & pobj & r & Hm & _)]; [done|].
  apply load_blocks_spec in Hloop as [HI _].
  apply merge_loaded_Ok in Hm as (_ & _ & _ & _ & _ & _ & ? & _);
    [done|by eapply loop_inv_loaded_present].
Qed.

End load_frame.

(** Only meshes are wanted: the cameras of the demo archive are removed and
    [frame_end] stays at 250. *)
Lemma load_without_camera_keeps_frame_end_witness :
  let r := @load Demo.host "scene.blend" (Str "mesh") None (Str "objects")
                 false "merged" Demo.scene in
  scene_frame_end (Demo.final r) = scene_frame_end Demo.import_objects.1.
Proof.
  intros r.
  apply (@load_without_camera_keeps_frame_end Demo.host "scene.blend"
           (Str "mesh") None (Str "objects") false "merged" Demo.scene
           (Demo.returned r) (Demo.final r) ["objects"] ["mesh"]
           Demo.import_objects.1 Demo.import_objects.2).
  - vm_compute. reflexivity.
  - vm_compute. reflexivity.
  - vm_compute. reflexivity.
  - vm_compute. reflexivity.
  - intros obj o _ _ Hw Htype. unfold wanted in Hw. rewrite Htype in Hw.
    apply list_elem_of_singleton in Hw. vm_compute in Hw. discriminate Hw.
Defined.

(** ** A camera whose animation data has no action *)

(** X11.  A camera that is kept but whose animation data has no action
    (only drivers, say) stops the loader: line 110 reads [fcurves] of [None]
    and [AttributeError] is raised. *)
Theorem camera_without_action_raises
    (obj_types : list string) (merge_objects : bool)
    (merged_object_name : string) (obj : positive) (s : state)
    (loaded_objects : list ref) (potential_parent_names : list string)
    (o : ID) :
  data s !! ("objects", obj) = Some o →
  type o = CAMERA →
  "camera" ∈ obj_types →
  obj ∉ collection_objects s →
  animation_data o = Some {| action := None |} →
  load_object obj_types merge_objects merged_object_name obj
              (s, loaded_objects, potential_parent_names)
  = Raise AttributeError.
Proof.
  intros Ho Htype Hcam Hlink Hanim.
  unfold load_object, get_object. rewrite Ho. cbn [mbind result_bind].
  rewrite Htype. cbn [type_str].
  rewrite decide_True by (vm_compute; exact Hcam).
  unfold link, get_object. rewrite Ho. cbn [mbind result_bind].
  rewrite decide_False by done. cbn [mbind result_bind].
  rewrite decide_True by done.
  unfold max_keyframe_of. rewrite Hanim. done.
Qed.

(** A camera that carries animation data without an action. *)
Lemma camera_without_action_raises_witness :
  load_object ["camera"] false "parent_name" 1%positive
    ({| data := {[ ("objects", 1%positive) :=
                     Demo.datablock "Rig" CAMERA None
                                    (Some {| action := None |}) [] ]};
        collection_objects := ∅; scene_camera := None;
        scene_frame_end := 250; dead := ∅ |}, [], [])
  = Raise AttributeError.
Proof.
  eapply camera_without_action_raises.
  - vm_compute. reflexivity.
  - reflexivity.
  - left.
  - apply not_elem_of_empty.
  - reflexivity.
Defined.

Lemma load_object_animation ots m mn obj s loaded ppn s' loaded' ppn' k d' :
  load_object ots m mn obj (s, loaded, ppn) = Ok (s', loaded', ppn') →
  data s' !! k = Some d' →
  ∃ d, data s !! k = Some d ∧ animation_data d' = animation_data d.
Proof.
  intros (o & Ho & [(_ & _ & -> & _)|(_ & Hrem & _)])%load_object_Ok.
  - intros Hk. by exists d'.
  - rewrite (remove_lookup _ _ _ k Hrem). case_decide; [done|].
    destruct (data s !! k) as [d|]; [|done]. intros [= <-]. by exists d.
Qed.

Section load_cameras.
Context `{Host}.

(** X17.  Hence [load] does not return when it keeps such a camera: if
    [load] returns, ["objects"] was requested and cameras are configured,
    then every imported camera has no animation data at all, or animation
    data with an action. *)
Theorem load_returns_only_if_kept_cameras_have_actions
    (path : string) (obj_types : config) (name_regrex : option string)
    (data_blocks : config) (merge_objects : bool)
    (merged_object_name : string) (s : state) (ret : list ref) (s' : state)
    (dbs ots : list string) (s1 : state)
    (data_to : gmap string (list positive)) (obj : positive) (o : ID) :
  load path obj_types name_regrex data_blocks merge_objects
       merged_object_name s = Ok (ret, s') →
  _validate_and_standardizes_configured_list
    data_blocks valid_datablocks "data block" = Ok dbs →
  _validate_and_standardizes_configured_list
    obj_types valid_object_types "object type" = Ok ots →
  import_entities (resolve_path path) name_regrex dbs s = Ok (s1, data_to) →
  "objects" ∈ dbs →
  obj ∈ data_to !!! "objects" →
  data s1 !! ("objects", obj) = Some o →
  type o = CAMERA →
  "camera" ∈ ots →
  animation_data o = None ∨
  ∃ act, animation_data o = Some {| action := Some act |}.
Proof.
  intros Hload Hdbs Hots Himp Hreq Hobj Ho Htype Hcam.
  apply load_Ok in Hload
    as (dbs' & ots' & s1' & data_to' & s2 & loaded & ppn & s3
        & Hdbs' & Hots' & Himp' & Hloop & _).
  rewrite Hdbs in Hdbs'. injection Hdbs' as <-.
  rewrite Hots in Hots'. injection Hots' as <-.
  rewrite Himp in Himp'. injection Himp' as <- <-.
  destruct (animation_data o) as [[[act|]]|] eqn:Hanim; [by eauto|exfalso|by left].
  pose (I := λ st : loop_state,
          loop_inv ots data_to s1 st ∧
          ∀ k d, data st.1.1 !! k = Some d →
                 ∃ d1, data s1 !! k = Some d1 ∧
                       animation_data d = animation_data d1).
  pose (E := λ (x : positive) (_ : loop_state), x ≠ obj).
  assert (I (s1, [], [])) as HI0.
  { split; [split; [|split]|]; cbn [fst snd].
    - intros k d Hk. by exists d.
    - intros r Hr. by apply not_elem_of_nil in Hr.
    - intros y Hr. by apply not_elem_of_nil in Hr.
    - intros k d Hk. by exists d. }
  assert (∀ x t t', x ∈ data_to !!! "objects" → I t →
            load_object ots merge_objects merged_object_name x t = Ok t' →
            I t' ∧ E x t' ∧ ∀ y, E y t → E y t') as Hstep_object.
  { intros x [[sa la] pa] [[sb lb] pb] Hx [HIa Hanim_a] Hstep.
    split; [split|split; [|done]].
    - by eapply load_object_step.
    - cbn [fst snd] in *. intros k d Hk.
      destruct (load_object_animation _ _ _ _ _ _ _ _ _ _ _ _ Hstep Hk)
        as (d0 & Hd0 & ->). by apply Hanim_a.
    - unfold E. intros ->. cbn [fst snd] in *.
      pose proof Hstep as (oa & Hoa & Hcase)%load_object_Ok.
      destruct HIa as (I1 & _).
      destruct (I1 _ _ Hoa) as (o1 & Ho1 & Hty & _). cbn [fst snd] in Ho1.
      assert (o1 = o) as -> by congruence.
      destruct (Hanim_a _ _ Hoa) as (o1 & Ho1' & Han).
      assert (o1 = o) as -> by congruence.
      revert Hstep. unfold load_object, get_object. rewrite Hoa.
      cbn [mbind result_bind]. rewrite Hty, Htype. cbn [type_str].
      rewrite decide_True by (vm_compute; exact Hcam).
      unfold link, get_object. rewrite Hoa. cbn [mbind result_bind].
      destruct (decide (obj ∈ collection_objects sa)); [done|].
      cbn [mbind result_bind]. rewrite decide_True by done.
      unfold max_keyframe_of. rewrite Han, Hanim. done. }
  pose (B := λ (b : string) (_ : loop_state), b ≠ "objects").
  assert (∀ b t t', b ∈ dbs → I t →
            load_block ots merge_objects merged_object_name data_to b t
            = Ok t' →
            I t' ∧ B b t' ∧ ∀ y, B y t → B y t') as Hstep_block.
  { intros b t t' _ HI Hblock.
    destruct (decide (b = "objects")) as [->|Hne].
    - exfalso. unfold load_block in Hblock.
      rewrite decide_True in Hblock by done.
      destruct (for_in_each I E _ _ _ _ Hstep_object HI Hblock)
        as (_ & HE & _).
      by apply (HE obj).
    - split; [|by split]. destruct HI as [HIa Hanim_a]. split.
      + by eapply load_block_step.
      + unfold load_block in Hblock. rewrite decide_False in Hblock by done.
        destruct t as [[sa la] pa]. by injection Hblock as <-. }
  destruct (for_in_each I B _ _ _ _ Hstep_block HI0 Hloop) as (_ & HB & _).
  by apply (HB "objects").
Qed.

End load_cameras.

(** Only cameras are wanted from the demo archive; the camera ["Shot"] is
    kept and [load] returns: its animation data have an action. *)
Lemma load_returns_only_if_kept_cameras_have_actions_witness :
  let o := Demo.datablock "Shot" CAMERA None
                          (Demo.animation [[1; 250]; [100]]%Z) [] in
  animation_data o = None ∨
  ∃ act, animation_data o = Some {| action := Some act |}.
Proof.
  intros o.
  set (r := @load Demo.host "scene.blend" (Str "Camera") None (Str "objects")
                  false "merged" Demo.scene).
  apply (@load_returns_only_if_kept_cameras_have_actions Demo.host
           "scene.blend" (Str "Camera") None (Str "objects") false "merged"
           Demo.scene (Demo.returned r) (Demo.final r) ["objects"] ["camera"]
           Demo.import_objects.1 Demo.import_objects.2 12%positive o).
  - vm_compute. reflexivity.
  - vm_compute. reflexivity.
  - vm_compute. reflexivity.
  - vm_compute. reflexivity.
  - left.
  - apply (bool_decide_unpack _). vm_compute. reflexivity.
  - vm_compute. reflexivity.
  - reflexivity.
  - left.
Defined.

(** ** The active camera *)

Lemma keyframe_numbers_animation (o o' : ID) :
  animation_data o = animation_data o' →
  keyframe_numbers o = keyframe_numbers o'.
Proof. unfold keyframe_numbers. by intros ->. Qed.

Lemma max_keyframe_of_Ok (o : ID) (max_keyframe : Z) :
  max_keyframe_of o = Ok max_keyframe →
  max_keyframe = foldr Z.max (-1)%Z (keyframe_numbers o).
Proof.
  intros Hmax.
  assert (animation_data o = None ∨
          (∃ act, animation_data o = Some {| action := Some act |})) as Hanim.
  { unfold max_keyframe_of in Hmax.
    destruct (animation_data o) as [[[act|]]|]; [by eauto|done|by left]. }
  rewrite (max_keyframe_of_spec o Hanim) in Hmax. by injection Hmax.
Qed.

Lemma load_object_scene ots m mn obj s loaded ppn s' loaded' ppn' o :
  load_object ots m mn obj (s, loaded, ppn) = Ok (s', loaded', ppn') →
  data s !! ("objects", obj) = Some o →
  (wanted ots o → type o = CAMERA →
   scene_camera s' = Some obj ∧
   scene_frame_end s'
   = (foldr Z.max (-1) (keyframe_numbers o) + 1)%Z) ∧
  (wanted ots o → type o ≠ CAMERA →
   scene_camera s' = scene_camera s ∧
   scene_frame_end s' = scene_frame_end s) ∧
  (¬ wanted ots o →
   scene_frame_end s' = scene_frame_end s ∧
   ∀ c, c ≠ obj → scene_camera s = Some c → scene_camera s' = Some c).
Proof.
  unfold load_object, get_object. intros Hl Ho. rewrite Ho in Hl.
  cbn [mbind result_bind] in Hl. fold (wanted ots o) in Hl.
  destruct (decide (wanted ots o)) as [Hw|Hw].
  - inv_bind Hl as (sa & Hlink & Hl).
    inv_bind Hl as (sb & Hsb & [= <- <- <-]).
    unfold link, get_object in Hlink. rewrite Ho in Hlink.
    cbn [mbind result_bind] in Hlink.
    destruct (decide (obj ∈ collection_objects s)); [done|].
    injection Hlink as <-.
    split; [|split; [|done]].
    + intros _ Htype. rewrite Htype in Hsb. cbn [type_str] in Hsb.
      rewrite decide_True in Hsb by done.
      inv_bind Hsb as (mk & Hmk & [= <-]).
      apply max_keyframe_of_Ok in Hmk as ->. done.
    + intros _ Htype. rewrite decide_False in Hsb.
      * by injection Hsb as <-.
      * by destruct (type o).
  - inv_bind Hl as (sa & Hrem & [= <- <- <-]).
    split; [done|]. split; [done|]. intros _.
    unfold remove in Hrem. rewrite Ho in Hrem. injection Hrem as <-.
    cbn [scene_frame_end scene_camera]. split; [done|].
    intros c Hc ->. rewrite decide_False; [done|]. by intros [= ->].
Qed.

Lemma remove_all_camera (R : list ref) (s s' : state) (c : positive) :
  for_in R remove s = Ok s' →
  ("objects", c) ∉ R →
  scene_camera s = Some c →
  scene_camera s' = Some c.
Proof.
  revert s. induction R as [|k R IH]; intros s; cbn [for_in].
  - by intros [= <-].
  - intros Hfor [Hne HR]%not_elem_of_cons Hc.
    inv_bind Hfor as (s1 & Hrem & Hfor).
    apply (IH s1 Hfor HR). unfold remove in Hrem.
    destruct (data s !! k); [|done]. injection Hrem as <-.
    cbn [scene_camera]. rewrite Hc. by rewrite decide_False.
Qed.

Lemma load_object_inv_anim ots m mn data_to s1 obj st st' :
  obj ∈ data_to !!! "objects" →
  loop_inv_anim ots data_to s1 st →
  load_object ots m mn obj st = Ok st' →
  loop_inv_anim ots data_to s1 st'.
Proof.
  destruct st as [[sa la] pa], st' as [[sb lb] pb].
  intros Hobj [HI Hanim] Hstep. split.
  - by eapply load_object_step.
  - cbn [fst snd] in *. intros k d Hk.
    destruct (load_object_animation _ _ _ _ _ _ _ _ _ _ _ _ Hstep Hk)
      as (d0 & Hd0 & ->). by apply Hanim.
Qed.

Lemma load_objects_camera ots m mn data_to s1 objs st st' :
  (∀ obj, obj ∈ objs → obj ∈ data_to !!! "objects") →
  loop_inv_anim ots data_to s1 st →
  for_in objs (load_object ots m mn) st = Ok st' →
  loop_inv_anim ots data_to s1 st' ∧
  match last (filter (kept_camera ots s1) objs) with
  | Some c =>
      scene_camera st'.1.1 = Some c ∧
      ∀ o, data s1 !! ("objects", c) = Some o →
           scene_frame_end st'.1.1
           = (foldr Z.max (-1) (keyframe_numbers o) + 1)%Z
  | None =>
      scene_frame_end st'.1.1 = scene_frame_end st.1.1
  end.
Proof.
  revert st'. induction objs as [|obj objs IH] using rev_ind;
    intros st' Hsub HI Hfor.
  - injection Hfor as <-. done.
  - apply for_in_app_inv in Hfor as (st1 & Hobjs & Hlast).
    cbn [for_in] in Hlast. inv_bind Hlast as (st2 & Hstep & [= ->]).
    destruct (IH st1) as (HI1 & Hcam); [|done..|].
    { intros y Hy. apply Hsub, elem_of_app. by left. }
    assert (obj ∈ data_to !!! "objects") as Hobj.
    { apply Hsub, elem_of_app. right. left. }
    split; [by eapply load_object_inv_anim|].
    destruct st1 as [[sa la] pa], st' as [[sb lb] pb].
    pose proof Hstep as (o & Ho & _)%load_object_Ok.
    destruct HI1 as [(I1 & _) Hanim]. cbn [fst snd] in *.
    destruct (I1 _ _ Ho) as (o1 & Ho1 & Hty & _).
    destruct (Hanim _ _ Ho) as (o1' & Ho1' & Han).
    assert (o1' = o1) as -> by congruence.
    destruct (load_object_scene _ _ _ _ _ _ _ _ _ _ _ Hstep Ho)
      as (Hkept & Hother & Hgone).
    assert (kept_camera ots s1 obj ↔ wanted ots o ∧ type o = CAMERA) as Hiff.
    { unfold kept_camera. rewrite Ho1, Hty.
      by rewrite (wanted_type ots o o1 Hty). }
    rewrite filter_app.
    destruct (decide (kept_camera ots s1 obj)) as [Hk|Hk].
    + rewrite (filter_cons_True _ obj []) by done. rewrite filter_nil.
      rewrite last_snoc. apply Hiff in Hk as [Hw Htype].
      destruct (Hkept Hw Htype) as [-> ->]. split; [done|].
      intros o' Ho'. assert (o' = o1) as -> by congruence.
      by rewrite (keyframe_numbers_animation o o1).
    + rewrite (filter_cons_False _ obj []) by done. rewrite filter_nil.
      rewrite app_nil_r.
      assert (scene_frame_end sb = scene_frame_end sa ∧
              ∀ c, kept_camera ots s1 c → scene_camera sa = Some c →
                   scene_camera sb = Some c) as [Hfe Hsc].
      { destruct (decide (wanted ots o)) as [Hw|Hw].
        - destruct (Hother Hw) as [-> ->]; [|done].
          intros Htype. apply Hk, Hiff. done.
        - destruct (Hgone Hw) as [-> Hc]. split; [done|].
          intros c Hkc. apply Hc. intros ->. done. }
      rewrite Hfe.
      destruct (last (filter (kept_camera ots s1) objs)) as [c|] eqn:Hl;
        [|done].
      destruct Hcam as [Hc Hf]. split; [|done]. apply Hsc; [|done].
      apply last_Some_elem_of in Hl.
      by apply list_elem_of_filter in Hl as [? _].
Qed.

Section active_camera.
Context `{Host}.

Lemma merge_loaded_camera path mn loaded ppn s2 pn pobj s3 :
  merge_loaded path mn loaded ppn s2 = Ok (pn, pobj, s3) →
  scene_camera s3 = scene_camera s2.
Proof.
  unfold merge_loaded. intros Hm.
  inv_bind Hm as (pn' & _ & Hm).
  destruct (objects_new pn' s2) as [pobj' sa] eqn:Hnew.
  inv_bind Hm as (sb & Hlink & Hm).
  inv_bind Hm as (sc & Hloop & [= _ _ <-]).
  apply objects_new_spec in Hnew as (_ & _ & _ & _ & <- & _).
  apply reparent_loop in Hloop as (_ & _ & _ & -> & _).
  unfold link in Hlink. inv_bind Hlink as (d & _ & Hlink).
  destruct (decide (pobj' ∈ collection_objects sa)); [done|].
  by injection Hlink as <-.
Qed.

(** X18.  With several cameras the last one wins.  If [load] returns and
    ["objects"] was requested, the active camera of the scene is then the
    last imported object, in the order of [data_to], that is a camera of a
    configured type, and [frame_end] is one more than the greatest of -1 and
    its key frame numbers; neither the merge nor the cleanup changes that. *)
Theorem last_kept_camera_is_active
    (path : string) (obj_types : config) (name_regrex : option string)
    (data_blocks : config) (merge_objects : bool)
    (merged_object_name : string) (s : state) (ret : list ref) (s' : state)
    (dbs ots : list string) (s1 : state)
    (data_to : gmap string (list positive)) (obj : positive) (o : ID) :
  load path obj_types name_regrex data_blocks merge_objects
       merged_object_name s = Ok (ret, s') →
  _validate_and_standardizes_configured_list
    data_blocks valid_datablocks "data block" = Ok dbs →
  _validate_and_standardizes_configured_list
    obj_types valid_object_types "object type" = Ok ots →
  import_entities (resolve_path path) name_regrex dbs s = Ok (s1, data_to) →
  "objects" ∈ dbs →
  last (filter (kept_camera ots s1) (data_to !!! "objects")) = Some obj →
  data s1 !! ("objects", obj) = Some o →
  scene_camera s' = Some obj ∧
  scene_frame_end s' = (foldr Z.max (-1) (keyframe_numbers o) + 1)%Z.
Proof.
  intros Hload Hdbs Hots Himp Hreq Hlast Ho.
  apply load_Ok in Hload
    as (dbs' & ots' & s1' & data_to' & s2 & loaded & ppn & s3
        & Hdbs' & Hots' & Himp' & Hloop & Hpurge & Hret).
  rewrite Hdbs in Hdbs'. injection Hdbs' as <-.
  rewrite Hots in Hots'. injection Hots' as <-.
  rewrite Himp in Himp'. injection Himp' as <- <-.
  set (frame := (foldr Z.max (-1) (keyframe_numbers o) + 1)%Z).
  (* the loop *)
  pose (E := λ (b : string) (st : loop_state),
          b = "objects" →
          scene_camera st.1.1 = Some obj ∧ scene_frame_end st.1.1 = frame).
  assert (∀ b t t', b ∈ dbs → loop_inv_anim ots data_to s1 t →
            load_block ots merge_objects merged_object_name data_to b t
            = Ok t' →
            loop_inv_anim ots data_to s1 t' ∧ E b t' ∧
            ∀ y, E y t → E y t') as Hstep.
  { intros b t t' _ HI Hblock. unfold load_block in Hblock.
    destruct (decide (b = "objects")) as [->|Hne].
    - destruct (load_objects_camera _ _ _ _ _ _ _ _ (λ x Hx, Hx) HI Hblock)
        as (HI' & Hcam).
      rewrite Hlast in Hcam. destruct Hcam as [Hc Hf].
      specialize (Hf o Ho). split; [done|]. split; [done|].
      intros y _ ->. done.
    - destruct t as [[sa la] pa]. injection Hblock as <-.
      destruct HI as [HIa Hanim]. split; [split; [|done]|split].
      + by eapply (load_block_step ots merge_objects merged_object_name
                     data_to s1 b (sa, la, pa));
          [|unfold load_block; rewrite decide_False].
      + done.
      + done. }
  assert (loop_inv_anim ots data_to s1 (s1, [], [])) as HI0.
  { split; [split; [|split]|]; cbn [fst snd].
    - intros k d Hk. by exists d.
    - intros r Hr. by apply not_elem_of_nil in Hr.
    - intros y Hr. by apply not_elem_of_nil in Hr.
    - intros k d Hk. by exists d. }
  destruct (for_in_each _ E _ _ _ _ Hstep HI0 Hloop) as (_ & HE & _).
  destruct (HE "objects" Hreq eq_refl) as [Hc2 Hf2]. cbn [fst snd] in *.
  (* the camera is linked *)
  assert (obj ∈ collection_objects s2) as Hlinked.
  { apply last_Some_elem_of, list_elem_of_filter in Hlast as [Hk Hobj].
    unfold kept_camera in Hk. rewrite Ho in Hk. destruct Hk as [Hw _].
    apply load_blocks_spec in Hloop as [_ Hsettled].
    specialize (Hsettled "objects" Hreq). unfold block_settled in Hsettled.
    rewrite decide_True in Hsettled by done.
    destruct (Hsettled obj Hobj) as (o' & Ho' & Hyes & _).
    assert (o' = o) as -> by congruence. by destruct (Hyes Hw). }
  (* the merge *)
  assert (scene_camera s3 = Some obj ∧ scene_frame_end s3 = frame ∧
          obj ∈ collection_objects s3) as (Hc3 & Hf3 & Hl3).
  { destruct Hret as [(_ & -> & _)|(_ & _ & pn & pobj & r & Hm & _)];
      [done|].
    rewrite (merge_loaded_camera _ _ _ _ _ _ _ _ Hm).
    apply load_blocks_spec in Hloop as [HI _].
    apply merge_loaded_Ok in Hm as (_ & _ & _ & _ & _ & -> & -> & _);
      [|by eapply loop_inv_loaded_present].
    split; [done|]. split; [done|]. apply elem_of_union. by right. }
  (* the cleanup *)
  apply purge_Ok_result in Hpurge
    as (R & _ & _ & _ & _ & _ & -> & _ & _ & _ & Hunlinked & Hrem).
  split; [|done]. apply (remove_all_camera R s3 s' obj Hrem); [|done].
  intros HR. by apply Hunlinked in HR.
Qed.

End active_camera.

(** Both cameras of the demo archive are kept; ["Early"] comes last, with
    its only key frame at -5. *)
Lemma last_kept_camera_is_active_witness :
  let r := @load Demo.host "scene.blend" (Str "Camera") None (Str "objects")
                 false "merged" Demo.scene in
  scene_camera (Demo.final r) = Some 15%positive ∧
  scene_frame_end (Demo.final r) = 0%Z.
Proof.
  intros r.
  apply (@last_kept_camera_is_active Demo.host
           "scene.blend" (Str "Camera") None (Str "objects") false "merged"
           Demo.scene (Demo.returned r) (Demo.final r) ["objects"] ["camera"]
           Demo.import_objects.1 Demo.import_objects.2 15%positive
           (Demo.datablock "Early" CAMERA None (Demo.animation [[-5]]%Z) [])).
  - vm_compute. reflexivity.
  - vm_compute. reflexivity.
  - vm_compute. reflexivity.
  - vm_compute. reflexivity.
  - left.
  - vm_compute. reflexivity.
  - vm_compute. reflexivity.
Defined.

(** ** The names for the new parent *)

Lemma load_object_names ots m mn obj s loaded ppn s' loaded' ppn' :
  load_object ots m mn obj (s, loaded, ppn) = Ok (s', loaded', ppn') →
  ∃ o, data s !! ("objects", obj) = Some o ∧
    (ppn' = ppn ∨
     m = true ∧ mn = "parent_name" ∧ parent o = None ∧
     (ppn' = ppn ++ [name o] ∨ ppn' = name o :: ppn)).
Proof.
  unfold load_object, get_object.
  destruct (data s !! ("objects", obj)) as [o|] eqn:Ho; [|done].
  cbn [mbind result_bind]. intros Hl. exists o. split; [done|].
  assert (m && bool_decide (parent o = None)
            && bool_decide (mn = "parent_name") = true →
          m = true ∧ mn = "parent_name" ∧ parent o = None) as Hcond.
  { intros [[-> Hp%bool_decide_eq_true]%andb_true_iff
             Hn%bool_decide_eq_true]%andb_true_iff. done. }
  destruct (m && bool_decide (parent o = None)
              && bool_decide (mn = "parent_name")) eqn:Hc.
  - right. destruct (Hcond eq_refl) as (? & ? & ?).
    split; [done|]. split; [done|]. split; [done|].
    destruct (decide (Py.lower (type_str (type o)) ∈ ots)).
    + inv_bind Hl as (sa & _ & Hl). inv_bind Hl as (sb & _ & [= _ _ <-]).
      by left.
    + inv_bind Hl as (sa & _ & [= _ _ <-]). by right.
  - left. destruct (decide (Py.lower (type_str (type o)) ∈ ots)).
    + inv_bind Hl as (sa & _ & Hl). by inv_bind Hl as (sb & _ & [= _ _ <-]).
    + by inv_bind Hl as (sa & _ & [= _ _ <-]).
Qed.

(** X12.  The names collected in [potential_parent_names] (lines 119-126).
    Nothing is collected unless [merge_objects] is set and
    [merged_object_name] is ['parent_name']; and every collected name is the
    name of an object imported for ["objects"], as the import left it. *)
Theorem potential_parent_names_are_imported_names
    (obj_types : list string) (merge_objects : bool)
    (merged_object_name : string) (data_to : gmap string (list positive))
    (data_blocks : list string) (s1 s2 : state) (loaded_objects : list ref)
    (potential_parent_names : list string) :
  for_in data_blocks
    (load_block obj_types merge_objects merged_object_name data_to)
    (s1, [], []) = Ok (s2, loaded_objects, potential_parent_names) →
  (merge_objects = false ∨ merged_object_name ≠ "parent_name" →
   potential_parent_names = []) ∧
  (∀ n, n ∈ potential_parent_names →
     ∃ obj o, "objects" ∈ data_blocks ∧ obj ∈ data_to !!! "objects" ∧
              data s1 !! ("objects", obj) = Some o ∧ name o = n).
Proof.
  intros Hfor.
  pose (I := λ st : loop_state,
          loop_inv obj_types data_to s1 st ∧
          (merge_objects = false ∨ merged_object_name ≠ "parent_name" →
           st.2 = []) ∧
          (∀ n, n ∈ st.2 →
             ∃ obj o, "objects" ∈ data_blocks ∧ obj ∈ data_to !!! "objects" ∧
                      data s1 !! ("objects", obj) = Some o ∧ name o = n)).
  assert (I (s2, loaded_objects, potential_parent_names)) as (_ & ? & ?);
    [|done].
  eapply (for_in_inv I); [| |exact Hfor].
  - intros b st st' Hb (HI & Hoff & Hnames) Hblock.
    split; [by eapply load_block_step|].
    unfold load_block in Hblock. destruct (decide (b = "objects")) as [->|].
    + assert (I st') as (_ & ? & ?); [|done].
      eapply (for_in_inv I);
        [|exact (conj HI (conj Hoff Hnames))|exact Hblock].
      intros obj [[sa la] pa] [[sb lb] pb] Hobj (HIa & Hoffa & Hna) Hstep.
      split; [by eapply load_object_step|]. cbn [fst snd] in *.
      apply load_object_names in Hstep as (o & Ho & Hcase).
      destruct HIa as (I1 & _). destruct (I1 _ _ Ho) as (o1 & Ho1 & _ & Hn1).
      cbn [fst snd] in *.
      destruct Hcase as [->|(-> & -> & _ & Hpb)]; [done|]. split.
      * intros [?|?]; done.
      * intros n Hn.
        assert (n = name o ∨ n ∈ pa) as [->|?]; [|by eauto 10|by apply Hna].
        destruct Hpb as [-> | ->].
        -- apply elem_of_app in Hn as [?| ->%list_elem_of_singleton]; auto.
        -- apply elem_of_cons in Hn as [->|?]; auto.
    + destruct st as [[sa la] pa]. by injection Hblock as <-.
  - split; [|split]; cbn [fst snd].
    + split; [|split]; cbn [fst snd].
      * intros k d Hk. by exists d.
      * intros r Hr. by apply not_elem_of_nil in Hr.
      * intros obj Hr. by apply not_elem_of_nil in Hr.
    + done.
    + intros n Hn. by apply not_elem_of_nil in Hn.
Qed.

(** Merging the meshes of the demo archive under the name of a parent. *)
Lemma potential_parent_names_are_imported_names_witness :
  let st := Demo.value (Demo.scene, [], [])
              (for_in ["objects"]
                 (load_block ["mesh"] true "parent_name" Demo.import_objects.2)
                 (Demo.import_objects.1, [], [])) in
  (true = false ∨ "parent_name" ≠ "parent_name" → st.2 = []) ∧
  (∀ n, n ∈ st.2 →
     ∃ obj o, "objects" ∈ ["objects"] ∧
              obj ∈ Demo.import_objects.2 !!! "objects" ∧
              data Demo.import_objects.1 !! ("objects", obj) = Some o ∧
              name o = n).
Proof.
  intros st.
  apply (potential_parent_names_are_imported_names ["mesh"] true
           "parent_name" Demo.import_objects.2 ["objects"]
           Demo.import_objects.1 st.1.1 st.1.2 st.2).
  vm_compute. reflexivity.
Defined.

(** ** Strings: slices of a concatenation *)

Lemma string_app_cons (c : ascii) (s1 s2 : string) :
  String c s1 +:+ s2 = String c (s1 +:+ s2).
Proof. reflexivity. Qed.

Lemma string_length_app (s1 s2 : string) :
  String.length (s1 +:+ s2) = String.length s1 + String.length s2.
Proof.
  induction s1 as [|c s1 IH]; [done|].
  rewrite string_app_cons. cbn [String.length]. by rewrite IH.
Qed.

Lemma string_app_assoc (s1 s2 s3 : string) :
  (s1 +:+ s2) +:+ s3 = s1 +:+ (s2 +:+ s3).
Proof.
  induction s1 as [|c s1 IH]; [done|].
  rewrite !string_app_cons. by rewrite IH.
Qed.

Lemma substring_all (s : string) :
  String.substring 0 (String.length s) s = s.
Proof. induction s as [|c s IH]; cbn; [done|]. by rewrite IH. Qed.

Lemma substring_prefix (s1 s2 : string) :
  String.substring 0 (String.length s1) (s1 +:+ s2) = s1.
Proof.
  induction s1 as [|c s1 IH]; [by destruct s2|].
  rewrite string_app_cons. cbn [String.length String.substring].
  by rewrite IH.
Qed.

Lemma substring_suffix (s1 s2 : string) :
  String.substring (String.length s1) (String.length s2) (s1 +:+ s2) = s2.
Proof.
  induction s1 as [|c s1 IH]; [apply substring_all|].
  rewrite string_app_cons. cbn [String.length String.substring]. exact IH.
Qed.

Lemma get_after_prefix (s1 : string) (c : ascii) (s2 : string) :
  String.get (String.length s1) (s1 +:+ String c s2) = Some c.
Proof.
  induction s1 as [|c1 s1 IH]; [done|].
  rewrite string_app_cons. cbn [String.length String.get]. exact IH.
Qed.

Lemma drop_last_app (s1 s2 : string) :
  Py.drop_last (String.length s2) (s1 +:+ s2) = s1.
Proof.
  unfold Py.drop_last. rewrite string_length_app.
  replace (String.length s1 + String.length s2 - String.length s2)
    with (String.length s1) by lia.
  apply substring_prefix.
Qed.

Lemma take_last_app (s1 s2 : string) :
  Py.take_last (String.length s2) (s1 +:+ s2) = s2.
Proof.
  unfold Py.take_last. rewrite string_length_app.
  replace (String.length s1 + String.length s2 - String.length s2)
    with (String.length s1) by lia.
  apply substring_suffix.
Qed.

Lemma index_from_end_app (s1 : string) (c : ascii) (s2 : string) :
  Py.index_from_end (s1 +:+ String c s2) (S (String.length s2)) = Ok c.
Proof.
  unfold Py.index_from_end. rewrite string_length_app. cbn [String.length].
  destruct (Nat.ltb_spec (String.length s1 + S (String.length s2))
              (S (String.length s2))) as [Hlt|_]; [lia|].
  replace (String.length s1 + S (String.length s2) - S (String.length s2))
    with (String.length s1) by lia.
  by rewrite get_after_prefix.
Qed.

Lemma index_from_end_Ok (s : string) (k : nat) :
  0 < k → k ≤ String.length s → ∃ c, Py.index_from_end s k = Ok c.
Proof.
  intros Hk Hle. unfold Py.index_from_end.
  destruct (Nat.ltb_spec (String.length s) k) as [Hlt|_]; [lia|].
  destruct (String.get (String.length s - k) s) as [c|] eqn:Hget;
    [by eexists|].
  exfalso. assert (String.length s - k < String.length s) as Hlt by lia.
  revert Hget Hlt. generalize (String.length s - k). clear.
  induction s as [|c s IH]; intros n; cbn; [lia|].
  destruct n as [|n]; [done|]. intros Hget Hlt. apply (IH n Hget). lia.
Qed.

(** ** The file name of a path *)

Lemma split_aux_no_separator (sep : ascii) (s cur : string) :
  sep ∉ String.list_ascii_of_string s →
  Py.split_aux sep s cur = [cur +:+ s].
Proof.
  revert cur. induction s as [|c s IH]; intros cur Hno.
  - cbn [Py.split_aux]. f_equal.
    induction cur as [|c cur IHc]; [done|].
    rewrite string_app_cons. by rewrite <-IHc.
  - cbn [String.list_ascii_of_string] in Hno.
    apply not_elem_of_cons in Hno as [Hne Hno].
    cbn [Py.split_aux].
    destruct (Ascii.eqb_spec c sep) as [->|_]; [done|].
    rewrite IH by done. f_equal. by rewrite string_app_assoc.
Qed.

Lemma last_piece_split (sep : ascii) (dir file cur : string) :
  sep ∉ String.list_ascii_of_string file →
  Py.last_piece (Py.split_aux sep (dir +:+ String sep file) cur) = file.
Proof.
  intros Hno. revert cur. induction dir as [|c dir IH]; intros cur.
  - change ("" +:+ String sep file) with (String sep file).
    cbn [Py.split_aux]. rewrite Ascii.eqb_refl.
    rewrite split_aux_no_separator by done. done.
  - rewrite string_app_cons. cbn [Py.split_aux].
    unfold Py.last_piece in *.
    destruct (Ascii.eqb c sep).
    + specialize (IH ""). cbn [List.last].
      destruct (Py.split_aux sep (dir +:+ String sep file) "") eqn:E;
        [|exact IH].
      exfalso. clear -E. revert E. generalize "". 
      induction (dir +:+ String sep file) as [|c' s' IH']; intros cur;
        cbn [Py.split_aux]; [done|].
      destruct (Ascii.eqb c' sep); [done|apply IH'].
    + apply IH.
Qed.

Lemma file_stem_of_file (prefix stem ext : string) :
  prefix = "" ∨ (∃ dir, prefix = dir +:+ "/") →
  "/"%char ∉ String.list_ascii_of_string (stem +:+ ext) →
  String.length ext = 6 →
  file_stem (prefix +:+ stem +:+ ext) = stem.
Proof.
  intros Hprefix Hno Hlen. unfold file_stem.
  assert (Py.last_piece (Py.split "/" (prefix +:+ stem +:+ ext))
          = stem +:+ ext) as ->.
  { unfold Py.split. destruct Hprefix as [->|[dir ->]].
    - change ("" +:+ stem +:+ ext) with (stem +:+ ext).
      by rewrite split_aux_no_separator.
    - rewrite string_app_assoc.
      change ("/" +:+ stem +:+ ext) with (String "/" (stem +:+ ext)).
      by apply last_piece_split. }
  rewrite <-Hlen. apply drop_last_app.
Qed.

(** ** The name of the new parent *)

(** X13.  In ['parent_name'] mode the numeric suffix of a duplicate is
    removed: a first potential parent name that ends in a dot and three
    digits (["Table.001"]) gives the name without these four characters. *)
Theorem parent_name_suffix_stripped
    (path base : string) (d1 d2 d3 : ascii) (others : list string) :
  Py.is_digit d1 = true → Py.is_digit d2 = true → Py.is_digit d3 = true →
  merged_parent_name path "parent_name"
    ((base +:+ "." +:+ String d1 (String d2 (String d3 EmptyString)))
       :: others)
  = Ok base.
Proof.
  intros H1 H2 H3. unfold merged_parent_name.
  rewrite decide_False by done. rewrite decide_True by done.
  set (digits := String d1 (String d2 (String d3 EmptyString))).
  set (parent_name := base +:+ "." +:+ digits).
  assert (Py.index_from_end parent_name 4 = Ok "."%char) as ->.
  { exact (index_from_end_app base "." digits). }
  assert (Py.take_last 3 parent_name = digits) as ->.
  { unfold parent_name. rewrite <-string_app_assoc.
    exact (take_last_app (base +:+ ".") digits). }
  assert (Py.drop_last 4 parent_name = base) as ->.
  { exact (drop_last_app base ("." +:+ digits)). }
  cbn. by rewrite H1, H2, H3.
Qed.

(** The duplicate ["Table.001"] *)
Lemma parent_name_suffix_stripped_witness :
  merged_parent_name "scene.blend" "parent_name" ["Table.001"; "Chair"]
  = Ok "Table".
Proof.
  apply (parent_name_suffix_stripped "scene.blend" "Table" "0" "0" "1"
           ["Chair"]); reflexivity.
Defined.

(** X14.  The name of the new parent is computed without an exception
    except in one case: in ['parent_name'] mode, a candidate (the first
    potential parent name, or the file name without its last six characters
    when there is none) shorter than four characters makes [parent_name[-4]]
    raise [IndexError]; in every other case a name is returned. *)
Theorem parent_name_index_error
    (path merged_object_name : string) (potential_parent_names : list string) :
  (merged_parent_name path merged_object_name potential_parent_names
   = Raise IndexError
   ↔ merged_object_name = "parent_name" ∧
     String.length (List.hd (file_stem path) potential_parent_names) < 4) ∧
  (¬ (merged_object_name = "parent_name" ∧
      String.length (List.hd (file_stem path) potential_parent_names) < 4) →
   ∃ parent_name,
     merged_parent_name path merged_object_name potential_parent_names
     = Ok parent_name).
Proof.
  unfold merged_parent_name.
  destruct (decide (merged_object_name = "filename")) as [->|Hf].
  { split; [|by eexists]. split; [done|]. by intros [? _]. }
  destruct (decide (merged_object_name = "parent_name")) as [->|Hp].
  2:{ split; [|by eexists]. split; [done|]. by intros [? _]. }
  change (match potential_parent_names with
          | n :: _ => n
          | [] => file_stem path
          end) with (List.hd (file_stem path) potential_parent_names).
  set (parent_name := List.hd (file_stem path) potential_parent_names).
  destruct (Nat.lt_ge_cases (String.length parent_name) 4) as [Hlt|Hge].
  - unfold Py.index_from_end.
    destruct (Nat.ltb_spec (String.length parent_name) 4); [|lia].
    cbn [mbind result_bind]. split; [done|]. intros Hn. exfalso. by apply Hn.
  - destruct (index_from_end_Ok parent_name 4) as [c ->]; [lia|done|].
    cbn [mbind result_bind]. split.
    + split; [|lia]. by destruct (_ && _).
    + intros _. destruct (_ && _); by eexists.
Qed.

(** X15.  In ['filename'] mode the new parent is named after the file:
    the part of the path behind its last slash (the whole path when it has
    none), without its last six characters, whatever these are; for a file
    [<stem>.blend] that is the stem. *)
Theorem merged_name_is_file_name_without_extension
    (prefix stem ext : string) (potential_parent_names : list string) :
  prefix = "" ∨ (∃ dir, prefix = dir +:+ "/") →
  "/"%char ∉ String.list_ascii_of_string (stem +:+ ext) →
  String.length ext = 6 →
  merged_parent_name (prefix +:+ stem +:+ ext) "filename"
                     potential_parent_names = Ok stem.
Proof.
  intros Hprefix Hno Hlen. unfold merged_parent_name.
  rewrite decide_True by done. f_equal. by apply file_stem_of_file.
Qed.

(** A path with directories and blanks *)
Lemma merged_name_is_file_name_without_extension_witness :
  merged_parent_name "/data/scenes/living room.blend" "filename" ["Lamp"]
  = Ok "living room".
Proof.
  apply (merged_name_is_file_name_without_extension
           "/data/scenes/" "living room" ".blend" ["Lamp"]).
  - right. by exists "/data/scenes".
  - apply (bool_decide_unpack _). vm_compute. reflexivity.
  - reflexivity.
Defined.

(** ** Merging entities that are not objects *)

Lemma reparent_objects_Ok parent_obj (objs : list ref) (s : state) :
  (∀ r, r ∈ objs → r.1 = "objects" ∧ is_Some (data s !! r)) →
  ∃ s', for_in objs (reparent parent_obj) s = Ok s'.
Proof.
  revert s. induction objs as [|[c i] objs IH]; intros s Hobjs;
    cbn [for_in]; [by eexists|].
  destruct (Hobjs (c, i)) as [Hc [d Hd]]; [left|]. cbn [fst] in Hc. subst c.
  assert (∃ s1, reparent parent_obj ("objects", i) s = Ok s1 ∧
                ∀ r, is_Some (data s !! r) → is_Some (data s1 !! r))
    as (s1 & -> & Hkeep).
  { unfold reparent, get_parent, get_object. cbn [fst snd].
    rewrite decide_True by done. rewrite Hd. cbn [mbind result_bind].
    destruct (parent d); [by exists s|].
    unfold set_parent, get_object. rewrite Hd. cbn [mbind result_bind].
    eexists. split; [reflexivity|]. cbn [data]. intros r Hr.
    destruct (decide (r = ("objects", i))) as [->|Hne].
    - rewrite lookup_insert_eq. by eexists.
    - by rewrite lookup_insert_ne. }
  cbn [mbind result_bind]. apply IH. intros r Hr.
  destruct (Hobjs r) as [? ?]; [by right|]. split; [done|]. by apply Hkeep.
Qed.

Section merge_errors.
Context `{Host}.

(** X16.  Merging works for objects only.  If the list to merge holds an
    entity of another data block (a mesh, a material), the loop of lines
    153-159 reads its [parent], which such a datablock does not have, and
    [AttributeError] is raised; the objects before that entity in the list
    do not raise anything earlier. *)
Theorem merging_other_entities_raises
    (path merged_object_name : string) (loaded_objects : list ref)
    (potential_parent_names : list string) (s : state)
    (parent_name : string) (objects : list ref) (other : ref)
    (rest : list ref) :
  merged_parent_name path merged_object_name potential_parent_names
  = Ok parent_name →
  (∀ i, i ∈ collection_objects s → is_Some (data s !! ("objects", i))) →
  loaded_objects = objects ++ other :: rest →
  (∀ r, r ∈ objects → r.1 = "objects" ∧ is_Some (data s !! r)) →
  other.1 ≠ "objects" →
  merge_loaded path merged_object_name loaded_objects
               potential_parent_names s = Raise AttributeError.
Proof.
  intros Hname Hlinked -> Hobjects Hother. unfold merge_loaded.
  rewrite Hname. cbn [mbind result_bind].
  destruct (objects_new parent_name s) as [parent_obj sa] eqn:Hnew.
  apply objects_new_spec in Hnew
    as (Hfresh & _ & (n' & Hda & _) & Hca & _ & _ & _).
  assert (∃ sb, link parent_obj sa = Ok sb ∧ data sb = data sa)
    as (sb & -> & Hdb).
  { unfold link, get_object. rewrite Hda, lookup_insert_eq.
    cbn [mbind result_bind]. rewrite decide_False.
    - by eexists.
    - rewrite Hca. intros [d Hd]%Hlinked. congruence. }
  cbn [mbind result_bind].
  destruct (reparent_objects_Ok parent_obj objects sb) as [sc Hsc].
  { intros r Hr. destruct (Hobjects r Hr) as [? [d Hd]]. split; [done|].
    rewrite Hdb, Hda. destruct (decide (r = ("objects", parent_obj))) as [->|].
    - congruence.
    - rewrite lookup_insert_ne by done. by eexists. }
  rewrite (for_in_raise_at _ objects other rest sb sc AttributeError Hsc);
    [done|].
  unfold reparent, get_parent. by rewrite decide_False.
Qed.

End merge_errors.

(** Merging the mesh object ["Cube"] and the material ["Mat"]. *)
Lemma merging_other_entities_raises_witness :
  @merge_loaded Demo.host "scene.blend" "merged"
     [("objects", 10%positive); ("materials", 40%positive)] [] Demo.imported
  = Raise AttributeError.
Proof.
  apply (@merging_other_entities_raises Demo.host "scene.blend" "merged" _ []
           Demo.imported "merged" [("objects", 10%positive)]
           ("materials", 40%positive) []).
  - reflexivity.
  - intros i Hi. by apply not_elem_of_empty in Hi.
  - reflexivity.
  - intros r Hr. apply list_elem_of_singleton in Hr. subst r.
    split; [reflexivity|]. vm_compute. eexists. reflexivity.
  - discriminate.
Defined.
